(** * laspp: apps/benchmark.py

    A shallow embedding of the benchmark harness [apps/benchmark.py]: the
    timing records, the aggregation of raw timings into summaries, the tool
    drivers (in-process, subprocess-isolated, external command) and the
    orchestration done by [main].

    Python values are modelled as follows.
    - [float] is IEEE-754 binary64, through the executable specification
      of the Standard Library ([SpecFloat], precision 53, emax 1024);
    - [int] is [Z]; [str] is [string]; [Optional[int]] is [option Z];
    - a [dict] used with [setdefault] and iterated with [items()] is an
      insertion-ordered association list with unique keys;
    - [os.environ] is a finite map from names to values;
    - calls that touch the outside world (codec libraries, child processes,
      the file system) are operations of a [Host], threaded through an
      explicit state together with a trace of observable events. *)

From Stdlib Require Import ZArith List Bool Lia Ascii String.
From Stdlib Require Import Floats.SpecFloat.
From stdpp Require Import base list strings gmap sorting.
Import ListNotations.

Local Open Scope Z_scope.

(** ** Python floats *)

Module PyFloat.

Definition prec : Z := 53.
Definition emax : Z := 1024.

Definition float : Type := spec_float.

Definition zero : float := S754_zero false.
Definition nan : float := S754_nan.

Definition add (x y : float) : float := SFadd prec emax x y.
Definition sub (x y : float) : float := SFsub prec emax x y.
Definition div (x y : float) : float := SFdiv prec emax x y.

(** [x < y], [x <= y] and [x == y]; all three are [False] on a NaN. *)
Definition ltb (x y : float) : bool := SFltb x y.
Definition leb (x y : float) : bool := SFleb x y.
Definition eqb (x y : float) : bool := SFeqb x y.

Definition is_nan (x : float) : bool :=
  match x with S754_nan => true | _ => false end.

Definition is_finite (x : float) : bool :=
  match x with S754_zero _ | S754_finite _ _ _ => true | _ => false end.

(** [float(n)] for an [int]: the nearest binary64 value, ties to even.
    The value is an infinity exactly where CPython raises [OverflowError]. *)
Definition of_Z (n : Z) : float := binary_normalize prec emax n 0 false.

(** [abs(x)] *)
Definition abs (x : float) : float := SFabs x.

(** The literal [1e6]. *)
Definition f1e6 : float := S754_finite false 8589934592000000 (-33).

End PyFloat.

Import PyFloat.

(** The builtin [sum] on a list of floats.  Up to CPython 3.11 it is the
    left-to-right chain [0 + t1 + t2 + ...]. *)
Definition sum_plain (xs : list float) : float :=
  fold_left add xs zero.

(** From CPython 3.12 on, [sum] adds floats with a compensation term
    (Neumaier's variant of Kahan summation): the first element is added to
    the integer [0], the others go through the compensated loop, and the
    compensation is added at the end when it is finite and non-zero. *)
Definition neumaier_step (st : float * float) (x : float) : float * float :=
  let '(f, c) := st in
  let t := add f x in
  if leb (abs x) (abs f)
  then (t, add c (add (sub f t) x))
  else (t, add c (add (sub x t) f)).

Definition sum_compensated (xs : list float) : float :=
  match xs with
  | [] => zero
  | x :: rest =>
      let '(f, c) := fold_left neumaier_step rest (add zero x, zero) in
      if negb (eqb c zero) && is_finite c then add f c else f
  end.

(** [min(xs)] and [max(xs)]: the first element is the candidate, and a later
    element replaces it when it compares strictly below (above) it.  On an
    empty list Python raises [ValueError]; the model answers NaN there. *)
Definition py_min (xs : list float) : float :=
  match xs with
  | [] => nan
  | x :: rest => fold_left (fun cur item => if ltb item cur then item else cur) rest x
  end.

Definition py_max (xs : list float) : float :=
  match xs with
  | [] => nan
  | x :: rest => fold_left (fun cur item => if ltb cur item then item else cur) rest x
  end.

(** ** Data structures *)

Record BenchResult := mkBenchResult {
  tool : string;
  operation : string;
  threads : Z;
  iteration : Z;
  time_s : float
}.

Record BenchSummary := mkBenchSummary {
  s_tool : string;
  s_operation : string;
  s_threads : Z;
  n : Z;
  mean_s : float;
  min_s : float;
  max_s : float;
  num_points : Z;
  file_size_bytes : Z
}.

(** Python exceptions: a class and the text of [str(e)].  [BaseOnly] stands
    for the exceptions that derive from [BaseException] only
    ([KeyboardInterrupt], [SystemExit]), which [except Exception] lets
    through. *)
Inductive exn_class :=
  | AttributeError | ValueError | RuntimeError | ZeroDivisionError
  | OverflowError | CalledProcessError | OtherException | BaseOnly.

Record exn := mkExn { exn_cls : exn_class; exn_msg : string }.

Definition is_Exception (e : exn) : bool :=
  match exn_cls e with BaseOnly => false | _ => true end.

Definition is_AttributeError (e : exn) : bool :=
  match exn_cls e with AttributeError => true | _ => false end.

Inductive pyres (A : Type) :=
  | Return (a : A)
  | Raise (e : exn).
Arguments Return {A} a.
Arguments Raise {A} e.

(** [int / float] and [float / float]: the integer is converted first
    ([OverflowError] when it has no finite double), and a zero divisor
    raises [ZeroDivisionError]. *)
Definition int_to_float (z : Z) : pyres float :=
  let f := of_Z z in
  if is_finite f then Return f
  else Raise (mkExn OverflowError "int too large to convert to float").

Definition float_truediv (a b : float) : pyres float :=
  if eqb b zero then Raise (mkExn ZeroDivisionError "float division by zero")
  else Return (div a b).

Definition int_truediv_float (a : Z) (b : float) : pyres float :=
  match int_to_float a with
  | Return fa => float_truediv fa b
  | Raise e => Raise e
  end.

(** [BenchSummary.pts_per_s] *)
Definition pts_per_s (s : BenchSummary) : pyres float :=
  if ltb zero (mean_s s) then int_truediv_float (num_points s) (mean_s s)
  else Return zero.

(** [BenchSummary.mb_per_s] *)
Definition mb_per_s (s : BenchSummary) : pyres float :=
  if ltb zero (mean_s s) then
    match int_truediv_float (file_size_bytes s) f1e6 with
    | Return mb => float_truediv mb (mean_s s)
    | Raise e => Raise e
    end
  else Return zero.

(** ** Aggregation *)

Definition group_key : Type := string * string * Z.

Definition key_of (r : BenchResult) : group_key :=
  (tool r, operation r, threads r).

Definition summary_key (s : BenchSummary) : group_key :=
  (s_tool s, s_operation s, s_threads s).

(** [groups.setdefault(key, []).append(t)] on an insertion-ordered dict. *)
Fixpoint setdefault_append (key : group_key) (t : float)
    (groups : list (group_key * list float)) : list (group_key * list float) :=
  match groups with
  | [] => [(key, [t])]
  | (k, times) :: rest =>
      if decide (k = key) then (k, times ++ [t]) :: rest
      else (k, times) :: setdefault_append key t rest
  end.

Definition group_samples (raw : list BenchResult) : list (group_key * list float) :=
  fold_left (fun groups r => setdefault_append (key_of r) (time_s r) groups) raw [].

Section Aggregate.
(** The builtin [sum] at hand: [sum_plain] or [sum_compensated]. *)
Variable py_sum : list float -> float.

(** The body of the second loop of [aggregate]: one summary per group.
    [len(times)] is at least one, so the quotient has a non-zero divisor. *)
Definition summarise (num_points file_size_bytes : Z)
    (g : group_key * list float) : BenchSummary :=
  let '((tool, op, threads), times) := g in
  {| s_tool := tool;
     s_operation := op;
     s_threads := threads;
     n := Z.of_nat (length times);
     mean_s := div (py_sum times) (of_Z (Z.of_nat (length times)));
     min_s := py_min times;
     max_s := py_max times;
     num_points := num_points;
     file_size_bytes := file_size_bytes |}.

Definition aggregate (raw : list BenchResult) (num_points file_size_bytes : Z)
    : list BenchSummary :=
  map (summarise num_points file_size_bytes) (group_samples raw).
End Aggregate.

(** The times of the samples whose key is [k], in arrival order: the group
    of [k] in the words of the specification. *)
Definition times_of (k : group_key) (raw : list BenchResult) : list float :=
  map time_s (filter (fun r => key_of r = k) raw).

Definition no_nan (xs : list float) : Prop := Forall (fun t => is_nan t = false) xs.

(** [time_s > 0] for every element. *)
Definition all_positive (xs : list float) : Prop := Forall (fun t => ltb zero t = true) xs.

(** ** Text helpers: the [str] methods the harness uses *)

Definition char_in (c : ascii) (s : string) : bool :=
  existsb (fun d => bool_decide (d = c)) (list_ascii_of_string s).

(** [str.isspace] on an ASCII character. *)
Definition is_space (c : ascii) : bool :=
  let k := nat_of_ascii c in
  (Nat.eqb k 32 || (Nat.leb 9 k && Nat.leb k 13) || (Nat.leb 28 k && Nat.leb k 31))%bool.

Fixpoint lstrip (s : string) : string :=
  match s with
  | EmptyString => EmptyString
  | String c r => if is_space c then lstrip r else s
  end.

Definition string_rev (s : string) : string :=
  string_of_list_ascii (rev (list_ascii_of_string s)).

(** [s.strip()] *)
Definition py_strip (s : string) : string :=
  string_rev (lstrip (string_rev (lstrip s))).

(** [s.split(sep)] for a one-character separator. *)
Fixpoint py_split (sep : ascii) (s : string) : list string :=
  match s with
  | EmptyString => [EmptyString]
  | String c r =>
      if bool_decide (c = sep) then EmptyString :: py_split sep r
      else match py_split sep r with
           | [] => [String c EmptyString]
           | h :: t => String c h :: t
           end
  end.

(** [sep.join(parts)] *)
Fixpoint py_join (sep : string) (parts : list string) : string :=
  match parts with
  | [] => EmptyString
  | [p] => p
  | p :: rest => p ++ sep ++ py_join sep rest
  end.

Definition comma : ascii := ","%char.
Definition newline : ascii := ascii_of_nat 10.

(** Truth value of an optional command-line string ([if args.output:]). *)
Definition truthy (o : option string) : bool :=
  match o with
  | Some s => negb (bool_decide (s = EmptyString))
  | None => false
  end.

(** ** The host: interpreter builtins, codec libraries, processes, files *)

Inductive LazBackend := LazrsParallel | Lazrs | Laszip.

Global Instance LazBackend_eq_dec : EqDecision LazBackend.
Proof. solve_decision. Defined.

(** The callables the drivers time. *)
Inductive workload :=
  | LaspyRead (file : string) (backend : LazBackend)            (* _laspy_read *)
  | LaspyWrite (file tmp : string) (backend : LazBackend) (chunk_size : Z)
                                                                (* _laspy_write *)
  | LazrsRead (file : string)                                   (* _read *)
  | LazrsReadFallback (file : string)                           (* _read_fallback *)
  | PdalTranslate (file out : string).                          (* _run *)

(** What [subprocess.run] is asked to start, apart from [pdal translate],
    which is a workload: the benchmark binary with its arguments, or
    [sys.executable -c script] with the script of [benchmark_laspy_read],
    identified by the values interpolated into it. *)
Inductive command :=
  | BenchmarkBinary (argv : list string)
  | LaspyReadScript (num_threads : Z) (file : string) (warmup iterations : Z).

Record CompletedProcess := mkCompletedProcess {
  returncode : Z;
  stdout : string;
  stderr : string
}.

(** The keys of the benchmark binary's JSON document that [run_cpp_benchmark]
    copies into the metadata when they are present.  The keys [platform],
    [hardware_threads], [point_format] and [is_compressed] are copied too;
    [main] never reads them back, they only reach the rendered report. *)
Record MetaUpdate := mkMetaUpdate {
  mu_file : option string;
  mu_num_points : option Z;
  mu_file_size_bytes : option Z;
  mu_has_thread_control : option bool
}.

Record Metadata := mkMetadata {
  md_file : string;
  md_num_points : Z;
  md_file_size_bytes : Z;
  md_has_thread_control : bool
}.

Definition environment : Type := gmap string string.

Class Host := {
  World : Type;
  (* builtins *)
  host_sum : list float -> float;
  str_of_int : Z -> string;
  repr_float : float -> string;
  int_of_str : string -> option Z;          (* [int(s)]; [None]: ValueError *)
  float_of_str : string -> option float;    (* [float(s)]; [None]: ValueError *)
  (* module-level flags *)
  HAS_LASPY : bool;
  HAS_LAZRS : bool;
  HAS_PDAL : bool;
  (* one call of a workload in a process whose environment is [env]:
     the elapsed wall-clock seconds, or the exception raised *)
  call_workload : workload -> environment -> World -> World * pyres float;
  (* [subprocess.run(..., capture_output=True, text=True)] *)
  subprocess_run : command -> environment -> World -> World * pyres CompletedProcess;
  (* [json.loads(proc.stdout)] followed by the two comprehensions *)
  decode_benchmark_output : string -> pyres (MetaUpdate * list BenchResult);
  (* files *)
  path_exists : string -> World -> bool;
  is_executable : string -> World -> bool;
  which : string -> World -> option string;
  build_root : string;
  stat_size : string -> World -> Z;
  named_temporary_file : string -> World -> World * pyres string;
  laz_detect_available : World -> World * pyres (list LazBackend);
  (* reporting collaborators *)
  render_results : list BenchSummary -> Metadata -> bool -> World -> World * pyres unit;
  write_text : string -> Metadata -> list BenchSummary -> list BenchResult
               -> World -> World * pyres unit;
  render_plot : list BenchSummary -> Metadata -> option string -> World -> World * pyres unit
}.

(** ** State, events and the exception monad *)

Inductive event :=
  | EnvSet (k v : string)                      (* os.environ[k] = v *)
  | EnvPop (k : string)                        (* os.environ.pop(k, None) *)
  | Spawn (c : command) (env : environment)    (* a child process is started *)
  | Called (w : workload) (env : environment)  (* an in-process call *)
  | Print (msg : string)                       (* print(msg) *)
  | PrintErr (msg : string)                    (* print(msg, file=sys.stderr) *)
  | Unlink (path : string)                     (* path.unlink(missing_ok=True) *)
  | WriteText (path : string).                 (* out_path.write_text(...) *)

(** A computation over a state [S]: it transforms the state and either
    returns a value or raises.  The state survives a raise, as in Python. *)
Definition M (St A : Type) : Type := St -> St * pyres A.

Section Monad.
Context {St : Type}.

Definition ret {A} (a : A) : M St A := fun s => (s, Return a).

Definition raise {A} (e : exn) : M St A := fun s => (s, Raise e).

Definition bind {A B} (m : M St A) (f : A -> M St B) : M St B :=
  fun s =>
    match m s with
    | (s', Return a) => f a s'
    | (s', Raise e) => (s', Raise e)
    end.

Definition andthen {A} (m : M St unit) (k : M St A) : M St A := bind m (fun _ => k).

Definition lift {A} (r : pyres A) : M St A := fun s => (s, r).

(** [try: body except <classes> as e: handler e] *)
Definition try_except {A} (body : M St A) (catches : exn -> bool) (handler : exn -> M St A)
    : M St A :=
  fun s =>
    match body s with
    | (s', Raise e) => if catches e then handler e s' else (s', Raise e)
    | r => r
    end.

(** [try: body finally: final] *)
Definition try_finally {A} (body : M St A) (final : M St unit) : M St A :=
  fun s =>
    let '(s1, r) := body s in
    match final s1 with
    | (s2, Return _) => (s2, r)
    | (s2, Raise e) => (s2, Raise e)
    end.

(** [for _ in range(k): fn()] *)
Fixpoint repeat_call {A} (k : nat) (fn : M St A) : M St unit :=
  match k with
  | O => ret tt
  | S k' => bind fn (fun _ => repeat_call k' fn)
  end.

(** [for x in xs: body x] *)
Fixpoint for_each {A} (xs : list A) (body : A -> M St unit) : M St unit :=
  match xs with
  | [] => ret tt
  | x :: rest => andthen (body x) (for_each rest body)
  end.

(** [m] returns normally from every state, with a value that satisfies [Q]. *)
Definition returns {A} (Q : A -> Prop) (m : M St A) : Prop :=
  forall s, exists s' a, m s = (s', Return a) /\ Q a.

(** Every run of [m] relates the initial and the final state by [R]. *)
Definition preserves {A} (R : St -> St -> Prop) (m : M St A) : Prop :=
  forall s s' r, m s = (s', r) -> R s s'.

(** [m] never ends with an exception that [except Exception] catches. *)
Definition contained {A} (m : M St A) : Prop :=
  forall s s' e, m s = (s', Raise e) -> is_Exception e = false.

End Monad.

Section Harness.
Context `{H : Host}.

Record state := mkState {
  world : World;
  environ : environment;       (* os.environ of the harness process *)
  trace : list event           (* oldest event first *)
}.

Definition emit (ev : event) : M state unit :=
  fun s => (mkState (world s) (environ s) (trace s ++ [ev]), Return tt).

Definition host_op {A} (op : World -> World * pyres A) : M state A :=
  fun s => let '(w, r) := op (world s) in (mkState w (environ s) (trace s), r).

Definition host_query {A} (q : World -> A) : M state A :=
  fun s => (s, Return (q (world s))).

(** [os.environ.get(k)], [os.environ[k] = v], [os.environ.pop(k, None)],
    [os.environ.copy()] *)
Definition environ_get (k : string) : M state (option string) :=
  fun s => (s, Return (environ s !! k)).

Definition environ_set (k v : string) : M state unit :=
  fun s => (mkState (world s) (<[k:=v]> (environ s)) (trace s ++ [EnvSet k v]), Return tt).

Definition environ_pop (k : string) : M state unit :=
  fun s => (mkState (world s) (delete k (environ s)) (trace s ++ [EnvPop k]), Return tt).

Definition environ_copy : M state environment :=
  fun s => (s, Return (environ s)).

(** A call of a workload in the harness process, with the environment the
    process has at that moment. *)
Definition call (w : workload) : M state float :=
  fun s =>
    let '(w', r) := call_workload w (environ s) (world s) in
    (mkState w' (environ s) (trace s ++ [Called w (environ s)]), r).

(** [timed(fn)]: the elapsed seconds of one call; a raise of [fn] passes
    through. *)
Definition timed (w : workload) : M state float := call w.

(** [subprocess.run(cmd, env=env, capture_output=True, text=True)] *)
Definition run_process (c : command) (env : environment) : M state CompletedProcess :=
  fun s =>
    let '(w', r) := subprocess_run c env (world s) in
    (mkState w' (environ s) (trace s ++ [Spawn c env]), r).

(** [for it in range(first, first + k): t = timed(fn); results.append(mk it t)],
    followed by [return results]. *)
Fixpoint timed_iterations (k : nat) (it : Z) (fn : M state float)
    (mk : Z -> float -> BenchResult) (results : list BenchResult) : M state (list BenchResult) :=
  match k with
  | O => ret results
  | S k' => bind fn (fun t => timed_iterations k' (it + 1) fn mk (results ++ [mk it t]))
  end.

(** The number of turns of [range(n)]. *)
Definition range_len (n : Z) : nat := Z.to_nat n.

Definition RAYON_NUM_THREADS : string := "RAYON_NUM_THREADS".

(** [num_threads or 0] *)
Definition or_zero (num_threads : option Z) : Z :=
  match num_threads with Some k => k | None => 0 end.

(** The [finally] clause of the laspy drivers: put [RAYON_NUM_THREADS] back. *)
Definition restore_rayon (old_rayon_threads : option string) : M state unit :=
  match old_rayon_threads with
  | None => environ_pop RAYON_NUM_THREADS
  | Some v => environ_set RAYON_NUM_THREADS v
  end.

(** *** laspy drivers *)

(** The loop of [benchmark_laspy_read] over the lines of the child's output. *)
Fixpoint parse_lines (backend_name : string) (num_threads : Z) (lines : list string)
    (results : list BenchResult) : pyres (list BenchResult) :=
  match lines with
  | [] => Return results
  | line :: rest =>
      if char_in comma line then
        match py_split comma line with
        | [it_str; time_str] =>
            match int_of_str it_str with
            | None => Raise (mkExn ValueError "invalid literal for int()")
            | Some it =>
                match float_of_str time_str with
                | None => Raise (mkExn ValueError "could not convert string to float")
                | Some t =>
                    parse_lines backend_name num_threads rest
                      (results ++ [mkBenchResult backend_name "read" num_threads it t])
                end
            end
        | _ => Raise (mkExn ValueError "too many values to unpack (expected 2)")
        end
      else parse_lines backend_name num_threads rest results
  end.

Definition parse_child_output (backend_name : string) (num_threads : Z) (out : string)
    : pyres (list BenchResult) :=
  parse_lines backend_name num_threads (py_split newline (py_strip out)) [].

(** The subprocess branch: the variable goes into a copy of the
    environment that is handed to the child. *)
Definition laspy_read_subprocess (file backend_name : string) (warmup iterations : Z)
    (num_threads : Z) : M state (list BenchResult) :=
  bind environ_copy (fun env =>
  let env := <[RAYON_NUM_THREADS := str_of_int num_threads]> env in
  bind (run_process (LaspyReadScript num_threads file warmup iterations) env) (fun proc =>
  if negb (returncode proc =? 0)
  then raise (mkExn RuntimeError ("laspy subprocess failed: " ++ stderr proc))
  else lift (parse_child_output backend_name num_threads (stdout proc)))).

(** The in-process branch. *)
Definition laspy_read_in_process (file : string) (backend : LazBackend)
    (backend_name : string) (warmup iterations : Z) (num_threads : option Z)
    : M state (list BenchResult) :=
  bind (environ_get RAYON_NUM_THREADS) (fun old_rayon_threads =>
  try_finally
    (andthen
       (match num_threads with
        | Some k =>
            if bool_decide (backend = LazrsParallel)
            then environ_set RAYON_NUM_THREADS (str_of_int k)
            else ret tt
        | None => ret tt
        end)
    (andthen
       (repeat_call (range_len warmup) (call (LaspyRead file backend)))
       (timed_iterations (range_len iterations) 0 (timed (LaspyRead file backend))
          (fun it t => mkBenchResult backend_name "read" (or_zero num_threads) it t) [])))
    (restore_rayon old_rayon_threads)).

Definition benchmark_laspy_read (file : string) (backend : LazBackend)
    (backend_name : string) (warmup iterations : Z) (num_threads : option Z)
    : M state (list BenchResult) :=
  match num_threads with
  | Some k =>
      if bool_decide (backend = LazrsParallel)
      then laspy_read_subprocess file backend_name warmup iterations k
      else laspy_read_in_process file backend backend_name warmup iterations num_threads
  | None => laspy_read_in_process file backend backend_name warmup iterations num_threads
  end.

Definition benchmark_laspy_write (file : string) (backend : LazBackend)
    (backend_name : string) (warmup iterations chunk_size : Z) (num_threads : option Z)
    : M state (list BenchResult) :=
  (* Pre-read once (not timed) *)
  bind (call (LaspyRead file backend)) (fun _ =>
  bind (host_op (named_temporary_file ".laz")) (fun tmp_path =>
  bind (environ_get RAYON_NUM_THREADS) (fun old_rayon_threads =>
  try_finally
    (andthen
       (match num_threads with
        | Some k => environ_set RAYON_NUM_THREADS (str_of_int k)
        | None => ret tt
        end)
    (andthen
       (repeat_call (range_len warmup) (call (LaspyWrite file tmp_path backend chunk_size)))
       (timed_iterations (range_len iterations) 0
          (timed (LaspyWrite file tmp_path backend chunk_size))
          (fun it t => mkBenchResult backend_name "write" (or_zero num_threads) it t) [])))
    (andthen (restore_rayon old_rayon_threads) (emit (Unlink tmp_path)))))).

(** *** lazrs driver *)

Definition benchmark_lazrs_read (file : string) (warmup iterations : Z)
    : M state (list BenchResult) :=
  if negb HAS_LAZRS then ret []
  else
    let loops (read_fn : workload) : M state (list BenchResult) :=
      andthen
        (repeat_call (range_len warmup) (call read_fn))
        (timed_iterations (range_len iterations) 0 (timed read_fn)
           (fun it t => mkBenchResult "lazrs" "read" 0 it t) []) in
    (* the probing call selects [read_fn]; [None] stands for [return []] *)
    bind
      (try_except
         (bind (call (LazrsRead file)) (fun _ => ret (Some (LazrsRead file))))
         is_Exception
         (fun e =>
            if is_AttributeError e then
              try_except
                (bind (call (LazrsReadFallback file))
                      (fun _ => ret (Some (LazrsReadFallback file))))
                is_Exception
                (fun _ => ret None)
            else ret None))
      (fun probed =>
         match probed with
         | None => ret []
         | Some read_fn => loops read_fn
         end).

(** *** PDAL drivers *)

Definition benchmark_pdal (op : string) (suffix : string) (file : string)
    (warmup iterations : Z) : M state (list BenchResult) :=
  if negb HAS_PDAL then ret []
  else
    bind (host_op (named_temporary_file suffix)) (fun out_path =>
    try_finally
      (andthen
         (repeat_call (range_len warmup) (call (PdalTranslate file out_path)))
         (timed_iterations (range_len iterations) 0 (timed (PdalTranslate file out_path))
            (fun it t => mkBenchResult "pdal" op 0 it t) []))
      (emit (Unlink out_path))).

Definition benchmark_pdal_read (file : string) (warmup iterations : Z)
    : M state (list BenchResult) :=
  benchmark_pdal "read" ".las" file warmup iterations.

Definition benchmark_pdal_write (file : string) (warmup iterations : Z)
    : M state (list BenchResult) :=
  benchmark_pdal "write" ".laz" file warmup iterations.

(** *** The script run by the child of [benchmark_laspy_read]

    The child sets the variable in its own environment before it imports
    laspy, makes the warmup calls, then the timed calls, printing one line
    [it,elapsed] after each.  An exception that nothing catches ends the
    child with a traceback on its standard error and a non-zero status.
    This is what the script does when the path, the thread count and the two
    counts stand in its text as the values they are; see [pastes_verbatim]
    for the path. *)

Definition nl : string := String newline EmptyString.

Definition traceback (e : exn) : string :=
  "Traceback (most recent call last): " ++ exn_msg e.

Fixpoint script_warmup (k : nat) (w : workload) (env : environment) (wd : World)
    : World * option exn :=
  match k with
  | O => (wd, None)
  | S k' =>
      match call_workload w env wd with
      | (wd', Return _) => script_warmup k' w env wd'
      | (wd', Raise e) => (wd', Some e)
      end
  end.

Fixpoint script_timed (k : nat) (it : Z) (w : workload) (env : environment)
    (out : string) (wd : World) : World * string * option exn :=
  match k with
  | O => (wd, out, None)
  | S k' =>
      match call_workload w env wd with
      | (wd', Return elapsed) =>
          script_timed k' (it + 1) w env
            (out ++ str_of_int it ++ "," ++ repr_float elapsed ++ nl) wd'
      | (wd', Raise e) => (wd', out, Some e)
      end
  end.

Definition laspy_read_script (num_threads : Z) (file : string) (warmup iterations : Z)
    (env : environment) (wd : World) : World * CompletedProcess :=
  let env := <[RAYON_NUM_THREADS := str_of_int num_threads]> env in
  let w := LaspyRead file LazrsParallel in
  match script_warmup (range_len warmup) w env wd with
  | (wd1, Some e) => (wd1, mkCompletedProcess 1 "" (traceback e))
  | (wd1, None) =>
      match script_timed (range_len iterations) 0 w env "" wd1 with
      | (wd2, out, None) => (wd2, mkCompletedProcess 0 out "")
      | (wd2, out, Some e) => (wd2, mkCompletedProcess 1 out (traceback e))
      end
  end.

(** The driver pastes the path into the text of the script as the literal
    [r'{file}'].  The literal denotes the path when the path has no
    apostrophe, no line break and no NUL character and does not end with a
    backslash; another path closes the literal early or leaves it open, and
    the script is not the one above. *)
Definition pastes_verbatim (file : string) : bool :=
  forallb (fun c => negb (bool_decide (c = ascii_of_nat 39)      (* apostrophe *)
                          || bool_decide (c = ascii_of_nat 10)   (* line feed *)
                          || bool_decide (c = ascii_of_nat 13)   (* carriage return *)
                          || bool_decide (c = ascii_of_nat 0)))  (* NUL *)
    (list_ascii_of_string file)
  && negb (bool_decide (last (list_ascii_of_string file) = Some (ascii_of_nat 92))).

(** The host starts the interpreter on that script, for a path that is
    pasted verbatim. *)
Definition child_runs_script : Prop :=
  forall num_threads file warmup iterations env wd,
    pastes_verbatim file = true ->
    subprocess_run (LaspyReadScript num_threads file warmup iterations) env wd
    = let '(wd', proc) := laspy_read_script num_threads file warmup iterations env wd in
      (wd', Return proc).

(** *** The benchmark binary *)

Definition run_cpp_benchmark (binary file : string) (thread_counts : list Z)
    (iterations warmup : Z) (operation : string) (chunk_size : option Z)
    (include_laszip include_lazperf : bool) : M state (MetaUpdate * list BenchResult) :=
  let cmd :=
    [binary; "--file"; file;
     "--threads"; py_join "," (map str_of_int thread_counts);
     "--iterations"; str_of_int iterations;
     "--warmup"; str_of_int warmup;
     "--operation"; operation]
    ++ match chunk_size with Some c => ["--chunk-size"; str_of_int c] | None => [] end
    ++ (if include_laszip then [] else ["--no-laszip"])
    ++ (if include_lazperf then [] else ["--no-lazperf"]) in
  bind environ_copy (fun env =>
  bind (run_process (BenchmarkBinary cmd) env) (fun proc =>
  if negb (returncode proc =? 0)
  then raise (mkExn RuntimeError
                ("benchmark binary failed (exit " ++ str_of_int (returncode proc) ++ "):"
                 ++ nl ++ stderr proc))
  else lift (decode_benchmark_output (stdout proc)))).

(** *** Tool discovery *)

Definition path_join (a b : string) : string := a ++ "/" ++ b.

Definition find_benchmark_binary (hint : option string) : M state (option string) :=
  let from_hint := match hint with
                   | Some h => if truthy hint then [h] else []
                   | None => []
                   end in
  let in_build (build_dir : string) : list string :=
    let d := path_join build_root build_dir in
    [path_join (path_join d "apps") "benchmark";
     path_join (path_join d "apps") "benchmark.exe";
     path_join d "benchmark";
     path_join d "benchmark.exe"] in
  host_query (fun wd =>
    let candidates :=
      from_hint
      ++ concat (map in_build ["build"; "linux-build"; "build_release"; "cmake-build-release"])
      ++ match which "benchmark" wd with Some p => [p] | None => [] end in
    List.find (fun p => path_exists p wd && is_executable p wd) candidates).

Definition detect_laspy_backends : M state (list (string * bool)) :=
  if negb HAS_LASPY then ret []
  else
    let probe (backend : LazBackend) : M state bool :=
      try_except
        (bind (host_op laz_detect_available) (fun avail => ret (bool_decide (backend ∈ avail))))
        is_Exception
        (fun _ => ret false) in
    bind (probe LazrsParallel) (fun b1 =>
    bind (probe Lazrs) (fun b2 =>
    bind (probe Laszip) (fun b3 =>
    ret [("laspy_lazrs_parallel", b1); ("laspy_lazrs", b2); ("laspy_laszip", b3)]))).

(** [backends.get(key, False)] *)
Fixpoint backends_get (backends : list (string * bool)) (key : string) : bool :=
  match backends with
  | [] => false
  | (k, v) :: rest => if bool_decide (k = key) then v else backends_get rest key
  end.

(** *** main *)

Record Args := mkArgs {
  a_file : string;
  a_threads : string;
  a_iterations : Z;
  a_warmup : Z;
  a_operation : string;
  a_chunk_size : Z;
  a_benchmark_binary : option string;
  a_tools : string;
  a_plot : bool;
  a_plot_output : option string;
  a_output : option string
}.

(** The harness state together with the two objects [main] mutates in
    place: the list [all_results] and the dict [metadata]. *)
Record main_state := mkMainState {
  harness : state;
  all_results : list BenchResult;
  metadata : Metadata
}.

Definition run {A} (m : M state A) : M main_state A :=
  fun ms =>
    let '(s', r) := m (harness ms) in
    (mkMainState s' (all_results ms) (metadata ms), r).

(** [all_results.extend(res)] *)
Definition extend (res : list BenchResult) : M main_state unit :=
  fun ms => (mkMainState (harness ms) (all_results ms ++ res) (metadata ms), Return tt).

Definition get_results : M main_state (list BenchResult) :=
  fun ms => (ms, Return (all_results ms)).

Definition get_metadata : M main_state Metadata :=
  fun ms => (ms, Return (metadata ms)).

Definition set_locals (results : list BenchResult) (md : Metadata) : M main_state unit :=
  fun ms => (mkMainState (harness ms) results md, Return tt).

(** [metadata.update(meta)] *)
Definition metadata_update (meta : MetaUpdate) : M main_state unit :=
  fun ms =>
    let md := metadata ms in
    (mkMainState (harness ms) (all_results ms)
       {| md_file := default (md_file md) (mu_file meta);
          md_num_points := default (md_num_points md) (mu_num_points meta);
          md_file_size_bytes := default (md_file_size_bytes md) (mu_file_size_bytes meta);
          md_has_thread_control :=
            default (md_has_thread_control md) (mu_has_thread_control meta) |},
     Return tt).

Definition when (b : bool) (m : M main_state unit) : M main_state unit :=
  if b then m else ret tt.

(** [print(f"WARNING: {label} benchmark failed: {e}", file=sys.stderr)] *)
Definition warn_failed (label : string) (e : exn) : M main_state unit :=
  run (emit (PrintErr ("WARNING: " ++ label ++ " benchmark failed: " ++ exn_msg e))).

(** [[int(t) for t in args.threads.split(",")]] *)
Fixpoint parse_ints (parts : list string) : pyres (list Z) :=
  match parts with
  | [] => Return []
  | p :: rest =>
      match int_of_str p with
      | None => Raise (mkExn ValueError "invalid literal for int()")
      | Some k =>
          match parse_ints rest with
          | Return ks => Return (k :: ks)
          | Raise e => Raise e
          end
      end
  end.

Definition cpp_section (args : Args) (tools : list string) (thread_counts : list Z)
    (do_write : bool) : M main_state unit :=
  let needs_cpp := bool_decide ("laspp" ∈ tools) || bool_decide ("laszip" ∈ tools) in
  when needs_cpp
    (bind (run (find_benchmark_binary (a_benchmark_binary args))) (fun binary =>
     match binary with
     | None =>
         run (emit (PrintErr ("WARNING: C++ benchmark binary not found. "
                              ++ "Skipping laspp and laszip." ++ nl
                              ++ "Build the project first, or pass --benchmark-binary <path>.")))
     | Some binary =>
         andthen (run (emit (Print ("Using C++ benchmark binary: " ++ binary))))
         (let include_laszip := bool_decide ("laszip" ∈ tools) in
          let include_laspp_threads :=
            if bool_decide ("laspp" ∈ tools) then thread_counts else [1] in
          try_except
            (bind (run (run_cpp_benchmark binary (a_file args) include_laspp_threads
                          (a_iterations args) (a_warmup args) (a_operation args)
                          (if do_write then Some (a_chunk_size args) else None)
                          include_laszip true))
               (fun '(meta, cpp_results) =>
                  andthen (metadata_update meta) (extend cpp_results)))
            is_Exception
            (fun e => warn_failed "C++" e))
     end)).

(** The body of the [for n_threads in laspy_thread_counts] loop. *)
Definition laspy_cell (args : Args) (backend_enum : LazBackend) (label : string)
    (do_read do_write : bool) (n_threads : Z) : M main_state unit :=
  andthen
    (when do_read
       (bind (run (benchmark_laspy_read (a_file args) backend_enum label
                     (a_warmup args) (a_iterations args) (Some n_threads)))
             extend))
    (when do_write
       (bind (run (benchmark_laspy_write (a_file args) backend_enum label
                     (a_warmup args) (a_iterations args) (a_chunk_size args)
                     (Some n_threads)))
             extend)).

(** One turn of the loop over the two laspy backends. *)
Definition laspy_backend (args : Args) (laspy_backends : list (string * bool))
    (thread_counts : list Z) (do_read do_write : bool)
    (b : string * LazBackend * string) : M main_state unit :=
  let '(backend_key, backend_enum, label) := b in
  if negb (backends_get laspy_backends backend_key) then ret tt
  else
    andthen (run (emit (Print ("Benchmarking " ++ label ++ "..."))))
    (try_except
       (let laspy_thread_counts :=
          if bool_decide (backend_key = "laspy_lazrs_parallel") then thread_counts else [1] in
        for_each laspy_thread_counts (laspy_cell args backend_enum label do_read do_write))
       is_Exception
       (fun e => warn_failed label e)).

Definition laspy_section (args : Args) (tools : list string) (thread_counts : list Z)
    (do_read do_write : bool) : M main_state unit :=
  bind (if HAS_LASPY then run detect_laspy_backends else ret []) (fun laspy_backends =>
  if bool_decide ("laspy" ∈ tools) && HAS_LASPY then
    for_each
      [("laspy_lazrs_parallel", LazrsParallel, "laspy (lazrs-parallel)");
       ("laspy_laszip", Laszip, "laspy (laszip)")]
      (laspy_backend args laspy_backends thread_counts do_read do_write)
  else if bool_decide ("laspy" ∈ tools) then
    run (emit (Print "laspy not installed – skipping laspy benchmarks."))
  else ret tt).

Definition lazrs_section (args : Args) (tools : list string) (do_read : bool)
    : M main_state unit :=
  if bool_decide ("lazrs" ∈ tools) && HAS_LAZRS then
    andthen (run (emit (Print "Benchmarking lazrs (direct)...")))
    (try_except
       (when do_read
          (bind (run (benchmark_lazrs_read (a_file args) (a_warmup args) (a_iterations args)))
                extend))
       is_Exception
       (fun e => warn_failed "lazrs" e))
  else if bool_decide ("lazrs" ∈ tools) && negb HAS_LASPY then
    run (emit (Print "lazrs not installed – skipping lazrs benchmarks."))
  else ret tt.

Definition pdal_section (args : Args) (tools : list string) (do_read do_write : bool)
    : M main_state unit :=
  if bool_decide ("pdal" ∈ tools) && HAS_PDAL then
    andthen (run (emit (Print "Benchmarking pdal...")))
    (try_except
       (andthen
          (when do_read
             (bind (run (benchmark_pdal_read (a_file args) (a_warmup args) (a_iterations args)))
                   extend))
          (when do_write
             (bind (run (benchmark_pdal_write (a_file args) (a_warmup args) (a_iterations args)))
                   extend)))
       is_Exception
       (fun e => warn_failed "PDAL" e))
  else if bool_decide ("pdal" ∈ tools) then
    run (emit (Print "pdal not found on PATH – skipping PDAL benchmarks."))
  else ret tt.

(** The throughput columns of the JSON payload: [s.pts_per_s] and
    [s.mb_per_s] of every summary, in order. *)
Fixpoint payload_throughputs (summaries : list BenchSummary) : pyres (list (float * float)) :=
  match summaries with
  | [] => Return []
  | s :: rest =>
      match pts_per_s s with
      | Raise e => Raise e
      | Return p =>
          match mb_per_s s with
          | Raise e => Raise e
          | Return m =>
              match payload_throughputs rest with
              | Raise e => Raise e
              | Return l => Return ((p, m) :: l)
              end
          end
      end
  end.

(** What follows the test [if not all_results] when samples were collected. *)
Definition report_tail (args : Args) (results : list BenchResult) : M main_state Z :=
  bind get_metadata (fun md =>
  let summaries := aggregate host_sum results (md_num_points md) (md_file_size_bytes md) in
  andthen (run (host_op (render_results summaries md (md_has_thread_control md))))
  (andthen
     (match a_output args with
      | Some out_path =>
          when (truthy (a_output args))
            (bind (lift (payload_throughputs summaries)) (fun _ =>
             andthen (run (emit (WriteText out_path)))
             (andthen (run (host_op (write_text out_path md summaries results)))
                      (run (emit (Print ("Results saved to: " ++ out_path)))))))
      | None => ret tt
      end)
  (andthen
     (when (a_plot args || truthy (a_plot_output args))
        (run (host_op (render_plot summaries md
                         (if truthy (a_plot_output args) then a_plot_output args
                          else None)))))
     (ret 0)))).

(** Everything in [main] below the comment "Aggregate & display". *)
Definition report_section (args : Args) : M main_state Z :=
  bind get_results (fun results =>
  match results with
  | [] => andthen (run (emit (PrintErr "No benchmark results collected."))) (ret 1)
  | _ :: _ => report_tail args results
  end).

(** The four measuring blocks of [main], in order. *)
Definition measure_all (args : Args) (tools : list string) (thread_counts : list Z)
    (do_read do_write : bool) : M main_state unit :=
  andthen (cpp_section args tools thread_counts do_write)
 (andthen (laspy_section args tools thread_counts do_read do_write)
 (andthen (lazrs_section args tools do_read)
          (pdal_section args tools do_read do_write))).

Definition main (args : Args) : M main_state Z :=
  let file := a_file args in
  bind (run (host_query (path_exists file))) (fun found =>
  if negb found then
    andthen (run (emit (PrintErr ("Error: file not found: " ++ file)))) (ret 1)
  else
    let tools := map py_strip (py_split comma (a_tools args)) in
    bind (lift (parse_ints (py_split comma (a_threads args)))) (fun thread_counts =>
    let do_read := bool_decide (a_operation args = "read")
                   || bool_decide (a_operation args = "both") in
    let do_write := bool_decide (a_operation args = "write")
                    || bool_decide (a_operation args = "both") in
    bind (run (host_query (stat_size file))) (fun size =>
    andthen (set_locals []
               {| md_file := file; md_num_points := 0; md_file_size_bytes := size;
                  md_has_thread_control := false |})
    (andthen (measure_all args tools thread_counts do_read do_write)
             (report_section args))))).

End Harness.

Arguments state {H}.
Arguments main_state {H}.

(** ** Vocabulary of the statements *)

(** A non-empty text without white space or comma. *)
Definition token (s : string) : Prop :=
  s <> EmptyString /\ Forall (fun c => is_space c = false /\ c <> comma) (list_ascii_of_string s).

(** The paths handed to [write_text], oldest first. *)
Definition writes (tr : list event) : list string :=
  omap (fun ev => match ev with WriteText p => Some p | _ => None end) tr.

Section Vocabulary.
Context `{H : Host}.

Definition never_fails (w : workload) : Prop :=
  forall env wd, exists wd' t, call_workload w env wd = (wd', Return t).

Definition temp_files_available : Prop :=
  forall suffix wd, exists wd' p, named_temporary_file suffix wd = (wd', Return p).

(** [tempfile.NamedTemporaryFile(suffix=suffix)] always gives a file. *)
Definition temp_file_available (suffix : string) : Prop :=
  forall wd, exists wd' p, named_temporary_file suffix wd = (wd', Return p).

(** What the drivers promise for [iterations] timed calls: that many samples,
    numbered 0, 1, ... in this order, all of one configuration. *)
Definition complete_run (tl op : string) (thr iterations : Z) (rs : list BenchResult) : Prop :=
  length rs = Z.to_nat iterations
  /\ map iteration rs = seqZ 0 iterations
  /\ Forall (fun r => tool r = tl /\ operation r = op /\ threads r = thr) rs.

(** What one line of the child's output stands for: nothing when it has no
    comma, a sample when it is [int,float], an error otherwise. *)
Inductive line_reading :=
  | Skipped
  | Sample (it : Z) (t : float)
  | Malformed.

Definition read_line (line : string) : line_reading :=
  if char_in comma line then
    match py_split comma line with
    | [it_str; time_str] =>
        match int_of_str it_str, float_of_str time_str with
        | Some it, Some t => Sample it t
        | _, _ => Malformed
        end
    | _ => Malformed
    end
  else Skipped.

Definition samples_of_lines (backend_name : string) (num_threads : Z) (lines : list string)
    : list BenchResult :=
  omap (fun line => match read_line line with
                    | Sample it t => Some (mkBenchResult backend_name "read" num_threads it t)
                    | _ => None
                    end) lines.

(** The state after the call of [subprocess.run]. *)
Definition after_spawn (s : state) (c : command) (env : environment) (wd : World) : state :=
  mkState wd (environ s) (trace s ++ [Spawn c env]).

Definition child_environ (s : state) (num_threads : Z) : environment :=
  <[RAYON_NUM_THREADS := str_of_int num_threads]> (environ s).

(** [m], started in [s], ends with the exception [e]. *)
Definition fails_with {A} (m : M state A) (s : state) (e : exn) : Prop :=
  exists s', m s = (s', Raise e).

(** The warmup loop over [w], started in [s], ends with the exception [e]:
    one of the warmup invocations failed. *)
Definition warmup_fails (w : workload) (warmup : Z) (s : state) (e : exn) : Prop :=
  fails_with (repeat_call (range_len warmup) (call w)) s e.

(** The state in which [benchmark_laspy_write] starts its warmup loop. *)
Definition with_rayon (nt : option Z) (s : state) : state :=
  match nt with
  | Some k => fst (environ_set RAYON_NUM_THREADS (str_of_int k) s)
  | None => s
  end.

Definition same_environ (s s' : state) : Prop := environ s' = environ s.
Definition same_writes (s s' : state) : Prop := writes (trace s') = writes (trace s).

(** On the state of [main]: no file written, and samples only added. *)
Definition main_same_writes (ms ms' : main_state) : Prop :=
  same_writes (harness ms) (harness ms').
Definition keeps_results (ms ms' : main_state) : Prop :=
  exists more, all_results ms' = all_results ms ++ more.

(** [ms] with one more event in its trace. *)
Definition logged (ms : main_state) (ev : event) : main_state :=
  mkMainState (mkState (world (harness ms)) (environ (harness ms)) (trace (harness ms) ++ [ev]))
    (all_results ms) (metadata ms).

Definition same_results (ms ms' : main_state) : Prop := all_results ms' = all_results ms.

(** Every call of [w] returns, with an elapsed time in [T]. *)
Definition returns_within (T : float -> Prop) (w : workload) : Prop :=
  forall env wd, exists wd' t, call_workload w env wd = (wd', Return t) /\ T t.

(** What the driver needs from [str], [repr], [int] and [float]: the text of
    an iteration index and of an elapsed time is a token that reads back as
    the same number. *)
Definition round_trips (T : float -> Prop) (iterations : Z) : Prop :=
  (forall i, 0 <= i < iterations ->
     token (str_of_int i) /\ int_of_str (str_of_int i) = Some i)
  /\ (forall t, T t -> token (repr_float t) /\ float_of_str (repr_float t) = Some t).

(** The line the child prints for one timed call, and all its output. *)
Definition printed_line (p : Z * float) : string :=
  str_of_int (fst p) ++ "," ++ repr_float (snd p).

Fixpoint printed (ps : list (Z * float)) : string :=
  match ps with
  | [] => EmptyString
  | p :: rest => printed_line p ++ nl ++ printed rest
  end.

(** The output without its last newline. *)
Fixpoint joined (p : Z * float) (rest : list (Z * float)) : string :=
  match rest with
  | [] => printed_line p
  | q :: rest' => printed_line p ++ nl ++ joined q rest'
  end.

Definition readable (p : Z * float) : Prop :=
  token (str_of_int (fst p)) /\ token (repr_float (snd p))
  /\ int_of_str (str_of_int (fst p)) = Some (fst p)
  /\ float_of_str (repr_float (snd p)) = Some (snd p).

(** Events are only added to the trace. *)
Definition trace_extends (s s' : state) : Prop :=
  exists evs, trace s' = trace s ++ evs.

End Vocabulary.

(** Sample floats used in the examples below. *)
Definition f0_1 : float := S754_finite false 7205759403792794 (-56).   (* 0.1 *)
Definition f0_1_next : float := S754_finite false 7205759403792795 (-56). (* 0.10000000000000002 *)
Definition f1 : float := S754_finite false 4503599627370496 (-52).     (* 1.0 *)
Definition f2_53 : float := S754_finite false 4503599627370496 1.      (* 2.0**53 *)
Definition f2_m53 : float := S754_finite false 4503599627370496 (-105). (* 2.0**-53 *)

(** Three samples of 0.1 s of one configuration. *)
Definition three_tenths : list BenchResult :=
  [mkBenchResult "laspp" "read" 1 0 f0_1;
   mkBenchResult "laspp" "read" 1 1 f0_1;
   mkBenchResult "laspp" "read" 1 2 f0_1].

(** Four samples of one configuration, 2**53 s, 1 s and twice 2**-53 s, and
    the same samples in the opposite order. *)
Definition spread : list BenchResult :=
  [mkBenchResult "laspp" "read" 1 0 f2_53;
   mkBenchResult "laspp" "read" 1 1 f1;
   mkBenchResult "laspp" "read" 1 2 f2_m53;
   mkBenchResult "laspp" "read" 1 3 f2_m53].

Definition spread_reversed : list BenchResult :=
  [mkBenchResult "laspp" "read" 1 3 f2_m53;
   mkBenchResult "laspp" "read" 1 2 f2_m53;
   mkBenchResult "laspp" "read" 1 1 f1;
   mkBenchResult "laspp" "read" 1 0 f2_53].

(** ** A host for the examples

    Its world is the number of host calls made so far; what a workload or a
    child process does is given by functions of that number.  Numbers are
    printed and read in a small decimal syntax. *)

Definition digit_of (c : ascii) : option Z :=
  let k := nat_of_ascii c in
  if (Nat.leb 48 k && Nat.leb k 57)%bool then Some (Z.of_nat (k - 48)) else None.

Fixpoint parse_digits (s : string) (acc : Z) : option Z :=
  match s with
  | EmptyString => Some acc
  | String c r =>
      match digit_of c with
      | Some d => parse_digits r (10 * acc + d)
      | None => None
      end
  end.

Definition parse_decimal (s : string) : option Z :=
  match s with
  | EmptyString => None
  | String c r =>
      if bool_decide (c = "-"%char)
      then match r with
           | EmptyString => None
           | _ => option_map Z.opp (parse_digits r 0)
           end
      else parse_digits s 0
  end.

Fixpoint print_digits (fuel : nat) (k : Z) (acc : string) : string :=
  match fuel with
  | O => acc
  | S fuel' =>
      let acc' := String (ascii_of_nat (48 + Z.to_nat (k mod 10))) acc in
      if k <? 10 then acc' else print_digits fuel' (k / 10) acc'
  end.

Definition print_decimal (k : Z) : string :=
  if k <? 0 then "-" ++ print_digits (Z.to_nat (Z.log2 (- k)) + 1) (- k) ""
  else print_digits (Z.to_nat (Z.log2 k) + 1) k "".

(** Floats are written [mantissa@exponent], with names for the others. *)
Definition print_float (x : float) : string :=
  match x with
  | S754_zero s => if s then "-0.0" else "0.0"
  | S754_infinity s => if s then "-inf" else "inf"
  | S754_nan => "nan"
  | S754_finite s m e =>
      (if s then "-" else "") ++ print_decimal (Zpos m) ++ "@" ++ print_decimal e
  end.

Definition parse_float (s : string) : option float :=
  if bool_decide (s = "0.0") then Some (S754_zero false)
  else if bool_decide (s = "-0.0") then Some (S754_zero true)
  else if bool_decide (s = "inf") then Some (S754_infinity false)
  else if bool_decide (s = "-inf") then Some (S754_infinity true)
  else if bool_decide (s = "nan") then Some S754_nan
  else
    match py_split "@"%char s with
    | [m; e] =>
        match parse_decimal m, parse_decimal e with
        | Some (Zpos p), Some e' => Some (S754_finite false p e')
        | Some (Zneg p), Some e' => Some (S754_finite true p e')
        | _, _ => None
        end
    | _ => None
    end.

Record example_setup := mkSetup {
  ex_calls : workload -> environment -> nat -> pyres float;
  ex_children : option (command -> environment -> nat -> CompletedProcess);
      (* [None]: the child runs the script of [benchmark_laspy_read] *)
  ex_sum : list float -> float;
  ex_laspy : bool;
  ex_lazrs : bool;
  ex_pdal : bool;
  ex_files : list string;
  ex_binary : option string
}.

Definition example_host_with
    (children : command -> environment -> nat -> nat * pyres CompletedProcess)
    (c : example_setup) : Host :=
  {| World := nat;
     host_sum := ex_sum c;
     str_of_int := print_decimal;
     repr_float := print_float;
     int_of_str := parse_decimal;
     float_of_str := parse_float;
     HAS_LASPY := ex_laspy c;
     HAS_LAZRS := ex_lazrs c;
     HAS_PDAL := ex_pdal c;
     call_workload := fun w env k => (S k, ex_calls c w env k);
     subprocess_run := children;
     decode_benchmark_output := fun _ => Raise (mkExn ValueError "Expecting value");
     path_exists := fun p _ => bool_decide (p ∈ ex_files c);
     is_executable := fun p _ => bool_decide (p ∈ ex_files c);
     which := fun _ _ => ex_binary c;
     build_root := "/src/laspp";
     stat_size := fun _ _ => 1024;
     named_temporary_file := fun suffix k => (S k, Return ("/tmp/tmp" ++ suffix)%string);
     laz_detect_available := fun k => (k, Return [LazrsParallel; Laszip]);
     render_results := fun _ _ _ k => (k, Return tt);
     write_text := fun _ _ _ _ k => (k, Return tt);
     render_plot := fun _ _ _ k => (k, Return tt) |}.

(** The host of a setup: a child either behaves as the setup says, or runs
    the script on the host that has no children of its own. *)
Definition example_host (c : example_setup) : Host :=
  example_host_with
    (fun cmd env k =>
       match ex_children c, cmd with
       | Some f, _ => (S k, Return (f cmd env k))
       | None, LaspyReadScript num_threads file warmup iterations =>
           let '(k', proc) :=
             @laspy_read_script
               (example_host_with
                  (fun _ _ k => (k, Raise (mkExn OtherException "no such process"))) c)
               num_threads file warmup iterations env k in
           (k', Return proc)
       | None, BenchmarkBinary _ =>
           (S k, Raise (mkExn OtherException "no such file"))
       end)
    c.

Definition initial_state {H : Host} (wd : World) : state :=
  mkState wd ∅ [].

Definition initial_main_state {H : Host} (wd : World) : main_state :=
  mkMainState (initial_state wd) []
    {| md_file := ""; md_num_points := 0; md_file_size_bytes := 0;
       md_has_thread_control := false |}.

Definition f0_25 : float := S754_finite false 4503599627370496 (-54).  (* 0.25 *)

(** Every call takes a quarter of a second. *)
Definition steady : example_setup :=
  {| ex_calls := fun _ _ _ => Return f0_25;
     ex_children := None;
     ex_sum := sum_plain;
     ex_laspy := true; ex_lazrs := true; ex_pdal := true;
     ex_files := ["cloud.laz"];
     ex_binary := None |}.

Definition example_args : Args :=
  {| a_file := "cloud.laz"; a_threads := "1,4"; a_iterations := 2; a_warmup := 1;
     a_operation := "read"; a_chunk_size := 50000; a_benchmark_binary := None;
     a_tools := "laspy"; a_plot := false; a_plot_output := None;
     a_output := Some "out.json" |}.


(** The child prints a line that is not [it,elapsed] and exits with 0. *)
Definition garbled : example_setup :=
  {| ex_calls := fun _ _ _ => Return f0_25;
     ex_children := Some (fun _ _ _ => mkCompletedProcess 0 ("1 0.25" ++ nl) "");
     ex_sum := sum_plain;
     ex_laspy := true; ex_lazrs := false; ex_pdal := false;
     ex_files := ["cloud.laz"];
     ex_binary := None |}.

(** The codec fails in a process that has [RAYON_NUM_THREADS=1]. *)
Definition one_thread_breaks : example_setup :=
  {| ex_calls := fun _ env _ =>
       if bool_decide (env !! "RAYON_NUM_THREADS" = Some "1")
       then Raise (mkExn OtherException "lazrs: cannot build the thread pool")
       else Return f0_25;
     ex_children := None;
     ex_sum := sum_plain;
     ex_laspy := true; ex_lazrs := false; ex_pdal := false;
     ex_files := ["cloud.laz"];
     ex_binary := None |}.

(** The second call made on the host fails. *)
Definition second_call_fails : example_setup :=
  {| ex_calls := fun _ _ k =>
       if Nat.eqb k 1 then Raise (mkExn OtherException "read error") else Return f0_25;
     ex_children := None;
     ex_sum := sum_plain;
     ex_laspy := true; ex_lazrs := true; ex_pdal := true;
     ex_files := ["cloud.laz"];
     ex_binary := None |}.

Definition steady_host : Host := example_host steady.
Definition garbled_host : Host := example_host garbled.
Definition one_thread_breaks_host : Host := example_host one_thread_breaks.
Definition second_call_fails_host : Host := example_host second_call_fails.

(** The thread counts of the children started, oldest first. *)
Definition spawned_threads (tr : list event) : list Z :=
  omap (fun ev => match ev with
                  | Spawn (LaspyReadScript nt _ _ _) _ => Some nt
                  | _ => None
                  end) tr.

(** What was printed on the standard error, oldest first. *)
Definition stderr_lines (tr : list event) : list string :=
  omap (fun ev => match ev with PrintErr msg => Some msg | _ => None end) tr.

Definition cells (rs : list BenchResult) : list (string * Z * Z) :=
  map (fun r => (tool r, threads r, iteration r)) rs.

(** Two runs of [main] on the host where one thread breaks: thread counts
    1 and 4, and thread count 4 alone. *)
Definition run_1_4 : main_state * pyres Z :=
  @main one_thread_breaks_host example_args (@initial_main_state one_thread_breaks_host 0%nat).

Definition run_4 : main_state * pyres Z :=
  @main one_thread_breaks_host
    (mkArgs "cloud.laz" "4" 2 1 "read" 50000 None "laspy" false None (Some "out.json"))
    (@initial_main_state one_thread_breaks_host 0%nat).

(** ** Vocabulary of the further properties *)

(** The keys of a list, each at the place of its first occurrence. *)
Definition first_occurrences (ks : list group_key) : list group_key :=
  fold_left (fun seen k => if decide (k ∈ seen) then seen else seen ++ [k]) ks [].

(** Two runs of two configurations, interleaved. *)
Definition interleaved : list BenchResult :=
  [mkBenchResult "laszip" "read" 1 0 f1;
   mkBenchResult "laspp" "read" 4 0 f0_25;
   mkBenchResult "laszip" "read" 1 1 f1;
   mkBenchResult "laspp" "read" 4 1 f0_25].

(** A relation on the harness state, read on the state of [main]. *)
Definition on_harness `{H : Host} (R : state -> state -> Prop) (ms ms' : main_state) : Prop :=
  R (harness ms) (harness ms').

(** Events are only added to the trace, and the added ones satisfy [P]. *)
Definition adds_only `{H : Host} (P : event -> Prop) (s s' : state) : Prop :=
  exists evs, trace s' = trace s ++ evs /\ Forall P evs.

(** The events that touch no variable of the environment but
    [RAYON_NUM_THREADS]. *)
Definition touches_only_rayon `{H : Host} (ev : event) : Prop :=
  match ev with
  | EnvSet k _ | EnvPop k => k = RAYON_NUM_THREADS
  | _ => True
  end.

(** The tools, and the operations, that the command line asks for. *)
Definition tools_of `{H : Host} (args : Args) : list string :=
  map py_strip (py_split comma (a_tools args)).

Definition reads `{H : Host} (args : Args) : bool :=
  bool_decide (a_operation args = "read") || bool_decide (a_operation args = "both").

Definition writes_too `{H : Host} (args : Args) : bool :=
  bool_decide (a_operation args = "write") || bool_decide (a_operation args = "both").

(** What a run may do when [tools] are asked for: a workload of a tool is
    called, and a child is started, only for a tool that is asked for and
    installed. *)
Definition asked_for `{H : Host} (tools : list string) (do_read do_write : bool)
    (ev : event) : Prop :=
  match ev with
  | Called (LaspyRead _ backend) _ =>
      "laspy" ∈ tools /\ HAS_LASPY = true /\ backend <> Lazrs
  | Called (LaspyWrite _ _ backend _) _ =>
      "laspy" ∈ tools /\ HAS_LASPY = true /\ backend <> Lazrs /\ do_write = true
  | Spawn (LaspyReadScript _ _ _ _) _ =>
      "laspy" ∈ tools /\ HAS_LASPY = true /\ do_read = true
  | Called (LazrsRead _) _ | Called (LazrsReadFallback _) _ =>
      "lazrs" ∈ tools /\ HAS_LAZRS = true /\ do_read = true
  | Called (PdalTranslate _ _) _ => "pdal" ∈ tools /\ HAS_PDAL = true
  | Spawn (BenchmarkBinary _) _ => "laspp" ∈ tools \/ "laszip" ∈ tools
  | _ => True
  end.

(** [p.exists() and os.access(p, os.X_OK)] *)
Definition usable `{H : Host} (p : string) (wd : World) : bool :=
  path_exists p wd && is_executable p wd.

(** The places of the build tree where [find_benchmark_binary] looks. *)
Definition build_tree_places `{H : Host} : list string :=
  concat
    (map (fun build_dir =>
            let d := path_join build_root build_dir in
            [path_join (path_join d "apps") "benchmark";
             path_join (path_join d "apps") "benchmark.exe";
             path_join d "benchmark";
             path_join d "benchmark.exe"])
       ["build"; "linux-build"; "build_release"; "cmake-build-release"]).

(** ** The default of [--threads] in [parse_args] *)

(** [sorted(s)] for a set of ints. *)
Definition sorted_ints (s : gset Z) : list Z := merge_sort Z.le (elements s).

(** The thread counts that [parse_args] joins into the default of
    [--threads]; [hw] is [multiprocessing.cpu_count()] and [lg] is
    [int(math.log2(hw))]. *)
Definition default_thread_counts (hw lg : Z) : list Z :=
  filter (fun t => 1 <= t)
    (sorted_ints
       ({[1; 2; 4; hw]}
        ∪ list_to_set (filter (fun p => p <= hw) (map (fun k => 2 ^ k) (seqZ 0 (lg + 1)))))).

Definition default_threads `{H : Host} (hw lg : Z) : string :=
  py_join "," (map str_of_int (default_thread_counts hw lg)).

(** [str] and [int] on the integers of a list: the text has no comma and
    reads back as the integer. *)
Definition ints_round_trip `{H : Host} (l : list Z) : Prop :=
  forall k, k ∈ l -> char_in comma (str_of_int k) = false /\ int_of_str (str_of_int k) = Some k.

(** ** The tables of [print_results] and the lines of [plot_results] *)

(** [sorted(xs, key=key)]: the sort is stable and compares keys with [<]
    only.  An element goes in front of the first element of the sorted rest
    whose key is not below its own. *)
Fixpoint insert_by {A K} (ltb : K -> K -> bool) (key : A -> K) (x : A) (l : list A)
    : list A :=
  match l with
  | [] => [x]
  | y :: rest => if ltb (key y) (key x) then y :: insert_by ltb key x rest else x :: l
  end.

Definition py_sorted {A K} (ltb : K -> K -> bool) (key : A -> K) (xs : list A) : list A :=
  foldr (insert_by ltb key) [] xs.

(** [sort_key] of [print_results] *)
Definition sort_key (s : BenchSummary) : Z * string * Z :=
  (if bool_decide (s_tool s = "laspp") then 0 else 1, s_tool s, s_threads s).

(** [a < b] on tuples [(int, str, int)]: the first components that differ
    decide.  Strings compare by code points, which is the order of the
    bytes of their UTF-8 encoding. *)
Definition sort_key_ltb (a b : Z * string * Z) : bool :=
  let '(a1, a2, a3) := a in
  let '(b1, b2, b3) := b in
  if negb (a1 =? b1) then a1 <? b1
  else if negb (String.eqb a2 b2) then String.ltb a2 b2
  else a3 <? b3.

(** [[s for s in summaries if s.operation == op]] *)
Definition op_results (op : string) (summaries : list BenchSummary) : list BenchSummary :=
  filter (fun s => s_operation s = op) summaries.

(** The rows of the table of [op], in the order in which they are printed. *)
Definition table_rows (op : string) (summaries : list BenchSummary) : list BenchSummary :=
  py_sorted sort_key_ltb sort_key (op_results op summaries).

(** [a] is not after [b] in a table. *)
Definition row_le (a b : BenchSummary) : Prop :=
  sort_key_ltb (sort_key b) (sort_key a) = false.

(** The order of the keys, spelled out. *)
Definition key_lt (a b : Z * string * Z) : Prop :=
  a.1.1 < b.1.1
  \/ (a.1.1 = b.1.1
      /\ (String.ltb a.1.2 b.1.2 = true \/ (a.1.2 = b.1.2 /\ a.2 < b.2))).

(** [[(s.threads, s.mb_per_s) for s in op_results
      if s.tool == tool and s.threads > 0]]: the property [mb_per_s] is
    evaluated for the summaries that pass the test, in order, and the first
    exception ends the comprehension. *)
Fixpoint scaling_pairs (tool : string) (op_results : list BenchSummary)
    : pyres (list (Z * float)) :=
  match op_results with
  | [] => Return []
  | s :: rest =>
      if bool_decide (s_tool s = tool) && (0 <? s_threads s) then
        match mb_per_s s with
        | Raise e => Raise e
        | Return y =>
            match scaling_pairs tool rest with
            | Raise e => Raise e
            | Return pts => Return ((s_threads s, y) :: pts)
            end
        end
      else scaling_pairs tool rest
  end.

(** [tool_pts] of [plot_results]: the pairs sorted by [x[0]]. *)
Definition tool_pts (tool : string) (op_results : list BenchSummary)
    : pyres (list (Z * float)) :=
  match scaling_pairs tool op_results with
  | Return pairs => Return (py_sorted Z.ltb fst pairs)
  | Raise e => Raise e
  end.

(** [[s for s in op_results if s.tool == tool]] *)
Definition tool_results (tool : string) (op_results : list BenchSummary)
    : list BenchSummary :=
  filter (fun s => s_tool s = tool) op_results.

(** [next((s for s in tool_results if s.threads <= 1), tool_results[0])],
    reached with a non-empty [tool_results] only; [None] stands for the
    [continue] taken on an empty one. *)
Definition single_thread_result (tool_results : list BenchSummary) : option BenchSummary :=
  match tool_results with
  | [] => None
  | first :: _ => Some (default first (List.find (fun s => s_threads s <=? 1) tool_results))
  end.

(** The dict [metadata] of [main] is as it was. *)
Definition same_metadata `{H : Host} (ms ms' : main_state) : Prop :=
  metadata ms' = metadata ms.

(** A command line that asks for laspy only. *)
Definition laspy_only_args : Args :=
  {| a_file := "cloud.laz"; a_threads := "2"; a_iterations := 2; a_warmup := 1;
     a_operation := "read"; a_chunk_size := 50000; a_benchmark_binary := None;
     a_tools := "laspy"; a_plot := false; a_plot_output := None; a_output := None |}.

(** ** The document of the benchmark binary

    What [run_cpp_benchmark] does with the value of [json.loads(proc.stdout)]
    when that value is a dict, as the document of the benchmark binary is.
    Python checks no types here: the fields of a [BenchResult] are whatever
    the document holds. *)

(** The values that [json.loads] builds; a dict is given by its items, whose
    keys are distinct. *)
#[local] Unset Elimination Schemes.
Inductive json :=
  | JNull
  | JBool (b : bool)
  | JInt (z : Z)
  | JFloat (f : float)
  | JStr (s : string)
  | JList (items : list json)
  | JDict (items : list (string * json)).
#[local] Set Elimination Schemes.

(** The exceptions of subscripting and iterating. *)
Inductive lookup_error :=
  | KeyError (key : string)
  | TypeError.

(** The value of [k] in the items of a dict. *)
Fixpoint dict_get (k : string) (items : list (string * json)) : option json :=
  match items with
  | [] => None
  | (k', v) :: rest => if String.eqb k' k then Some v else dict_get k rest
  end.

(** [r[k]] for a string [k]: a dict answers or raises [KeyError]; a list, a
    string, a number, a Boolean and [None] raise [TypeError]. *)
Definition subscript (r : json) (k : string) : lookup_error + json :=
  match r with
  | JDict items =>
      match dict_get k items with
      | Some v => inr v
      | None => inl (KeyError k)
      end
  | _ => inl TypeError
  end.

Definition metadata_keys : list string :=
  ["platform"; "has_thread_control"; "hardware_threads"; "file"; "num_points";
   "file_size_bytes"; "point_format"; "is_compressed"].

(** [{k: data[k] for k in (...) if k in data}] *)
Definition metadata_of (data : list (string * json)) : list (string * json) :=
  omap (fun k => match dict_get k data with
                 | Some v => Some (k, v)
                 | None => None
                 end) metadata_keys.

(** A [BenchResult] as the comprehension builds it. *)
Record RawResult := mkRawResult {
  raw_tool : json;
  raw_operation : json;
  raw_threads : json;
  raw_iteration : json;
  raw_time_s : json
}.

(** [BenchResult(tool=r["tool"], operation=r["operation"], ...)]: the
    arguments are evaluated in the order in which they are written. *)
Definition result_of (r : json) : lookup_error + RawResult :=
  match subscript r "tool" with
  | inl e => inl e
  | inr tl =>
  match subscript r "operation" with
  | inl e => inl e
  | inr op =>
  match subscript r "threads" with
  | inl e => inl e
  | inr th =>
  match subscript r "iteration" with
  | inl e => inl e
  | inr it =>
  match subscript r "time_s" with
  | inl e => inl e
  | inr t => inr (mkRawResult tl op th it t)
  end end end end end.

Fixpoint results_of_items (items : list json) : lookup_error + list RawResult :=
  match items with
  | [] => inr []
  | r :: rest =>
      match result_of r with
      | inl e => inl e
      | inr x =>
          match results_of_items rest with
          | inl e => inl e
          | inr xs => inr (x :: xs)
          end
      end
  end.

(** The comprehension over [data.get("results", [])].  A list gives its
    items.  A dict and a string are iterable too, and their elements are
    strings, on which [r["tool"]] raises [TypeError]: only the empty ones
    give a result.  A number, a Boolean and [None] cannot be iterated. *)
Definition results_of (v : json) : lookup_error + list RawResult :=
  match v with
  | JList items => results_of_items items
  | JDict [] => inr []
  | JStr EmptyString => inr []
  | _ => inl TypeError
  end.

(** Lines 218 to 238 of [run_cpp_benchmark], for a document that is a
    dict. *)
Definition decode_document (data : list (string * json))
    : lookup_error + (list (string * json) * list RawResult) :=
  let metadata := metadata_of data in
  match results_of (default (JList []) (dict_get "results" data)) with
  | inl e => inl e
  | inr results => inr (metadata, results)
  end.

Definition result_keys : list string :=
  ["tool"; "operation"; "threads"; "iteration"; "time_s"].

(** An entry of [results] that is a dict with the five keys. *)
Definition complete_entry (r : json) : Prop :=
  exists items, r = JDict items /\ Forall (fun k => dict_get k items <> None) result_keys.

(** The first of the five keys that the items lack. *)
Definition first_missing (items : list (string * json)) : option string :=
  List.find (fun k => bool_decide (dict_get k items = None)) result_keys.

(** The event by which the [finally] clause of the laspy drivers puts
    [RAYON_NUM_THREADS] back to what it was in [env]. *)
Definition restore_event (env : environment) : event :=
  match env !! "RAYON_NUM_THREADS" with
  | Some v => EnvSet "RAYON_NUM_THREADS" v
  | None => EnvPop "RAYON_NUM_THREADS"
  end.

(** The environment in which [benchmark_laspy_write] runs its loops. *)
Definition write_environ `{H : Host} (nt : option Z) (env : environment) : environment :=
  match nt with
  | Some k => <["RAYON_NUM_THREADS" := str_of_int k]> env
  | None => env
  end.

(** [k] calls of [w], one after the other, in the environment [env]. *)
Definition calls_of (k : nat) (w : workload) (env : environment) : list event :=
  replicate k (Called w env).

(** [sort_key] read on the key of a summary. *)
Definition sort_key_of (k : group_key) : Z * string * Z :=
  (if bool_decide (k.1.1 = "laspp") then 0 else 1, k.1.1, k.2).

(** A command line whose [--threads] has an item that is no integer. *)
Definition bad_threads_args : Args :=
  {| a_file := "cloud.laz"; a_threads := "1,x"; a_iterations := 2; a_warmup := 1;
     a_operation := "read"; a_chunk_size := 50000; a_benchmark_binary := None;
     a_tools := "laspy"; a_plot := false; a_plot_output := None; a_output := None |}.

(** A document whose second result lacks [time_s]. *)
Definition short_document : list (string * json) :=
  [("num_points", JInt 5); ("generator", JStr "laspp");
   ("results",
    JList [JDict [("tool", JStr "laspp"); ("operation", JStr "read"); ("threads", JInt 1);
                  ("iteration", JInt 0); ("time_s", JFloat f0_25)];
           JDict [("tool", JStr "laspp"); ("operation", JStr "read"); ("threads", JInt 1);
                  ("iteration", JInt 1)]])].

(** ** The thread count in the harness process, and hosts that fail *)

(** An event of a driver that controls the thread count through the
    environment of the harness process: a workload is called while
    [RAYON_NUM_THREADS] is [v] there, and no child is started. *)
Definition in_process_with (v : string) (ev : event) : Prop :=
  match ev with
  | Called _ env => env !! "RAYON_NUM_THREADS" = Some v
  | Spawn _ _ => False
  | _ => True
  end.

(** From a state in which [RAYON_NUM_THREADS] is [v], the variable stays
    [v] and only such events are added. *)
Definition keeps_rayon `{H : Host} (v : string) (s s' : state) : Prop :=
  environ s !! "RAYON_NUM_THREADS" = Some v ->
  environ s' !! "RAYON_NUM_THREADS" = Some v /\ adds_only (in_process_with v) s s'.

(** The events that set or remove a variable of the environment of the
    harness process, oldest first. *)
Definition environ_events (tr : list event) : list event :=
  List.filter (fun ev => match ev with EnvSet _ _ | EnvPop _ => true | _ => false end) tr.

(** No child process was started. *)
Definition no_child (tr : list event) : bool :=
  forallb (fun ev => match ev with Spawn _ _ => false | _ => true end) tr.

(** Every call of a workload fails: the codec cannot read the file, and
    [pdal translate] exits with a non-zero status. *)
Definition every_call_fails : example_setup :=
  {| ex_calls := fun w _ _ =>
       match w with
       | PdalTranslate _ _ =>
           Raise (mkExn CalledProcessError "pdal translate returned non-zero exit status 1")
       | _ => Raise (mkExn OtherException "cannot read the file")
       end;
     ex_children := None;
     ex_sum := sum_plain;
     ex_laspy := false; ex_lazrs := true; ex_pdal := true;
     ex_files := ["cloud.laz"];
     ex_binary := None |}.

(** The steady host without the lazrs package. *)
Definition without_lazrs : example_setup :=
  {| ex_calls := fun _ _ _ => Return f0_25;
     ex_children := None;
     ex_sum := sum_plain;
     ex_laspy := true; ex_lazrs := false; ex_pdal := true;
     ex_files := ["cloud.laz"];
     ex_binary := None |}.

Definition every_call_fails_host : Host := example_host every_call_fails.
Definition without_lazrs_host : Host := example_host without_lazrs.

(** A read with lazrs and PDAL on the host where every call fails. *)
Definition failing_run : main_state * pyres Z :=
  @main every_call_fails_host
    (mkArgs "cloud.laz" "1" 2 1 "read" 50000 None "lazrs,pdal" false None None)
    (@initial_main_state every_call_fails_host 0%nat).

(** A write with laspy and thread counts 1 and 4 on the steady host, and
    the write driver alone with thread count 4. *)
Definition write_run : main_state * pyres Z :=
  @main steady_host
    (mkArgs "cloud.laz" "1,4" 2 1 "write" 50000 None "laspy" false None None)
    (@initial_main_state steady_host 0%nat).

Definition write_driver_run : state * pyres (list BenchResult) :=
  @benchmark_laspy_write steady_host "cloud.laz" LazrsParallel "laspy (lazrs-parallel)"
    1 2 50000 (Some 4) (@initial_state steady_host 0%nat).

(** The read driver with the same backend and thread count. *)
Definition read_driver_run : state * pyres (list BenchResult) :=
  @benchmark_laspy_read steady_host "cloud.laz" LazrsParallel "laspy (lazrs-parallel)"
    1 2 (Some 4) (@initial_state steady_host 0%nat).

(** * Properties *)

(** ** Order of floats *)

Ltac float_cases :=
  repeat match goal with
  | x : float |- _ => destruct x as [[]|[]| |[] ? ?]
  | x : spec_float |- _ => destruct x as [[]|[]| |[] ? ?]
  end.

Ltac cmp_cases :=
  repeat match goal with
  | H : context [Z.compare ?a ?b] |- _ => destruct (Z.compare_spec a b)
  | |- context [Z.compare ?a ?b] => destruct (Z.compare_spec a b)
  | H : context [Pos.compare_cont Eq ?a ?b] |- _ =>
      change (Pos.compare_cont Eq a b) with (Pos.compare a b) in *;
      destruct (Pos.compare_spec a b)
  | |- context [Pos.compare_cont Eq ?a ?b] =>
      change (Pos.compare_cont Eq a b) with (Pos.compare a b) in *;
      destruct (Pos.compare_spec a b)
  end.

Ltac float_order :=
  unfold ltb, leb, eqb, SFltb, SFleb, SFeqb, zero; float_cases; simpl;
  try congruence; intros; cmp_cases; simpl in *; try congruence; try lia.

Lemma leb_refl x : is_nan x = false -> leb x x = true.
Proof. float_order. Qed.

Lemma ltb_false_leb x y :
  is_nan x = false -> is_nan y = false -> ltb x y = false -> leb y x = true.
Proof. float_order. Qed.

Lemma ltb_leb_trans x y z : ltb x y = true -> leb y z = true -> leb x z = true.
Proof. float_order. Qed.

Lemma leb_ltb_trans x y z : leb x y = true -> ltb y z = true -> leb x z = true.
Proof. float_order. Qed.

Lemma leb_trans x y z : leb x y = true -> leb y z = true -> leb x z = true.
Proof. float_order. Qed.

Lemma leb_antisym_pos x y :
  ltb zero x = true -> leb x y = true -> leb y x = true -> x = y.
Proof. float_order. Qed.

Lemma times_of_snoc k raw r :
  times_of k (raw ++ [r])
  = times_of k raw ++ (if decide (key_of r = k) then [time_s r] else []).
Proof.
  unfold times_of. rewrite filter_app, map_app. f_equal.
  rewrite filter_cons, filter_nil. destruct (decide (key_of r = k)); reflexivity.
Qed.

Lemma group_samples_snoc raw r :
  group_samples (raw ++ [r])
  = setdefault_append (key_of r) (time_s r) (group_samples raw).
Proof. unfold group_samples. rewrite fold_left_app. reflexivity. Qed.

Lemma setdefault_append_keys key t groups :
  map fst (setdefault_append key t groups)
  = if decide (key ∈ map fst groups) then map fst groups else map fst groups ++ [key].
Proof.
  induction groups as [|[k ts] rest IH].
  - cbn [setdefault_append map fst app]. case_decide as Hin; [|reflexivity].
    now apply elem_of_nil in Hin.
  - cbn [setdefault_append]. destruct (decide (k = key)) as [->|Hne].
    + clear IH. cbn [map fst]. case_decide as Hn; [reflexivity|].
      exfalso; apply Hn. apply elem_of_cons; now left.
    + cbn [map fst] in *. rewrite IH. clear IH.
      case_decide as Hin; case_decide as Hin'; try reflexivity.
      * exfalso; apply Hin'. apply elem_of_cons; now right.
      * apply elem_of_cons in Hin' as [?|?]; [congruence|contradiction].
Qed.

Lemma setdefault_append_NoDup key t groups :
  NoDup (map fst groups) -> NoDup (map fst (setdefault_append key t groups)).
Proof.
  intros Hnd. rewrite setdefault_append_keys.
  case_decide as Hn; [assumption|].
  apply NoDup_app. split; [assumption|]. split.
  - intros x Hx Hx'. apply list_elem_of_singleton in Hx'. congruence.
  - apply NoDup_singleton.
Qed.

Lemma setdefault_append_In key t groups k ts :
  NoDup (map fst groups) ->
  In (k, ts) (setdefault_append key t groups) <->
  (k <> key /\ In (k, ts) groups)
  \/ (k = key /\ exists ts0, In (key, ts0) groups /\ ts = ts0 ++ [t])
  \/ (k = key /\ ~ In key (map fst groups) /\ ts = [t]).
Proof.
  induction groups as [|[k0 ts0] rest IH]; simpl; intros Hnd.
  - split.
    + intros [Heq|[]]. inversion Heq; subst. right; right. tauto.
    + intros [[_ []]|[(_ & ? & [] & _)|(-> & _ & ->)]]. now left.
  - apply NoDup_cons in Hnd as [Hk0 Hnd]. rewrite list_elem_of_In in Hk0.
    specialize (IH Hnd).
    destruct (decide (k0 = key)) as [->|Hne]; simpl.
    + split.
      * intros [Heq|Hin].
        -- inversion Heq; subst. right; left. split; [reflexivity|].
           exists ts0. split; [now left|reflexivity].
        -- left. split; [|now right]. intros ->. apply Hk0.
           change key with (fst (key, ts)). now apply in_map.
      * intros [[Hne Hin]|[(-> & ts1 & Hin & ->)|(-> & Hn & _)]].
        -- destruct Hin as [Heq|Hin]; [congruence|now right].
        -- destruct Hin as [Heq|Hin]; [inversion Heq; now left|].
           exfalso. apply Hk0. change key with (fst (key, ts1)). now apply in_map.
        -- exfalso. apply Hn. now left.
    + rewrite IH. split.
      * intros [Heq|[[Hk Hin]|[(-> & ts1 & Hin & ->)|(-> & Hn & ->)]]].
        -- inversion Heq; subst. left. split; [assumption|now left].
        -- left. split; [assumption|now right].
        -- right; left. split; [reflexivity|]. exists ts1. split; [now right|reflexivity].
        -- right; right. split; [reflexivity|]. split; [|reflexivity].
           intros [?|?]; [congruence|contradiction].
      * intros [[Hk [Heq|Hin]]|[(-> & ts1 & [Heq|Hin] & ->)|(-> & Hn & ->)]].
        -- now left.
        -- right; left. tauto.
        -- congruence.
        -- right; right; left. split; [reflexivity|]. now exists ts1.
        -- right; right; right. split; [reflexivity|]. split; [|reflexivity]. tauto.
Qed.

(** The dict built by the first loop of [aggregate]: its keys are distinct,
    and key [k] is bound to the times of the samples of key [k], in arrival
    order. *)
Lemma group_samples_spec raw :
  NoDup (map fst (group_samples raw)) /\
  forall k ts, In (k, ts) (group_samples raw) <-> ts = times_of k raw /\ ts <> [].
Proof.
  induction raw as [|r raw IH] using rev_ind.
  - split; [constructor|]. intros k ts. simpl. split; [tauto|]. intros [-> H]. now apply H.
  - destruct IH as [Hnd IH]. rewrite group_samples_snoc. split.
    + now apply setdefault_append_NoDup.
    + intros k ts. rewrite setdefault_append_In by assumption.
      rewrite times_of_snoc. split.
      * intros [[Hne Hin]|[(-> & ts0 & Hin & ->)|(-> & Hn & ->)]].
        -- apply IH in Hin as [-> Hnn]. destruct (decide _) as [|_]; [congruence|].
           rewrite app_nil_r. tauto.
        -- apply IH in Hin as [-> Hnn]. destruct (decide _) as [_|]; [|congruence].
           split; [reflexivity|]. intros Heq. now apply app_eq_nil in Heq as [_ ?].
        -- destruct (decide _) as [_|]; [|congruence].
           destruct (times_of (key_of r) raw) as [|t0 l] eqn:Heq; [split; [reflexivity|congruence]|].
           exfalso. apply Hn. change (key_of r) with (fst (key_of r, t0 :: l)).
           apply in_map. apply IH. rewrite Heq. split; [reflexivity|congruence].
      * intros [-> Hnn]. destruct (decide (key_of r = k)) as [<-|Hne].
        -- destruct (times_of (key_of r) raw) as [|t0 l] eqn:Heq.
           ++ right; right. split; [reflexivity|]. split; [|reflexivity].
              intros Hin. apply in_map_iff in Hin as ([k' ts'] & Hk' & Hin). simpl in Hk'; subst k'.
              apply IH in Hin as [-> Hnn']. now apply Hnn'.
           ++ right; left. split; [reflexivity|]. exists (t0 :: l). split; [|reflexivity].
              apply IH. rewrite Heq. split; [reflexivity|congruence].
        -- left. split; [congruence|]. apply IH. rewrite app_nil_r in *. tauto.
Qed.

(** ** [min] and [max] *)

Lemma fold_min_spec rest : forall cur,
  is_nan cur = false -> no_nan rest ->
  let m := fold_left (fun cur item => if ltb item cur then item else cur) rest cur in
  In m (cur :: rest) /\ Forall (fun t => leb m t = true) (cur :: rest).
Proof.
  induction rest as [|item rest IH]; intros cur Hcur Hrest; cbn [fold_left].
  - split; [now left|]. constructor; [now apply leb_refl|constructor].
  - apply Forall_cons in Hrest as [Hitem Hrest].
    destruct (ltb item cur) eqn:Hlt.
    + destruct (IH item Hitem Hrest) as [Hin Hle]. split.
      * destruct Hin as [<-|Hin]; [right; now left|right; now right].
      * apply Forall_cons in Hle as [Hm Hle].
        constructor; [|constructor; assumption].
        eapply leb_ltb_trans; eassumption.
    + destruct (IH cur Hcur Hrest) as [Hin Hle]. split.
      * destruct Hin as [<-|Hin]; [now left|right; now right].
      * apply Forall_cons in Hle as [Hm Hle].
        constructor; [assumption|]. constructor; [|assumption].
        eapply leb_trans; [exact Hm|]. now apply ltb_false_leb.
Qed.

Lemma fold_max_spec rest : forall cur,
  is_nan cur = false -> no_nan rest ->
  let m := fold_left (fun cur item => if ltb cur item then item else cur) rest cur in
  In m (cur :: rest) /\ Forall (fun t => leb t m = true) (cur :: rest).
Proof.
  induction rest as [|item rest IH]; intros cur Hcur Hrest; cbn [fold_left].
  - split; [now left|]. constructor; [now apply leb_refl|constructor].
  - apply Forall_cons in Hrest as [Hitem Hrest].
    destruct (ltb cur item) eqn:Hlt.
    + destruct (IH item Hitem Hrest) as [Hin Hle]. split.
      * destruct Hin as [<-|Hin]; [right; now left|right; now right].
      * apply Forall_cons in Hle as [Hm Hle].
        constructor; [|constructor; assumption].
        eapply ltb_leb_trans; eassumption.
    + destruct (IH cur Hcur Hrest) as [Hin Hle]. split.
      * destruct Hin as [<-|Hin]; [now left|right; now right].
      * apply Forall_cons in Hle as [Hm Hle].
        constructor; [assumption|]. constructor; [|assumption].
        eapply leb_trans; [|exact Hm]. now apply ltb_false_leb.
Qed.

Lemma py_min_spec xs :
  xs <> [] -> no_nan xs ->
  In (py_min xs) xs /\ Forall (fun t => leb (py_min xs) t = true) xs.
Proof.
  destruct xs as [|x rest]; [congruence|]. intros _ Hnn.
  apply Forall_cons in Hnn as [Hx Hrest]. now apply fold_min_spec.
Qed.

Lemma py_max_spec xs :
  xs <> [] -> no_nan xs ->
  In (py_max xs) xs /\ Forall (fun t => leb t (py_max xs) = true) xs.
Proof.
  destruct xs as [|x rest]; [congruence|]. intros _ Hnn.
  apply Forall_cons in Hnn as [Hx Hrest]. now apply fold_max_spec.
Qed.

Lemma positive_not_nan t : ltb zero t = true -> is_nan t = false.
Proof. float_order. Qed.

Lemma all_positive_no_nan xs : all_positive xs -> no_nan xs.
Proof. apply List.Forall_impl. intros t. apply positive_not_nan. Qed.

Lemma py_min_Permutation xs ys :
  xs ≡ₚ ys -> all_positive xs -> py_min xs = py_min ys.
Proof.
  intros Hp Hpos. destruct xs as [|x xs'].
  - apply Permutation_nil_l in Hp. now subst.
  - assert (Hposy : all_positive ys) by (unfold all_positive in *; now rewrite <- Hp).
    assert (Hy : ys <> []) by (intros ->; now apply Permutation_nil_r in Hp).
    destruct (py_min_spec (x :: xs')) as [Hin Hle]; [congruence|now apply all_positive_no_nan|].
    destruct (py_min_spec ys) as [Hin' Hle']; [assumption|now apply all_positive_no_nan|].
    unfold all_positive in Hpos. rewrite List.Forall_forall in Hle, Hle', Hpos.
    apply leb_antisym_pos.
    + now apply Hpos.
    + apply Hle. eapply Permutation_in; [symmetry; exact Hp|assumption].
    + apply Hle'. eapply Permutation_in; [exact Hp|assumption].
Qed.

Lemma py_max_Permutation xs ys :
  xs ≡ₚ ys -> all_positive xs -> py_max xs = py_max ys.
Proof.
  intros Hp Hpos. destruct xs as [|x xs'].
  - apply Permutation_nil_l in Hp. now subst.
  - assert (Hposy : all_positive ys) by (unfold all_positive in *; now rewrite <- Hp).
    assert (Hy : ys <> []) by (intros ->; now apply Permutation_nil_r in Hp).
    destruct (py_max_spec (x :: xs')) as [Hin Hle]; [congruence|now apply all_positive_no_nan|].
    destruct (py_max_spec ys) as [Hin' Hle']; [assumption|now apply all_positive_no_nan|].
    unfold all_positive in Hpos. rewrite List.Forall_forall in Hle, Hle', Hpos.
    apply leb_antisym_pos.
    + now apply Hpos.
    + apply Hle'. eapply Permutation_in; [exact Hp|assumption].
    + apply Hle. eapply Permutation_in; [symmetry; exact Hp|assumption].
Qed.

(** ** [aggregate] *)

Lemma in_aggregate py_sum raw np fs s :
  In s (aggregate py_sum raw np fs) <->
  exists k ts, In (k, ts) (group_samples raw) /\ s = summarise py_sum np fs (k, ts).
Proof.
  unfold aggregate. rewrite in_map_iff. split.
  - intros ([k ts] & <- & Hin). now exists k, ts.
  - intros (k & ts & Hin & ->). now exists (k, ts).
Qed.

Lemma summary_key_summarise py_sum np fs k ts :
  summary_key (summarise py_sum np fs (k, ts)) = k.
Proof. destruct k as [[tl op] th]. reflexivity. Qed.

Lemma aggregate_keys py_sum raw np fs :
  map summary_key (aggregate py_sum raw np fs) = map fst (group_samples raw).
Proof.
  unfold aggregate. rewrite map_map. apply map_ext.
  intros [k ts]. apply summary_key_summarise.
Qed.

Lemma summary_of_sample py_sum raw np fs r :
  In r raw ->
  In (summarise py_sum np fs (key_of r, times_of (key_of r) raw))
     (aggregate py_sum raw np fs).
Proof.
  intros Hin. apply in_aggregate. exists (key_of r), (times_of (key_of r) raw).
  split; [|reflexivity]. apply group_samples_spec. split; [reflexivity|].
  unfold times_of. intros Hnil. apply map_eq_nil in Hnil.
  assert (Hr : r ∈ filter (fun r0 => key_of r0 = key_of r) raw).
  { apply list_elem_of_filter. split; [reflexivity|now apply list_elem_of_In]. }
  rewrite Hnil in Hr. now apply elem_of_nil in Hr.
Qed.

Lemma sum_lengths_setdefault key t groups :
  fold_right Z.add 0 (map (fun g => Z.of_nat (length (snd g))) (setdefault_append key t groups))
  = fold_right Z.add 0 (map (fun g => Z.of_nat (length (snd g))) groups) + 1.
Proof.
  induction groups as [|[k ts] rest IH]; cbn [setdefault_append].
  - reflexivity.
  - destruct (decide (k = key)); cbn [map fold_right snd].
    + rewrite length_app. cbn [length]. lia.
    + rewrite IH. lia.
Qed.

Lemma NoDup_map_eq {A B} (f : A -> B) (l : list A) a b :
  NoDup (map f l) -> In a l -> In b l -> f a = f b -> a = b.
Proof.
  induction l as [|x l IH]; cbn [map]; intros Hnd Ha Hb Hf; [contradiction|].
  apply NoDup_cons in Hnd as [Hx Hnd]. rewrite list_elem_of_In in Hx.
  destruct Ha as [->|Ha], Hb as [->|Hb].
  - reflexivity.
  - exfalso. apply Hx. rewrite Hf. now apply in_map.
  - exfalso. apply Hx. rewrite <- Hf. now apply in_map.
  - now apply IH.
Qed.

(** ** Claims on [aggregate] *)

(** C1, as stated, fails: for the three samples of 0.1 s the mean computed
    by [aggregate] is 0.10000000000000002, above [max_s] = 0.1, with the
    plain and with the compensated [sum]. *)
Lemma aggregate_mean_above_max :
  (exists s, In s (aggregate sum_plain three_tenths 0 0)
             /\ max_s s = f0_1 /\ mean_s s = f0_1_next /\ leb (mean_s s) (max_s s) = false)
  /\ (exists s, In s (aggregate sum_compensated three_tenths 0 0)
             /\ max_s s = f0_1 /\ mean_s s = f0_1_next /\ leb (mean_s s) (max_s s) = false).
Proof.
  split; eexists; (split; [left; reflexivity|]); vm_compute; repeat split.
Qed.

(** C1 (amended): [aggregate] groups the samples by their exact
    (tool, operation, threads) key: every sample's key has a summary, and in
    the summary of key k, with ts the times of the samples of key k in
    arrival order, [n] is the length of ts, [mean_s] is the float quotient of
    [sum(ts)] by [n], [min_s] and [max_s] are [min(ts)] and [max(ts)]; when
    no time is a NaN these are elements of ts that bound every element of ts,
    so that [min_s <= max_s]. *)
Theorem aggregate_group_statistics (py_sum : list float -> float)
    (raw : list BenchResult) (np fs : Z) :
  (forall r, In r raw ->
     exists s, In s (aggregate py_sum raw np fs) /\ summary_key s = key_of r)
  /\
  (forall s, In s (aggregate py_sum raw np fs) ->
     let ts := times_of (summary_key s) raw in
     ts <> []
     /\ n s = Z.of_nat (length ts)
     /\ mean_s s = div (py_sum ts) (of_Z (Z.of_nat (length ts)))
     /\ min_s s = py_min ts
     /\ max_s s = py_max ts
     /\ (no_nan ts ->
         In (min_s s) ts /\ In (max_s s) ts
         /\ Forall (fun t => leb (min_s s) t = true /\ leb t (max_s s) = true) ts
         /\ leb (min_s s) (max_s s) = true)).
Proof.
  split.
  - intros r Hr. eexists. split; [apply summary_of_sample; exact Hr|].
    apply summary_key_summarise.
  - intros s Hs. apply in_aggregate in Hs as (k & ts & Hin & ->).
    rewrite summary_key_summarise. apply group_samples_spec in Hin as [-> Hne].
    cbn zeta. destruct k as [[tl op] th]. cbn [summarise n mean_s min_s max_s].
    repeat (split; [solve [assumption | reflexivity]|]).
    intros Hnn.
    destruct (py_min_spec _ Hne Hnn) as [Hmin Hle].
    destruct (py_max_spec _ Hne Hnn) as [Hmax Hge].
    rewrite List.Forall_forall in Hle, Hge.
    repeat split; try assumption.
    + apply List.Forall_forall. intros t Ht. split; [now apply Hle|now apply Hge].
    + now apply Hge.
Qed.

Lemma aggregate_keys_NoDup py_sum raw np fs :
  NoDup (map summary_key (aggregate py_sum raw np fs)).
Proof. rewrite aggregate_keys. apply group_samples_spec. Qed.

(** C9: the keys of the summaries returned by [aggregate] are pairwise
    distinct. *)
Theorem aggregate_keys_distinct (py_sum : list float -> float)
    (raw : list BenchResult) (np fs : Z) :
  NoDup (map summary_key (aggregate py_sum raw np fs)).
Proof. apply aggregate_keys_NoDup. Qed.

Lemma sum_lengths_group_samples raw :
  fold_right Z.add 0 (map (fun g => Z.of_nat (length (snd g))) (group_samples raw))
  = Z.of_nat (length raw).
Proof.
  induction raw as [|r raw IH] using rev_ind; [reflexivity|].
  rewrite group_samples_snoc, sum_lengths_setdefault, IH, length_app.
  cbn [length]. lia.
Qed.

(** C10: the [n] fields of the summaries add up to the number of samples;
    every sample is counted in the one summary that has its key, whose [n]
    is the number of samples of that key. *)
Theorem aggregate_conserves_samples (py_sum : list float -> float)
    (raw : list BenchResult) (np fs : Z) :
  fold_right Z.add 0 (map n (aggregate py_sum raw np fs)) = Z.of_nat (length raw)
  /\
  (forall r, In r raw ->
     exists s, In s (aggregate py_sum raw np fs)
       /\ summary_key s = key_of r
       /\ n s = Z.of_nat (length (filter (fun r' => key_of r' = key_of r) raw))
       /\ forall s', In s' (aggregate py_sum raw np fs) ->
                     summary_key s' = key_of r -> s' = s).
Proof.
  split.
  - rewrite <- sum_lengths_group_samples. unfold aggregate. rewrite map_map.
    f_equal. apply map_ext. intros [[[tl op] th] ts]. reflexivity.
  - intros r Hr. pose proof (summary_of_sample py_sum raw np fs r Hr) as Hs.
    eexists. split; [exact Hs|]. split; [apply summary_key_summarise|]. split.
    + destruct (key_of r) as [[tl op] th]. cbn [summarise n].
      unfold times_of. now rewrite length_map.
    + intros s' Hs' Hk.
      eapply (NoDup_map_eq summary_key); [apply aggregate_keys_NoDup|exact Hs'|exact Hs|].
      rewrite Hk. symmetry. apply summary_key_summarise.
Qed.

Lemma times_of_Permutation k raw raw' :
  raw ≡ₚ raw' -> times_of k raw ≡ₚ times_of k raw'.
Proof. intros Hp. unfold times_of. apply Permutation_map. now rewrite Hp. Qed.

Lemma times_of_positive k raw :
  all_positive (map time_s raw) -> all_positive (times_of k raw).
Proof.
  unfold all_positive, times_of. rewrite !List.Forall_forall.
  intros Hpos t Ht. apply in_map_iff in Ht as (r & <- & Hr).
  apply Hpos. apply in_map. apply list_elem_of_In in Hr.
  apply list_elem_of_filter in Hr as [_ Hr]. now apply list_elem_of_In.
Qed.

Lemma key_in_groups raw k :
  In k (map fst (group_samples raw)) <-> times_of k raw <> [].
Proof.
  split.
  - intros Hin. apply in_map_iff in Hin as ([k' ts] & Hk & Hin). cbn in Hk. subst k'.
    apply group_samples_spec in Hin as [<- Hne]. exact Hne.
  - intros Hne. change k with (fst (k, times_of k raw)). apply in_map.
    apply group_samples_spec. now split.
Qed.

Lemma group_keys_Permutation raw raw' :
  raw ≡ₚ raw' -> map fst (group_samples raw) ≡ₚ map fst (group_samples raw').
Proof.
  intros Hp. apply NoDup_Permutation; try apply group_samples_spec.
  intros k. rewrite !list_elem_of_In, !key_in_groups.
  pose proof (times_of_Permutation k _ _ Hp) as Hk. split; intros Hne Hnil.
  - rewrite Hnil in Hk. apply Permutation_nil_r in Hk. congruence.
  - rewrite Hnil in Hk. apply Permutation_nil_l in Hk. congruence.
Qed.

(** C3, as stated, fails: [spread_reversed] is a permutation of [spread],
    and the one summary of [spread] (mean 2**51) is not a summary of
    [spread_reversed] (mean 2**51 + 0.5), with the plain and with the
    compensated [sum]. *)
Lemma aggregate_depends_on_order :
  Permutation spread spread_reversed
  /\ (exists s, In s (aggregate sum_plain spread 0 0)
                /\ ~ In s (aggregate sum_plain spread_reversed 0 0))
  /\ (exists s, In s (aggregate sum_compensated spread 0 0)
                /\ ~ In s (aggregate sum_compensated spread_reversed 0 0)).
Proof.
  split.
  - change spread_reversed with (rev spread). apply Permutation_rev.
  - split; eexists; (split; [left; reflexivity|]); vm_compute;
      intros [Heq|[]]; discriminate Heq.
Qed.

(** C3 (amended): for samples whose times are positive, permuting the input
    gives the same number of summaries and, key by key, the same [n],
    [min_s], [max_s], point count and file size; [mean_s] is in both cases
    the float quotient of [sum] over the group's times in arrival order by
    [n], so the two summaries are identical as soon as [sum] gives the same
    float for the two orders of the group's times. *)
Theorem aggregate_permutation (py_sum : list float -> float)
    (raw raw' : list BenchResult) (np fs : Z) :
  Permutation raw raw' ->
  all_positive (map time_s raw) ->
  length (aggregate py_sum raw' np fs) = length (aggregate py_sum raw np fs)
  /\
  forall s, In s (aggregate py_sum raw np fs) ->
    exists s', In s' (aggregate py_sum raw' np fs)
      /\ summary_key s' = summary_key s
      /\ n s' = n s /\ min_s s' = min_s s /\ max_s s' = max_s s
      /\ num_points s' = num_points s /\ file_size_bytes s' = file_size_bytes s
      /\ Permutation (times_of (summary_key s) raw) (times_of (summary_key s) raw')
      /\ mean_s s = div (py_sum (times_of (summary_key s) raw)) (of_Z (n s))
      /\ mean_s s' = div (py_sum (times_of (summary_key s) raw')) (of_Z (n s))
      /\ (py_sum (times_of (summary_key s) raw') = py_sum (times_of (summary_key s) raw)
          -> s' = s).
Proof.
  intros Hp Hpos. split.
  - rewrite <- (length_map summary_key), <- (length_map summary_key (aggregate _ raw _ _)).
    rewrite !aggregate_keys. apply Permutation_length. symmetry.
    now apply group_keys_Permutation.
  - intros s Hs. apply in_aggregate in Hs as (k & ts & Hin & ->).
    apply group_samples_spec in Hin as [-> Hne].
    pose proof (times_of_Permutation k _ _ Hp) as Hk.
    pose proof (times_of_positive k _ Hpos) as Hkpos.
    assert (Hne' : times_of k raw' <> []).
    { intros Hnil. rewrite Hnil in Hk. now apply Permutation_nil_r in Hk. }
    exists (summarise py_sum np fs (k, times_of k raw')).
    rewrite !summary_key_summarise.
    split. { apply in_aggregate. exists k, (times_of k raw'). split; [|reflexivity].
             apply group_samples_spec. now split. }
    destruct k as [[tl op] th]. cbn [summarise n mean_s min_s max_s num_points file_size_bytes].
    rewrite <- (Permutation_length Hk).
    rewrite <- (py_min_Permutation _ _ Hk Hkpos), <- (py_max_Permutation _ _ Hk Hkpos).
    repeat (split; [solve [reflexivity|assumption]|]).
    intros ->. reflexivity.
Qed.

(** ** Claims on the throughput properties *)

Lemma positive_not_zero x : ltb zero x = true -> eqb x zero = false.
Proof. float_order. Qed.

Lemma nonpositive_not_positive x : leb x zero = true -> ltb zero x = false.
Proof. float_order. Qed.

Lemma div_zero_positive x : ltb zero x = true -> div zero x = zero.
Proof. unfold ltb, SFltb, zero, div. destruct x as [[]|[]| |[] m e]; cbn; congruence. Qed.

Lemma float_truediv_positive a x :
  ltb zero x = true -> float_truediv a x = Return (div a x).
Proof. intros Hx. unfold float_truediv. now rewrite positive_not_zero. Qed.

(** C4: with [mean_s > 0] the two properties are the quotients
    [num_points / mean_s] and [(file_size_bytes / 1e6) / mean_s]; they are
    [0.0] when [mean_s > 0] does not hold (in particular when [mean_s <= 0])
    and when the numerator is 0; and the only exception they can raise is
    the [OverflowError] of converting an [int] beyond the range of [float],
    never a [ZeroDivisionError]. *)
Theorem throughput_never_divides_by_zero (s : BenchSummary) :
  (ltb zero (mean_s s) = true ->
     pts_per_s s = match int_to_float (num_points s) with
                   | Return p => Return (div p (mean_s s))
                   | Raise e => Raise e
                   end
     /\ mb_per_s s = match int_to_float (file_size_bytes s) with
                     | Return b => Return (div (div b f1e6) (mean_s s))
                     | Raise e => Raise e
                     end)
  /\ (ltb zero (mean_s s) = false -> pts_per_s s = Return zero /\ mb_per_s s = Return zero)
  /\ (leb (mean_s s) zero = true -> pts_per_s s = Return zero /\ mb_per_s s = Return zero)
  /\ (num_points s = 0 -> pts_per_s s = Return zero)
  /\ (file_size_bytes s = 0 -> mb_per_s s = Return zero)
  /\ (forall e, pts_per_s s = Raise e \/ mb_per_s s = Raise e ->
        exn_cls e = OverflowError /\ exn_cls e <> ZeroDivisionError).
Proof.
  assert (Hpos : ltb zero (mean_s s) = true ->
     pts_per_s s = match int_to_float (num_points s) with
                   | Return p => Return (div p (mean_s s))
                   | Raise e => Raise e
                   end
     /\ mb_per_s s = match int_to_float (file_size_bytes s) with
                     | Return b => Return (div (div b f1e6) (mean_s s))
                     | Raise e => Raise e
                     end).
  { intros Hm. unfold pts_per_s, mb_per_s, int_truediv_float. rewrite Hm. split.
    - destruct (int_to_float (num_points s)); [|reflexivity].
      now apply float_truediv_positive.
    - destruct (int_to_float (file_size_bytes s)) as [b|e]; [|reflexivity].
      rewrite (float_truediv_positive b f1e6) by reflexivity.
      now apply float_truediv_positive. }
  assert (Hneg : ltb zero (mean_s s) = false ->
            pts_per_s s = Return zero /\ mb_per_s s = Return zero).
  { intros Hm. unfold pts_per_s, mb_per_s. now rewrite Hm. }
  repeat split; try (apply Hpos; assumption); try (apply Hneg; assumption).
  - apply Hneg. now apply nonpositive_not_positive.
  - apply Hneg. now apply nonpositive_not_positive.
  - intros Hn. destruct (ltb zero (mean_s s)) eqn:Hm; [|now apply Hneg].
    destruct (Hpos eq_refl) as [-> _]. rewrite Hn.
    change (int_to_float 0) with (Return zero). cbv beta iota.
    now rewrite div_zero_positive.
  - intros Hn. destruct (ltb zero (mean_s s)) eqn:Hm; [|now apply Hneg].
    destruct (Hpos eq_refl) as [_ ->]. rewrite Hn.
    change (int_to_float 0) with (Return zero). cbv beta iota.
    change (div zero f1e6) with zero. now rewrite div_zero_positive.
  - destruct (ltb zero (mean_s s)) eqn:Hm.
    + destruct (Hpos eq_refl) as [Hp Hb]. rewrite Hp, Hb in H. unfold int_to_float in H.
      destruct (is_finite (of_Z (num_points s))), (is_finite (of_Z (file_size_bytes s)));
        destruct H as [H|H]; inversion H; reflexivity.
    + destruct (Hneg eq_refl) as [Hp Hb]. rewrite Hp, Hb in H.
      destruct H as [H|H]; discriminate H.
  - destruct (ltb zero (mean_s s)) eqn:Hm.
    + destruct (Hpos eq_refl) as [Hp Hb]. rewrite Hp, Hb in H. unfold int_to_float in H.
      destruct (is_finite (of_Z (num_points s))), (is_finite (of_Z (file_size_bytes s)));
        destruct H as [H|H]; inversion H; discriminate.
    + destruct (Hneg eq_refl) as [Hp Hb]. rewrite Hp, Hb in H.
      destruct H as [H|H]; discriminate H.
Qed.

(** A summary of 0.25 s over a million points and a 5 MB file: 4e6 points
    and 20 MB per second. *)
Example throughput_example :
  let s := mkBenchSummary "laspp" "read" 1 2 f0_25 f0_25 f0_25 1000000 5000000 in
  pts_per_s s = Return (of_Z 4000000) /\ mb_per_s s = Return (of_Z 20).
Proof. vm_compute. split; reflexivity. Qed.

(** ** Reasoning about computations *)

Section MonadLaws.
Context {St : Type}.

Lemma returns_ret {A} (Q : A -> Prop) a : Q a -> returns (St:=St) Q (ret a).
Proof. intros HQ s. now exists s, a. Qed.

Lemma returns_bind {A B} (Q1 : A -> Prop) (Q2 : B -> Prop) (m : M St A) (f : A -> M St B) :
  returns Q1 m -> (forall a, Q1 a -> returns Q2 (f a)) -> returns Q2 (bind m f).
Proof.
  intros Hm Hf s. destruct (Hm s) as (s1 & a & Hms & Ha).
  destruct (Hf a Ha s1) as (s2 & b & Hfs & Hb).
  exists s2, b. unfold bind. rewrite Hms. now split.
Qed.

Lemma returns_andthen {A} (Q1 : unit -> Prop) (Q : A -> Prop) (m : M St unit) (k : M St A) :
  returns Q1 m -> returns Q k -> returns Q (andthen m k).
Proof. intros Hm Hk. eapply returns_bind; [exact Hm|]. intros _ _. exact Hk. Qed.

Lemma returns_weaken {A} (Q1 Q2 : A -> Prop) (m : M St A) :
  returns Q1 m -> (forall a, Q1 a -> Q2 a) -> returns Q2 m.
Proof.
  intros Hm HQ s. destruct (Hm s) as (s' & a & Heq & Ha). exists s', a. auto.
Qed.

Lemma returns_try_finally {A} (Q : A -> Prop) (Q' : unit -> Prop) (body : M St A) final :
  returns Q body -> returns Q' final -> returns Q (try_finally body final).
Proof.
  intros Hb Hf s. destruct (Hb s) as (s1 & a & Hbs & Ha).
  destruct (Hf s1) as (s2 & [] & Hfs & _).
  exists s2, a. unfold try_finally. rewrite Hbs, Hfs. now split.
Qed.

Lemma returns_try_except {A} (Q : A -> Prop) (body : M St A) catches handler :
  returns Q body -> returns Q (try_except body catches handler).
Proof.
  intros Hb s. destruct (Hb s) as (s1 & a & Hbs & Ha).
  exists s1, a. unfold try_except. rewrite Hbs. now split.
Qed.

Lemma returns_repeat_call {A} (Q : A -> Prop) (fn : M St A) k :
  returns Q fn -> returns (fun _ => True) (repeat_call k fn).
Proof.
  intros Hfn. induction k as [|k IH]; cbn [repeat_call].
  - now apply returns_ret.
  - eapply returns_bind; [exact Hfn|]. intros _ _. exact IH.
Qed.

Section Preserves.
Context (R : St -> St -> Prop) `{!Reflexive R, !Transitive R}.

Lemma preserves_ret {A} (a : A) : preserves R (ret a).
Proof. intros s s' r Heq. inversion Heq. reflexivity. Qed.

Lemma preserves_raise {A} e : preserves R (@raise St A e).
Proof. intros s s' r Heq. inversion Heq. reflexivity. Qed.

Lemma preserves_lift {A} (r : pyres A) : preserves R (lift r).
Proof. intros s s' r' Heq. inversion Heq. reflexivity. Qed.

Lemma preserves_bind {A B} (m : M St A) (f : A -> M St B) :
  preserves R m -> (forall a, preserves R (f a)) -> preserves R (bind m f).
Proof.
  intros Hm Hf s s' r. unfold bind. destruct (m s) as [s1 [a|e]] eqn:Hms; intros Heq.
  - transitivity s1; [eapply Hm; exact Hms|eapply Hf; exact Heq].
  - inversion Heq; subst. eapply Hm; exact Hms.
Qed.

Lemma preserves_andthen {A} (m : M St unit) (k : M St A) :
  preserves R m -> preserves R k -> preserves R (andthen m k).
Proof. intros Hm Hk. apply preserves_bind; [exact Hm|intros _; exact Hk]. Qed.

Lemma preserves_try_except {A} (body : M St A) catches handler :
  preserves R body -> (forall e, preserves R (handler e)) ->
  preserves R (try_except body catches handler).
Proof.
  intros Hb Hh s s' r. unfold try_except.
  destruct (body s) as [s1 [a|e]] eqn:Hbs; intros Heq.
  - inversion Heq; subst. eapply Hb; exact Hbs.
  - destruct (catches e).
    + transitivity s1; [eapply Hb; exact Hbs|eapply Hh; exact Heq].
    + inversion Heq; subst. eapply Hb; exact Hbs.
Qed.

Lemma preserves_try_finally {A} (body : M St A) final :
  preserves R body -> preserves R final -> preserves R (try_finally body final).
Proof.
  intros Hb Hf s s' r. unfold try_finally.
  destruct (body s) as [s1 r1] eqn:Hbs. destruct (final s1) as [s2 [[]|e]] eqn:Hfs;
    intros Heq; inversion Heq; subst;
    (transitivity s1; [eapply Hb; exact Hbs|eapply Hf; exact Hfs]).
Qed.

Lemma preserves_repeat_call {A} (fn : M St A) k :
  preserves R fn -> preserves R (repeat_call k fn).
Proof.
  intros Hfn. induction k as [|k IH]; cbn [repeat_call].
  - apply preserves_ret.
  - apply preserves_bind; [exact Hfn|intros _; exact IH].
Qed.

Lemma preserves_for_each {A} (xs : list A) (body : A -> M St unit) :
  (forall x, preserves R (body x)) -> preserves R (for_each xs body).
Proof.
  intros Hb. induction xs as [|x xs IH]; cbn [for_each].
  - apply preserves_ret.
  - apply preserves_andthen; [apply Hb|exact IH].
Qed.

End Preserves.

Lemma contained_ret {A} (a : A) : contained (@ret St A a).
Proof. intros s s' e Heq. inversion Heq. Qed.

Lemma contained_bind {A B} (m : M St A) (f : A -> M St B) :
  contained m -> (forall a, contained (f a)) -> contained (bind m f).
Proof.
  intros Hm Hf s s' e. unfold bind. destruct (m s) as [s1 [a|e1]] eqn:Hms; intros Heq.
  - eapply Hf; exact Heq.
  - inversion Heq; subst. eapply Hm; exact Hms.
Qed.

Lemma contained_andthen {A} (m : M St unit) (k : M St A) :
  contained m -> contained k -> contained (andthen m k).
Proof. intros Hm Hk. apply contained_bind; [exact Hm|intros _; exact Hk]. Qed.

(** Whatever the body does, [except Exception] with a handler that cannot
    fail leaves no [Exception] behind. *)
Lemma contained_try_except {A} (body : M St A) handler :
  (forall e, contained (handler e)) -> contained (try_except body is_Exception handler).
Proof.
  intros Hh s s' e. unfold try_except.
  destruct (body s) as [s1 [a|e1]] eqn:Hbs; intros Heq; [inversion Heq|].
  destruct (is_Exception e1) eqn:He1.
  - eapply Hh; exact Heq.
  - inversion Heq; subst. exact He1.
Qed.

Lemma contained_for_each {A} (xs : list A) (body : A -> M St unit) :
  (forall x, contained (body x)) -> contained (for_each xs body).
Proof.
  intros Hb. induction xs as [|x xs IH]; cbn [for_each].
  - apply contained_ret.
  - apply contained_andthen; [apply Hb|exact IH].
Qed.

(** A loop stops at the first turn that raises. *)
Lemma for_each_raise {A} (pre post : list A) (x : A) (body : A -> M St unit) s s1 s2 e :
  for_each pre body s = (s1, Return tt) ->
  body x s1 = (s2, Raise e) ->
  for_each (pre ++ x :: post) body s = (s2, Raise e).
Proof.
  revert s. induction pre as [|y pre IH]; intros s; cbn [for_each app].
  - intros Heq Hx. inversion Heq; subst. unfold andthen, bind. now rewrite Hx.
  - unfold andthen, bind. destruct (body y s) as [s' [[]|e']]; [|discriminate].
    intros Hpre Hx. now apply IH.
Qed.

Lemma repeat_call_raise_andthen {A B} k (fn : M St A) (rest : M St B) s s' e :
  repeat_call k fn s = (s', Raise e) -> andthen (repeat_call k fn) rest s = (s', Raise e).
Proof. intros Heq. unfold andthen, bind. now rewrite Heq. Qed.

End MonadLaws.

(** ** Drivers that run in the harness process *)

Section Drivers.
Context `{H : Host}.

Lemma returns_call w : never_fails w -> returns (fun _ => True) (call w).
Proof.
  intros Hw s. destruct (Hw (environ s) (world s)) as (wd' & t & Heq).
  unfold call. rewrite Heq. eauto.
Qed.

Lemma returns_emit ev : returns (fun _ => True) (emit ev).
Proof. intros s. unfold emit. eauto. Qed.

Lemma returns_environ_get k : returns (fun _ => True) (environ_get k).
Proof. intros s. unfold environ_get. eauto. Qed.

Lemma returns_environ_set k v : returns (fun _ => True) (environ_set k v).
Proof. intros s. unfold environ_set. eauto. Qed.

Lemma returns_restore_rayon old : returns (fun _ => True) (restore_rayon old).
Proof. intros s. destruct old; unfold restore_rayon, environ_set, environ_pop; eauto. Qed.

Lemma returns_temp suffix :
  temp_file_available suffix ->
  returns (fun _ => True) (host_op (named_temporary_file suffix)).
Proof.
  intros Ht s. destruct (Ht (world s)) as (wd' & p & Heq).
  unfold host_op. rewrite Heq. eauto.
Qed.

Lemma returns_timed_iterations (fn : M state float) (mk : Z -> float -> BenchResult)
    (P : BenchResult -> Prop) :
  returns (fun _ => True) fn ->
  (forall i t, iteration (mk i t) = i /\ P (mk i t)) ->
  forall k it acc,
    returns (fun rs => exists new, rs = acc ++ new /\ length new = k
                         /\ map iteration new = seqZ it (Z.of_nat k) /\ Forall P new)
            (timed_iterations k it fn mk acc).
Proof.
  intros Hfn Hmk. induction k as [|k IH]; intros it acc; cbn [timed_iterations].
  - apply returns_ret. exists []. rewrite app_nil_r. repeat split; constructor.
  - eapply returns_bind; [exact Hfn|]. intros t _.
    eapply returns_weaken; [apply IH|]. cbv beta.
    intros rs (new & -> & Hlen & Hit & HP).
    exists (mk it t :: new). rewrite <- app_assoc. cbn [app length map].
    destruct (Hmk it t) as [Hi HPi].
    repeat split; [congruence| |now constructor].
    rewrite Hi, Hit. rewrite (seqZ_cons it (Z.of_nat (S k))) by lia.
    do 2 f_equal; lia.
Qed.

(** The two loops of a driver, turned into a [complete_run]. *)
Lemma returns_loops w tl op thr warmup iterations :
  never_fails w ->
  returns (complete_run tl op thr iterations)
    (andthen (repeat_call (range_len warmup) (call w))
       (timed_iterations (range_len iterations) 0 (timed w)
          (fun it t => mkBenchResult tl op thr it t) [])).
Proof.
  intros Hw. eapply returns_andthen.
  - eapply returns_repeat_call. now apply returns_call.
  - eapply returns_weaken.
    + apply (returns_timed_iterations _ _
               (fun r => tool r = tl /\ operation r = op /\ threads r = thr)).
      * now apply returns_call.
      * intros i t. cbn. tauto.
    + cbv beta. intros rs (new & -> & Hlen & Hit & HP). cbn [app].
      unfold complete_run, range_len in *. rewrite Hlen. split; [reflexivity|].
      split; [|exact HP]. rewrite Hit. unfold seqZ. now rewrite Nat2Z.id.
Qed.

Lemma laspy_read_in_process_complete file backend backend_name warmup iterations nt :
  never_fails (LaspyRead file backend) ->
  returns (complete_run backend_name "read" (or_zero nt) iterations)
    (laspy_read_in_process file backend backend_name warmup iterations nt).
Proof.
  intros Hw. unfold laspy_read_in_process.
  eapply returns_bind; [apply returns_environ_get|]. intros old _.
  eapply returns_try_finally; [|apply returns_restore_rayon].
  eapply returns_andthen; [|now apply returns_loops].
  destruct nt; [destruct (bool_decide _)|];
    first [apply returns_environ_set | now apply (returns_ret (fun _ => True))].
Qed.

Lemma laspy_write_complete file backend backend_name warmup iterations chunk_size nt :
  never_fails (LaspyRead file backend) ->
  (forall tmp, never_fails (LaspyWrite file tmp backend chunk_size)) ->
  temp_file_available ".laz" ->
  returns (complete_run backend_name "write" (or_zero nt) iterations)
    (benchmark_laspy_write file backend backend_name warmup iterations chunk_size nt).
Proof.
  intros Hr Hw Ht. unfold benchmark_laspy_write.
  eapply returns_bind; [now apply returns_call|]. intros _ _.
  eapply returns_bind; [now apply returns_temp|]. intros tmp _.
  eapply returns_bind; [apply returns_environ_get|]. intros old _.
  eapply returns_try_finally.
  - eapply returns_andthen; [|now apply returns_loops].
    destruct nt; first [apply returns_environ_set | now apply (returns_ret (fun _ => True))].
  - eapply returns_andthen; [apply returns_restore_rayon|apply returns_emit].
Qed.

Lemma lazrs_read_complete file warmup iterations :
  HAS_LAZRS = true ->
  never_fails (LazrsRead file) ->
  returns (complete_run "lazrs" "read" 0 iterations)
    (benchmark_lazrs_read file warmup iterations).
Proof.
  intros Hhas Hw. unfold benchmark_lazrs_read. rewrite Hhas. cbn [negb].
  eapply returns_bind.
  - apply returns_try_except.
    eapply (returns_bind _ (fun p => p = Some (LazrsRead file)));
      [now apply returns_call|].
    intros _ _. now apply returns_ret.
  - cbv beta. intros probed ->. now apply returns_loops.
Qed.

Lemma pdal_complete op suffix file warmup iterations :
  HAS_PDAL = true ->
  (forall out, never_fails (PdalTranslate file out)) ->
  temp_file_available suffix ->
  returns (complete_run "pdal" op 0 iterations)
    (benchmark_pdal op suffix file warmup iterations).
Proof.
  intros Hhas Hw Ht. unfold benchmark_pdal. rewrite Hhas. cbn [negb].
  eapply returns_bind; [now apply returns_temp|]. intros out _.
  eapply returns_try_finally; [now apply returns_loops|apply returns_emit].
Qed.

End Drivers.

(** ** The subprocess-isolated driver *)

Section Subprocess.
Context `{H : Host}.

Lemma parse_lines_cons backend_name num_threads line rest acc :
  match read_line line with
  | Skipped =>
      parse_lines backend_name num_threads (line :: rest) acc
      = parse_lines backend_name num_threads rest acc
  | Sample it t =>
      parse_lines backend_name num_threads (line :: rest) acc
      = parse_lines backend_name num_threads rest
          (acc ++ [mkBenchResult backend_name "read" num_threads it t])
  | Malformed =>
      exists e, parse_lines backend_name num_threads (line :: rest) acc = Raise e
                /\ exn_cls e = ValueError
  end.
Proof.
  unfold read_line. cbn [parse_lines].
  destruct (char_in comma line); [|reflexivity].
  destruct (py_split comma line) as [|a [|b [|c l]]];
    try (eexists; split; reflexivity).
  destruct (int_of_str a); [destruct (float_of_str b)|];
    first [reflexivity | eexists; split; reflexivity].
Qed.

Lemma samples_of_lines_cons backend_name num_threads line rest :
  samples_of_lines backend_name num_threads (line :: rest)
  = match read_line line with
    | Sample it t =>
        mkBenchResult backend_name "read" num_threads it t
        :: samples_of_lines backend_name num_threads rest
    | _ => samples_of_lines backend_name num_threads rest
    end.
Proof. unfold samples_of_lines. cbn. destruct (read_line line); reflexivity. Qed.

Lemma parse_lines_spec backend_name num_threads lines : forall acc,
  (Exists (fun line => read_line line = Malformed) lines ->
     exists e, parse_lines backend_name num_threads lines acc = Raise e
               /\ exn_cls e = ValueError)
  /\ (Forall (fun line => read_line line <> Malformed) lines ->
     parse_lines backend_name num_threads lines acc
     = Return (acc ++ samples_of_lines backend_name num_threads lines)).
Proof.
  induction lines as [|line rest IH]; intros acc.
  - split.
    + intros Hex. inversion Hex.
    + intros _. cbn. now rewrite app_nil_r.
  - pose proof (parse_lines_cons backend_name num_threads line rest acc) as Hc.
    rewrite samples_of_lines_cons.
    destruct (read_line line) as [|it t|] eqn:Hl.
    + rewrite Hc. destruct (IH acc) as [IH1 IH2]. split.
      * intros Hex. apply Exists_cons in Hex as [Hm|Hr]; [congruence|now apply IH1].
      * intros Hall. apply Forall_cons in Hall as [_ Hall]. now apply IH2.
    + rewrite Hc.
      destruct (IH (acc ++ [mkBenchResult backend_name "read" num_threads it t])) as [IH1 IH2].
      split.
      * intros Hex. apply Exists_cons in Hex as [Hm|Hr]; [congruence|now apply IH1].
      * intros Hall. apply Forall_cons in Hall as [_ Hall]. rewrite (IH2 Hall).
        now rewrite <- app_assoc.
    + split; [intros _; exact Hc|].
      intros Hall. apply Forall_cons in Hall as [Hm _]. congruence.
Qed.

Lemma laspy_read_subprocess_run file backend_name warmup iterations nt s :
  laspy_read_subprocess file backend_name warmup iterations nt s
  = let c := LaspyReadScript nt file warmup iterations in
    let env := child_environ s nt in
    match subprocess_run c env (world s) with
    | (wd, Raise e) => (after_spawn s c env wd, Raise e)
    | (wd, Return proc) =>
        (after_spawn s c env wd,
         if negb (returncode proc =? 0)
         then Raise (mkExn RuntimeError ("laspy subprocess failed: " ++ stderr proc))
         else parse_child_output backend_name nt (stdout proc))
    end.
Proof.
  unfold laspy_read_subprocess, bind, environ_copy, run_process, after_spawn, child_environ.
  cbn zeta. destruct (subprocess_run _ _ _) as [wd [proc|e]]; [|reflexivity].
  destruct (negb _); reflexivity.
Qed.

End Subprocess.

(** ** Claims on the drivers *)

Section DriverClaims.
Context `{H : Host}.

Lemma benchmark_laspy_read_in_process file backend backend_name warmup iterations nt :
  backend <> LazrsParallel \/ nt = None ->
  benchmark_laspy_read file backend backend_name warmup iterations nt
  = laspy_read_in_process file backend backend_name warmup iterations nt.
Proof.
  intros Hb. unfold benchmark_laspy_read. destruct nt as [k|]; [|reflexivity].
  destruct Hb as [Hb|Hb]; [|discriminate]. now rewrite bool_decide_eq_false_2.
Qed.

Lemma benchmark_laspy_read_subprocess file backend_name warmup iterations k :
  benchmark_laspy_read file LazrsParallel backend_name warmup iterations (Some k)
  = laspy_read_subprocess file backend_name warmup iterations k.
Proof. reflexivity. Qed.

Lemma try_finally_raise {A} (body : M state A) final s s1 s2 e :
  body s = (s1, Raise e) -> final s1 = (s2, Return tt) ->
  try_finally body final s = (s2, Raise e).
Proof. intros Hb Hf. unfold try_finally. now rewrite Hb, Hf. Qed.

Lemma loops_warmup_fails {A} w warmup (rest : M state A) final s e :
  warmup_fails w warmup s e ->
  returns (fun _ => True) final ->
  fails_with (try_finally (andthen (repeat_call (range_len warmup) (call w)) rest) final) s e.
Proof.
  intros [s1 Hw] Hf. destruct (Hf s1) as (s2 & [] & Hfs & _).
  exists s2. eapply try_finally_raise; [|exact Hfs].
  now apply repeat_call_raise_andthen.
Qed.

Lemma laspy_read_warmup_fails file backend backend_name warmup iterations nt s e :
  backend <> LazrsParallel \/ nt = None ->
  warmup_fails (LaspyRead file backend) warmup s e ->
  fails_with (benchmark_laspy_read file backend backend_name warmup iterations nt) s e.
Proof.
  intros Hb Hw. rewrite benchmark_laspy_read_in_process by assumption.
  unfold laspy_read_in_process, fails_with, bind, environ_get.
  assert (Hpre : (match nt with
                  | Some k => if bool_decide (backend = LazrsParallel)
                              then environ_set RAYON_NUM_THREADS (str_of_int k)
                              else ret tt
                  | None => ret tt
                  end) = (ret tt : M state unit)).
  { destruct nt as [k|]; [|reflexivity]. destruct Hb as [Hb|Hb]; [|discriminate].
    now rewrite bool_decide_eq_false_2. }
  rewrite Hpre.
  apply (loops_warmup_fails _ _ _ _ s e Hw). apply returns_restore_rayon.
Qed.

Lemma laspy_write_warmup_fails file backend backend_name warmup iterations chunk_size nt
    s s1 s2 t0 tmp e :
  call (LaspyRead file backend) s = (s1, Return t0) ->
  host_op (named_temporary_file ".laz") s1 = (s2, Return tmp) ->
  warmup_fails (LaspyWrite file tmp backend chunk_size) warmup (with_rayon nt s2) e ->
  fails_with
    (benchmark_laspy_write file backend backend_name warmup iterations chunk_size nt) s e.
Proof.
  intros Hr Ht [s3 Hw]. unfold benchmark_laspy_write, fails_with, bind at 1.
  rewrite Hr. unfold bind at 1. rewrite Ht. unfold bind at 1, environ_get.
  unfold try_finally, andthen at 1, bind at 1.
  assert (Hpre : (match nt with
                  | Some k => environ_set RAYON_NUM_THREADS (str_of_int k)
                  | None => ret tt
                  end) s2 = (with_rayon nt s2, Return tt)).
  { destruct nt; reflexivity. }
  rewrite Hpre. rewrite (repeat_call_raise_andthen _ _ _ _ _ _ Hw).
  destruct (returns_andthen _ (fun _ => True) _ _ (returns_restore_rayon (environ s2 !! RAYON_NUM_THREADS))
              (returns_emit (Unlink tmp)) s3) as (s4 & [] & Hfin & _).
  rewrite Hfin. now exists s4.
Qed.

Lemma lazrs_warmup_fails file warmup iterations s s1 t0 e :
  HAS_LAZRS = true ->
  call (LazrsRead file) s = (s1, Return t0) ->
  warmup_fails (LazrsRead file) warmup s1 e ->
  fails_with (benchmark_lazrs_read file warmup iterations) s e.
Proof.
  intros Hhas Hp [s2 Hw]. unfold benchmark_lazrs_read, fails_with. rewrite Hhas. cbn [negb].
  unfold bind at 1, try_except, bind at 1. rewrite Hp. cbn [ret].
  exists s2. now apply repeat_call_raise_andthen.
Qed.

Lemma lazrs_fallback_warmup_fails file warmup iterations s s1 s2 e0 t0 e :
  HAS_LAZRS = true ->
  call (LazrsRead file) s = (s1, Raise e0) ->
  is_AttributeError e0 = true ->
  call (LazrsReadFallback file) s1 = (s2, Return t0) ->
  warmup_fails (LazrsReadFallback file) warmup s2 e ->
  fails_with (benchmark_lazrs_read file warmup iterations) s e.
Proof.
  intros Hhas Hp Ha Hf [s3 Hw]. unfold benchmark_lazrs_read, fails_with. rewrite Hhas. cbn [negb].
  unfold bind at 1, try_except at 1, bind at 1. rewrite Hp.
  assert (He : is_Exception e0 = true).
  { unfold is_AttributeError in Ha. unfold is_Exception. now destruct (exn_cls e0). }
  rewrite He, Ha. unfold try_except, bind at 1. rewrite Hf. cbn [ret].
  exists s3. now apply repeat_call_raise_andthen.
Qed.

Lemma pdal_warmup_fails op suffix file warmup iterations s s1 out e :
  HAS_PDAL = true ->
  host_op (named_temporary_file suffix) s = (s1, Return out) ->
  warmup_fails (PdalTranslate file out) warmup s1 e ->
  fails_with (benchmark_pdal op suffix file warmup iterations) s e.
Proof.
  intros Hhas Ht Hw. unfold benchmark_pdal, fails_with. rewrite Hhas. cbn [negb].
  unfold bind at 1. rewrite Ht.
  apply (loops_warmup_fails _ _ _ _ s1 e Hw). apply returns_emit.
Qed.

Lemma child_environ_idem s nt :
  <[RAYON_NUM_THREADS := str_of_int nt]> (child_environ s nt) = child_environ s nt.
Proof. unfold child_environ. apply insert_insert_eq. Qed.

Lemma subprocess_warmup_fails file backend_name warmup iterations nt s wd e :
  child_runs_script ->
  pastes_verbatim file = true ->
  script_warmup (range_len warmup) (LaspyRead file LazrsParallel)
    (child_environ s nt) (world s) = (wd, Some e) ->
  fails_with
    (benchmark_laspy_read file LazrsParallel backend_name warmup iterations (Some nt)) s
    (mkExn RuntimeError ("laspy subprocess failed: " ++ traceback e)).
Proof.
  intros Hchild Hfile Hw. rewrite benchmark_laspy_read_subprocess.
  unfold fails_with. rewrite laspy_read_subprocess_run. cbn zeta.
  rewrite Hchild by exact Hfile. unfold laspy_read_script. rewrite child_environ_idem, Hw.
  eexists. reflexivity.
Qed.

End DriverClaims.

(** ** Frame properties *)

Section Frames.
Context `{H : Host}.

Global Instance same_environ_refl : Reflexive same_environ.
Proof. intros s. reflexivity. Qed.
Global Instance same_environ_trans : Transitive same_environ.
Proof. intros s1 s2 s3. unfold same_environ. congruence. Qed.
Global Instance same_writes_refl : Reflexive same_writes.
Proof. intros s. reflexivity. Qed.
Global Instance same_writes_trans : Transitive same_writes.
Proof. intros s1 s2 s3. unfold same_writes. congruence. Qed.
Global Instance main_same_writes_refl : Reflexive main_same_writes.
Proof. intros s. reflexivity. Qed.
Global Instance main_same_writes_trans : Transitive main_same_writes.
Proof. intros s1 s2 s3. unfold main_same_writes, same_writes. congruence. Qed.
Global Instance keeps_results_refl : Reflexive keeps_results.
Proof. intros s. exists []. now rewrite app_nil_r. Qed.
Global Instance keeps_results_trans : Transitive keeps_results.
Proof.
  intros s1 s2 s3 [m1 H1] [m2 H2]. exists (m1 ++ m2). now rewrite H2, H1, app_assoc.
Qed.

Lemma writes_snoc tr ev :
  writes (tr ++ [ev]) = writes tr ++ match ev with WriteText p => [p] | _ => [] end.
Proof. unfold writes. rewrite omap_app. f_equal. now destruct ev. Qed.

Lemma preserves_timed_iterations (R : state -> state -> Prop)
    `{!Reflexive R, !Transitive R} k it (fn : M state float) mk acc :
  preserves R fn -> preserves R (timed_iterations k it fn mk acc).
Proof.
  intros Hfn. revert it acc. induction k as [|k IH]; intros it acc; cbn [timed_iterations].
  - now apply preserves_ret.
  - apply preserves_bind; [assumption..|]. intros t. apply IH.
Qed.

(** Helpers of the harness that leave the environment as it is. *)
Lemma same_environ_call w : preserves same_environ (call w).
Proof.
  intros s s' r. unfold call. destruct (call_workload _ _ _). intros Heq.
  now inversion Heq.
Qed.

Lemma same_environ_emit ev : preserves same_environ (emit ev).
Proof. intros s s' r Heq. now inversion Heq. Qed.

Lemma same_environ_host_op {A} (op : World -> World * pyres A) :
  preserves same_environ (host_op op).
Proof.
  intros s s' r. unfold host_op. destruct (op _). intros Heq. now inversion Heq.
Qed.

(** Helpers of the harness that hand no path to [write_text]. *)
Lemma same_writes_call w : preserves same_writes (call w).
Proof.
  intros s s' r. unfold call. destruct (call_workload _ _ _). intros Heq.
  inversion Heq; subst. unfold same_writes. cbn. rewrite writes_snoc. apply app_nil_r.
Qed.

Lemma same_writes_emit ev :
  match ev with WriteText _ => False | _ => True end -> preserves same_writes (emit ev).
Proof.
  intros Hev s s' r Heq. inversion Heq; subst. unfold same_writes. cbn.
  rewrite writes_snoc. destruct ev; try contradiction; apply app_nil_r.
Qed.

Lemma same_writes_host_op {A} (op : World -> World * pyres A) :
  preserves same_writes (host_op op).
Proof.
  intros s s' r. unfold host_op. destruct (op _). intros Heq. now inversion Heq.
Qed.

Lemma same_writes_host_query {A} (q : World -> A) : preserves same_writes (host_query q).
Proof. intros s s' r Heq. now inversion Heq. Qed.

Lemma same_writes_environ_get k : preserves same_writes (environ_get k).
Proof. intros s s' r Heq. now inversion Heq. Qed.

Lemma same_writes_environ_copy : preserves same_writes environ_copy.
Proof. intros s s' r Heq. now inversion Heq. Qed.

Lemma same_writes_environ_set k v : preserves same_writes (environ_set k v).
Proof.
  intros s s' r Heq. inversion Heq; subst. unfold same_writes. cbn.
  rewrite writes_snoc. apply app_nil_r.
Qed.

Lemma same_writes_environ_pop k : preserves same_writes (environ_pop k).
Proof.
  intros s s' r Heq. inversion Heq; subst. unfold same_writes. cbn.
  rewrite writes_snoc. apply app_nil_r.
Qed.

Lemma same_writes_run_process c env : preserves same_writes (run_process c env).
Proof.
  intros s s' r. unfold run_process. destruct (subprocess_run _ _ _). intros Heq.
  inversion Heq; subst. unfold same_writes. cbn. rewrite writes_snoc. apply app_nil_r.
Qed.

End Frames.

(** Decomposes a frame goal along the structure of the program. *)
Ltac frame_step :=
  first
    [ apply preserves_ret | apply preserves_raise | apply preserves_lift
    | apply preserves_bind | apply preserves_andthen
    | apply preserves_try_except | apply preserves_try_finally
    | apply preserves_repeat_call | apply preserves_for_each
    | apply preserves_timed_iterations
    | apply same_writes_call | apply same_writes_emit | apply same_writes_host_op
    | apply same_writes_host_query | apply same_writes_environ_get
    | apply same_writes_environ_copy | apply same_writes_environ_set
    | apply same_writes_environ_pop | apply same_writes_run_process
    | apply same_environ_call | apply same_environ_emit | apply same_environ_host_op
    | exact I
    | exact _
    | match goal with
      | |- forall _, _ => intro
      | |- preserves _ (if ?b then _ else _) => destruct b
      | |- preserves _ (match ?x with _ => _ end) => destruct x
      | |- preserves _ (let '(_, _) := ?x in _) => destruct x
      end ].

Ltac frame := repeat frame_step.

Section DriverFrames.
Context `{H : Host}.

Lemma same_writes_restore_rayon old : preserves same_writes (restore_rayon old).
Proof. unfold restore_rayon. frame. Qed.

Lemma same_writes_laspy_read file backend backend_name warmup iterations nt :
  preserves same_writes (benchmark_laspy_read file backend backend_name warmup iterations nt).
Proof.
  unfold benchmark_laspy_read, laspy_read_subprocess, laspy_read_in_process, restore_rayon, timed.
  frame.
Qed.

Lemma same_writes_laspy_write file backend backend_name warmup iterations chunk_size nt :
  preserves same_writes
    (benchmark_laspy_write file backend backend_name warmup iterations chunk_size nt).
Proof. unfold benchmark_laspy_write, restore_rayon, timed. frame. Qed.

Lemma same_writes_lazrs_read file warmup iterations :
  preserves same_writes (benchmark_lazrs_read file warmup iterations).
Proof. unfold benchmark_lazrs_read, timed. frame. Qed.

Lemma same_writes_pdal op suffix file warmup iterations :
  preserves same_writes (benchmark_pdal op suffix file warmup iterations).
Proof. unfold benchmark_pdal, timed. frame. Qed.

Lemma same_writes_run_cpp binary file thread_counts iterations warmup operation chunk_size l1 l2 :
  preserves same_writes
    (run_cpp_benchmark binary file thread_counts iterations warmup operation chunk_size l1 l2).
Proof. unfold run_cpp_benchmark. frame. Qed.

Lemma same_writes_find_binary hint : preserves same_writes (find_benchmark_binary hint).
Proof. unfold find_benchmark_binary. frame. Qed.

Lemma same_writes_detect : preserves same_writes detect_laspy_backends.
Proof. unfold detect_laspy_backends. frame. Qed.

End DriverFrames.

Section MainFrames.
Context `{H : Host}.

Lemma run_emit ev ms : run (emit ev) ms = (logged ms ev, Return tt).
Proof. reflexivity. Qed.

Lemma main_same_writes_run {A} (m : M state A) :
  preserves same_writes m -> preserves main_same_writes (run m).
Proof.
  intros Hm ms ms' r. unfold run. destruct (m (harness ms)) as [s' r'] eqn:Heq.
  intros Hr. inversion Hr; subst. unfold main_same_writes. cbn. eapply Hm. exact Heq.
Qed.

Lemma keeps_results_run {A} (m : M state A) : preserves keeps_results (run m).
Proof.
  intros ms ms' r. unfold run. destruct (m (harness ms)) as [s' r'].
  intros Hr. inversion Hr; subst. exists []. cbn. now rewrite app_nil_r.
Qed.

Lemma main_same_writes_extend res : preserves main_same_writes (extend res).
Proof. intros ms ms' r Heq. inversion Heq; subst. reflexivity. Qed.

Lemma keeps_results_extend res : preserves keeps_results (extend res).
Proof. intros ms ms' r Heq. inversion Heq; subst. now exists res. Qed.

Lemma main_same_writes_metadata_update meta : preserves main_same_writes (metadata_update meta).
Proof. intros ms ms' r Heq. inversion Heq; subst. reflexivity. Qed.

Lemma keeps_results_metadata_update meta : preserves keeps_results (metadata_update meta).
Proof. intros ms ms' r Heq. inversion Heq; subst. exists []. cbn. now rewrite app_nil_r. Qed.

Lemma main_same_writes_set_locals results md : preserves main_same_writes (set_locals results md).
Proof. intros ms ms' r Heq. inversion Heq; subst. reflexivity. Qed.

Lemma contained_run_emit ev : contained (run (emit ev)).
Proof. intros ms ms' e Heq. inversion Heq. Qed.

Lemma contained_extend res : contained (extend res).
Proof. intros ms ms' e Heq. inversion Heq. Qed.

Lemma contained_metadata_update meta : contained (metadata_update meta).
Proof. intros ms ms' e Heq. inversion Heq. Qed.

Lemma contained_run_find hint : contained (run (find_benchmark_binary hint)).
Proof. intros ms ms' e Heq. inversion Heq. Qed.

Lemma contained_run {A} (m : M state A) : contained m -> contained (run m).
Proof.
  intros Hm ms ms' e. unfold run. destruct (m (harness ms)) as [s' r] eqn:Heq.
  intros Hr. inversion Hr; subst. eapply Hm. exact Heq.
Qed.

Lemma contained_detect : contained detect_laspy_backends.
Proof.
  unfold detect_laspy_backends. destruct (negb HAS_LASPY); [apply contained_ret|].
  repeat (apply contained_bind; [apply contained_try_except; intros; apply contained_ret|intros ?]).
  apply contained_ret.
Qed.

End MainFrames.

Ltac main_frame_step :=
  first
    [ apply main_same_writes_run | apply keeps_results_run
    | apply main_same_writes_extend | apply keeps_results_extend
    | apply main_same_writes_metadata_update | apply keeps_results_metadata_update
    | apply main_same_writes_set_locals
    | apply same_writes_laspy_read | apply same_writes_laspy_write
    | apply same_writes_lazrs_read | apply same_writes_pdal | apply same_writes_run_cpp
    | apply same_writes_find_binary | apply same_writes_detect
    | frame_step ].

Ltac main_frame := repeat main_frame_step.

(** Decomposes a goal [contained m] for the blocks of [main]. *)
Ltac contain :=
  repeat first
    [ apply contained_ret | apply contained_run_emit | apply contained_extend
    | apply contained_metadata_update | apply contained_run_find
    | apply contained_try_except
    | apply contained_for_each
    | apply contained_andthen | apply contained_bind
    | apply contained_run; apply contained_detect
    | match goal with
      | |- forall _, _ => intro
      | |- contained (if ?b then _ else _) => destruct b
      | |- contained (match ?x with _ => _ end) => destruct x
      end ].

Section MainClaims.
Context `{H : Host}.

Lemma when_spec (b : bool) (m : M main_state unit) : when b m = if b then m else ret tt.
Proof. reflexivity. Qed.

Lemma contained_cpp_section args tools thread_counts do_write :
  contained (cpp_section args tools thread_counts do_write).
Proof. unfold cpp_section, when, warn_failed. contain. Qed.

Lemma contained_laspy_section args tools thread_counts do_read do_write :
  contained (laspy_section args tools thread_counts do_read do_write).
Proof. unfold laspy_section, laspy_backend, warn_failed. contain. Qed.

Lemma contained_lazrs_section args tools do_read :
  contained (lazrs_section args tools do_read).
Proof. unfold lazrs_section, warn_failed. contain. Qed.

Lemma contained_pdal_section args tools do_read do_write :
  contained (pdal_section args tools do_read do_write).
Proof. unfold pdal_section, warn_failed. contain. Qed.

Lemma keeps_results_cpp_section args tools thread_counts do_write :
  preserves keeps_results (cpp_section args tools thread_counts do_write).
Proof. unfold cpp_section, when, warn_failed. main_frame. Qed.

Lemma keeps_results_laspy_section args tools thread_counts do_read do_write :
  preserves keeps_results (laspy_section args tools thread_counts do_read do_write).
Proof. unfold laspy_section, laspy_backend, laspy_cell, when, warn_failed. main_frame. Qed.

Lemma keeps_results_lazrs_section args tools do_read :
  preserves keeps_results (lazrs_section args tools do_read).
Proof. unfold lazrs_section, when, warn_failed. main_frame. Qed.

Lemma keeps_results_pdal_section args tools do_read do_write :
  preserves keeps_results (pdal_section args tools do_read do_write).
Proof. unfold pdal_section, when, warn_failed. main_frame. Qed.

Lemma same_writes_measure_all args tools thread_counts do_read do_write :
  preserves main_same_writes (measure_all args tools thread_counts do_read do_write).
Proof.
  unfold measure_all, cpp_section, laspy_section, laspy_backend, laspy_cell, lazrs_section,
    pdal_section, benchmark_pdal_read, benchmark_pdal_write, when, warn_failed.
  main_frame.
Qed.

End MainClaims.

(** ** Claims on [main] *)

Section ExitStatus.
Context `{H : Host}.

Lemma bind_Return_inv {St A B} (m : M St A) (f : A -> M St B) s s' b :
  bind m f s = (s', Return b) ->
  exists s1 a, m s = (s1, Return a) /\ f a s1 = (s', Return b).
Proof.
  unfold bind. destruct (m s) as [s1 [a|e]]; [|discriminate]. intros Hf. now exists s1, a.
Qed.

Lemma andthen_Return_inv {St B} (m : M St unit) (k : M St B) s s' b :
  andthen m k s = (s', Return b) ->
  exists s1, m s = (s1, Return tt) /\ k s1 = (s', Return b).
Proof.
  intros Hb. apply bind_Return_inv in Hb as (s1 & [] & Hm & Hk). now exists s1.
Qed.

Global Instance same_results_refl : Reflexive same_results.
Proof. intros s. reflexivity. Qed.
Global Instance same_results_trans : Transitive same_results.
Proof. intros s1 s2 s3. unfold same_results. congruence. Qed.

Lemma same_results_run {A} (m : M state A) : preserves same_results (run m).
Proof.
  intros ms ms' r. unfold run. destruct (m (harness ms)) as [s' r'].
  intros Hr. now inversion Hr.
Qed.

Lemma report_section_empty args ms :
  all_results ms = [] ->
  report_section args ms
  = (logged ms (PrintErr "No benchmark results collected."), Return 1).
Proof.
  intros He. unfold report_section, bind at 1, get_results. rewrite He. reflexivity.
Qed.

Lemma report_section_nonempty args ms :
  all_results ms <> [] -> report_section args ms = report_tail args (all_results ms) ms.
Proof.
  intros Hne. unfold report_section, bind at 1, get_results.
  destruct (all_results ms) as [|r rs]; [congruence|reflexivity].
Qed.

Lemma report_tail_same_results args results : preserves same_results (report_tail args results).
Proof.
  unfold report_tail, when, get_metadata.
  repeat first
    [ apply same_results_run
    | apply preserves_bind | apply preserves_andthen | apply preserves_ret | apply preserves_lift
    | exact _
    | match goal with
      | |- forall _, _ => intro
      | |- preserves _ (if ?b then _ else _) => destruct b
      | |- preserves _ (match ?x with _ => _ end) => destruct x
      | |- preserves _ (fun ms => (ms, _)) => intros ? ? ? Heq; inversion Heq; reflexivity
      end ].
Qed.

Lemma report_tail_code args results ms ms' code :
  report_tail args results ms = (ms', Return code) -> code = 0.
Proof.
  unfold report_tail. intros Hr.
  apply bind_Return_inv in Hr as (s1 & md & _ & Hr).
  apply andthen_Return_inv in Hr as (s2 & _ & Hr).
  apply andthen_Return_inv in Hr as (s3 & _ & Hr).
  apply andthen_Return_inv in Hr as (s4 & _ & Hr).
  now inversion Hr.
Qed.

Lemma report_section_code args ms ms' code :
  report_section args ms = (ms', Return code) ->
  (code = 1 /\ all_results ms = []
   /\ ms' = logged ms (PrintErr "No benchmark results collected."))
  \/ (code = 0 /\ all_results ms <> [] /\ all_results ms' = all_results ms).
Proof.
  destruct (all_results ms) as [|r rs] eqn:Hres.
  - rewrite report_section_empty by assumption. intros Heq. inversion Heq. left. tauto.
  - rewrite report_section_nonempty by congruence. intros Heq. right.
    split; [eapply report_tail_code; exact Heq|]. split; [congruence|].
    rewrite <- Hres. eapply report_tail_same_results. exact Heq.
Qed.

Lemma writes_logged ms ev :
  match ev with WriteText _ => False | _ => True end ->
  writes (trace (harness (logged ms ev))) = writes (trace (harness ms)).
Proof. intros Hev. cbn. rewrite writes_snoc. destruct ev; try contradiction; apply app_nil_r. Qed.

(** C8: when the input file does not exist, [main] prints the error and
    returns 1 before anything else happens; whenever [main] returns, the code
    is 0 or 1; it is 0 only if the file exists and at least one sample was
    collected; after a return of 1 no path was handed to [write_text]
    (whatever [--output] says); with an existing file the code is 1 exactly
    when no sample was collected; and the reporting step always returns 1 on
    an empty sample list. *)
Theorem main_exit_status (args : Args) (ms : main_state) :
  (path_exists (a_file args) (world (harness ms)) = false ->
     main args ms
     = (logged ms (PrintErr ("Error: file not found: " ++ a_file args)), Return 1))
  /\ (forall ms' code, main args ms = (ms', Return code) ->
        (code = 0 \/ code = 1)
        /\ (code = 0 ->
            all_results ms' <> []
            /\ path_exists (a_file args) (world (harness ms)) = true)
        /\ (code = 1 -> writes (trace (harness ms')) = writes (trace (harness ms)))
        /\ (path_exists (a_file args) (world (harness ms)) = true ->
            (code = 1 <-> all_results ms' = [])))
  /\ (forall ms1, all_results ms1 = [] ->
        report_section args ms1
        = (logged ms1 (PrintErr "No benchmark results collected."), Return 1)).
Proof.
  split; [|split]; [| |intros ms1; apply report_section_empty].
  - intros Hno. unfold main, bind at 1, run at 1, host_query. cbn [harness]. rewrite Hno.
    reflexivity.
  - intros ms' code. unfold main, bind at 1, run at 1, host_query. cbn [harness].
    destruct (path_exists (a_file args) (world (harness ms))) eqn:Hfile; cbn [negb].
    + intros Hm.
      apply bind_Return_inv in Hm as (ms0 & counts & Hparse & Hm).
      unfold lift in Hparse. inversion Hparse; subst ms0. clear Hparse.
      apply bind_Return_inv in Hm as (ms0 & size & Hstat & Hm).
      inversion Hstat; subst ms0. clear Hstat.
      apply andthen_Return_inv in Hm as (ms0 & Hset & Hm).
      apply andthen_Return_inv in Hm as (ms1 & Hmeasure & Hm).
      assert (Hw : writes (trace (harness ms1)) = writes (trace (harness ms))).
      { apply same_writes_measure_all in Hmeasure. unfold main_same_writes, same_writes in Hmeasure.
        rewrite Hmeasure. inversion Hset. reflexivity. }
      apply report_section_code in Hm as [(-> & Hempty & ->)|(-> & Hne & Hsame)].
      * split; [now right|]. split; [discriminate|].
        split; [intros _; rewrite writes_logged by exact I; exact Hw|].
        intros _. split; [intros _; exact Hempty|reflexivity].
      * split; [now left|]. split; [intros _; split; [congruence|reflexivity]|].
        split; [discriminate|]. intros _. split; [discriminate|congruence].
    + intros Hm. inversion Hm; subst.
      split; [now right|]. split; [discriminate|].
      split; [intros _; apply writes_logged; exact I|]. discriminate.
Qed.

End ExitStatus.

Section Containment.
Context `{H : Host}.

(** The first cell of a laspy backend that fails ends the backend's loop:
    the warning is printed, and the state is the one the failing cell left. *)
Lemma laspy_backend_first_failure args laspy_backends thread_counts do_read do_write
    backend_key backend_enum label pre n_threads post ms ms1 ms2 e :
  backends_get laspy_backends backend_key = true ->
  (if bool_decide (backend_key = "laspy_lazrs_parallel") then thread_counts else [1])
  = pre ++ n_threads :: post ->
  for_each pre (laspy_cell args backend_enum label do_read do_write)
    (logged ms (Print ("Benchmarking " ++ label ++ "..."))) = (ms1, Return tt) ->
  laspy_cell args backend_enum label do_read do_write n_threads ms1 = (ms2, Raise e) ->
  is_Exception e = true ->
  laspy_backend args laspy_backends thread_counts do_read do_write
    (backend_key, backend_enum, label) ms
  = (logged ms2 (PrintErr ("WARNING: " ++ label ++ " benchmark failed: " ++ exn_msg e)),
     Return tt).
Proof.
  intros Hget Hsplit Hpre Hcell He. unfold laspy_backend. rewrite Hget. cbn [negb].
  unfold andthen at 1, bind at 1. rewrite run_emit. unfold try_except.
  rewrite Hsplit, (for_each_raise pre post n_threads _ _ ms1 ms2 e Hpre Hcell), He.
  reflexivity.
Qed.

Lemma cpp_section_failure args (tools : list string) thread_counts (do_write : bool)
    binary ms ms2 e :
  (bool_decide ("laspp" ∈ tools) || bool_decide ("laszip" ∈ tools))%bool = true ->
  run (find_benchmark_binary (a_benchmark_binary args)) ms = (ms, Return (Some binary)) ->
  run (run_cpp_benchmark binary (a_file args)
         (if bool_decide ("laspp" ∈ tools) then thread_counts else [1])
         (a_iterations args) (a_warmup args) (a_operation args)
         (if do_write then Some (a_chunk_size args) else None)
         (bool_decide ("laszip" ∈ tools)) true)
    (logged ms (Print ("Using C++ benchmark binary: " ++ binary))) = (ms2, Raise e) ->
  is_Exception e = true ->
  cpp_section args tools thread_counts do_write ms
  = (logged ms2 (PrintErr ("WARNING: C++ benchmark failed: " ++ exn_msg e)), Return tt).
Proof.
  intros Hneeds Hfind Hrun He. unfold cpp_section. rewrite Hneeds. cbn [when].
  unfold bind at 1. rewrite Hfind. unfold andthen at 1, bind at 1. rewrite run_emit.
  unfold try_except, bind at 1. rewrite Hrun, He. reflexivity.
Qed.

Lemma pdal_section_read_failure args (tools : list string) do_write ms ms2 e :
  (bool_decide ("pdal" ∈ tools) && HAS_PDAL)%bool = true ->
  run (benchmark_pdal_read (a_file args) (a_warmup args) (a_iterations args))
    (logged ms (Print "Benchmarking pdal...")) = (ms2, Raise e) ->
  is_Exception e = true ->
  pdal_section args tools true do_write ms
  = (logged ms2 (PrintErr ("WARNING: PDAL benchmark failed: " ++ exn_msg e)), Return tt).
Proof.
  intros Hp Hrun He. unfold pdal_section. rewrite Hp.
  unfold andthen at 1, bind at 1. rewrite run_emit. unfold try_except.
  cbn [when]. unfold andthen at 1, bind at 1, bind at 1. rewrite Hrun, He. reflexivity.
Qed.

Lemma lazrs_section_failure args (tools : list string) ms ms2 e :
  (bool_decide ("lazrs" ∈ tools) && HAS_LAZRS)%bool = true ->
  run (benchmark_lazrs_read (a_file args) (a_warmup args) (a_iterations args))
    (logged ms (Print "Benchmarking lazrs (direct)...")) = (ms2, Raise e) ->
  is_Exception e = true ->
  lazrs_section args tools true ms
  = (logged ms2 (PrintErr ("WARNING: lazrs benchmark failed: " ++ exn_msg e)), Return tt).
Proof.
  intros Hl Hrun He. unfold lazrs_section. rewrite Hl.
  unfold andthen at 1, bind at 1. rewrite run_emit. unfold try_except.
  cbn [when]. unfold bind at 1. rewrite Hrun, He. reflexivity.
Qed.

(** A failing PDAL write: what the read before it collected stays. *)
Lemma pdal_section_write_failure args (tools : list string) (do_read : bool) ms ms1 ms2 e :
  (bool_decide ("pdal" ∈ tools) && HAS_PDAL)%bool = true ->
  when do_read
    (bind (run (benchmark_pdal_read (a_file args) (a_warmup args) (a_iterations args)))
          extend)
    (logged ms (Print "Benchmarking pdal...")) = (ms1, Return tt) ->
  run (benchmark_pdal_write (a_file args) (a_warmup args) (a_iterations args)) ms1
  = (ms2, Raise e) ->
  is_Exception e = true ->
  pdal_section args tools do_read true ms
  = (logged ms2 (PrintErr ("WARNING: PDAL benchmark failed: " ++ exn_msg e)), Return tt).
Proof.
  intros Hp Hread Hwrite He. unfold pdal_section. rewrite Hp.
  unfold andthen at 1, bind at 1. rewrite run_emit. unfold try_except.
  unfold andthen at 1, bind at 1. rewrite Hread.
  cbn [when]. unfold bind at 1. rewrite Hwrite, He. reflexivity.
Qed.

(** [main] runs its four measuring blocks one after the other, each from
    the state the one before it left. *)
Lemma measure_all_runs_every_block args tools thread_counts do_read do_write ms ms4 :
  measure_all args tools thread_counts do_read do_write ms = (ms4, Return tt)
  <-> exists ms1 ms2 ms3,
        cpp_section args tools thread_counts do_write ms = (ms1, Return tt)
        /\ laspy_section args tools thread_counts do_read do_write ms1 = (ms2, Return tt)
        /\ lazrs_section args tools do_read ms2 = (ms3, Return tt)
        /\ pdal_section args tools do_read do_write ms3 = (ms4, Return tt).
Proof.
  unfold measure_all, andthen, bind. split.
  - destruct (cpp_section _ _ _ _ ms) as [ms1 [[]|e1]] eqn:H1; [|discriminate].
    destruct (laspy_section _ _ _ _ _ ms1) as [ms2 [[]|e2]] eqn:H2; [|discriminate].
    destruct (lazrs_section _ _ _ ms2) as [ms3 [[]|e3]] eqn:H3; [|discriminate].
    intros Hp. exists ms1, ms2, ms3. repeat split; assumption.
  - intros (ms1 & ms2 & ms3 & H1 & H2 & H3 & H4). now rewrite H1, H2, H3.
Qed.

Lemma contained_measure_all args tools thread_counts do_read do_write :
  contained (measure_all args tools thread_counts do_read do_write).
Proof.
  unfold measure_all.
  repeat first [ apply contained_andthen | apply contained_cpp_section
               | apply contained_laspy_section | apply contained_lazrs_section
               | apply contained_pdal_section ].
Qed.

Lemma keeps_results_measure_all args tools thread_counts do_read do_write :
  preserves keeps_results (measure_all args tools thread_counts do_read do_write).
Proof.
  unfold measure_all.
  repeat first [ apply preserves_andthen | exact _ | apply keeps_results_cpp_section
               | apply keeps_results_laspy_section | apply keeps_results_lazrs_section
               | apply keeps_results_pdal_section ].
Qed.

(** With an input file and well-formed thread counts, [main] is the four
    measuring blocks followed by the report. *)
Lemma contained_laspy_backend args laspy_backends thread_counts do_read do_write b :
  contained (laspy_backend args laspy_backends thread_counts do_read do_write b).
Proof. destruct b as [[backend_key backend_enum] label]. unfold laspy_backend, warn_failed. contain. Qed.

Lemma keeps_results_laspy_backend args laspy_backends thread_counts do_read do_write b :
  preserves keeps_results (laspy_backend args laspy_backends thread_counts do_read do_write b).
Proof.
  destruct b as [[backend_key backend_enum] label].
  unfold laspy_backend, laspy_cell, when, warn_failed. main_frame.
Qed.

(** The laspy block runs both backends, the second from the state the
    first left. *)
Lemma laspy_section_runs_both_backends args tools thread_counts do_read do_write
    ms ms0 laspy_backends ms' :
  (bool_decide ("laspy" ∈ tools) && HAS_LASPY)%bool = true ->
  run detect_laspy_backends ms = (ms0, Return laspy_backends) ->
  laspy_section args tools thread_counts do_read do_write ms = (ms', Return tt)
  <-> exists ms1,
        laspy_backend args laspy_backends thread_counts do_read do_write
          ("laspy_lazrs_parallel", LazrsParallel, "laspy (lazrs-parallel)") ms0
        = (ms1, Return tt)
        /\ laspy_backend args laspy_backends thread_counts do_read do_write
             ("laspy_laszip", Laszip, "laspy (laszip)") ms1
           = (ms', Return tt).
Proof.
  intros Hon Hdet. apply andb_true_iff in Hon as [Hin Hhas].
  unfold laspy_section, bind at 1. rewrite Hhas, Hdet, Hin. cbn [andb for_each].
  set (body := laspy_backend _ _ _ _ _).
  unfold andthen, bind, ret. split.
  - destruct (body (_, _, "laspy (lazrs-parallel)") ms0) as [ms1 [[]|e1]] eqn:H1; [|discriminate].
    destruct (body (_, _, "laspy (laszip)") ms1) as [ms2 [[]|e2]] eqn:H2; [|discriminate].
    intros [= <-]. now exists ms1.
  - intros (ms1 & H1 & H2). now rewrite H1, H2.
Qed.

Lemma main_measures_then_reports args ms thread_counts :
  path_exists (a_file args) (world (harness ms)) = true ->
  parse_ints (py_split comma (a_threads args)) = Return thread_counts ->
  main args ms
  = andthen (measure_all args (tools_of args) thread_counts (reads args) (writes_too args))
      (report_section args)
      (mkMainState (harness ms) []
         {| md_file := a_file args; md_num_points := 0;
            md_file_size_bytes := stat_size (a_file args) (world (harness ms));
            md_has_thread_control := false |}).
Proof.
  intros Hfile Hparse. unfold main, bind at 1, run at 1, host_query. cbn [harness].
  rewrite Hfile. cbn [negb]. unfold bind at 1, lift. rewrite Hparse. reflexivity.
Qed.

(** C5 (amended): the error boundary of [main] is around each tool, not
    around each cell.  Every measuring block ends normally unless an
    exception outside [Exception] passes, and it only adds to the samples
    collected so far.  [main] runs the four blocks one after the other,
    each from the state the block before it left, and then the report: a
    block in which a driver has failed has ended normally, so the blocks
    after it run; no [Exception] of a driver leaves the measuring part.
    When a cell of a laspy backend raises an [Exception], the loop over that
    backend's thread counts ends there: the warning naming the backend and
    the cause is printed, the samples collected up to the failure are kept,
    and the thread counts after the failing one are not run.  The same
    holds for the single call of the benchmark binary, for the lazrs block,
    and for the PDAL block, where a failed read skips the write and a failed
    write keeps the samples of the read.  The laspy block runs its two
    backends one after the other, each with an error boundary of its own. *)
Theorem failure_contained_per_tool (args : Args) (tools : list string)
    (thread_counts : list Z) (do_read do_write : bool) :
  (forall block,
     In block [cpp_section args tools thread_counts do_write;
               laspy_section args tools thread_counts do_read do_write;
               lazrs_section args tools do_read;
               pdal_section args tools do_read do_write] ->
     contained block /\ preserves keeps_results block)
  /\ (forall laspy_backends backend_key backend_enum label pre n_threads post ms ms1 ms2 e,
        backends_get laspy_backends backend_key = true ->
        (if bool_decide (backend_key = "laspy_lazrs_parallel") then thread_counts else [1])
        = pre ++ n_threads :: post ->
        for_each pre (laspy_cell args backend_enum label do_read do_write)
          (logged ms (Print ("Benchmarking " ++ label ++ "..."))) = (ms1, Return tt) ->
        laspy_cell args backend_enum label do_read do_write n_threads ms1 = (ms2, Raise e) ->
        is_Exception e = true ->
        laspy_backend args laspy_backends thread_counts do_read do_write
          (backend_key, backend_enum, label) ms
        = (logged ms2 (PrintErr ("WARNING: " ++ label ++ " benchmark failed: " ++ exn_msg e)),
           Return tt))
  /\ (forall binary ms ms2 e,
        (bool_decide ("laspp" ∈ tools) || bool_decide ("laszip" ∈ tools))%bool = true ->
        run (find_benchmark_binary (a_benchmark_binary args)) ms = (ms, Return (Some binary)) ->
        run (run_cpp_benchmark binary (a_file args)
               (if bool_decide ("laspp" ∈ tools) then thread_counts else [1])
               (a_iterations args) (a_warmup args) (a_operation args)
               (if do_write then Some (a_chunk_size args) else None)
               (bool_decide ("laszip" ∈ tools)) true)
          (logged ms (Print ("Using C++ benchmark binary: " ++ binary))) = (ms2, Raise e) ->
        is_Exception e = true ->
        cpp_section args tools thread_counts do_write ms
        = (logged ms2 (PrintErr ("WARNING: C++ benchmark failed: " ++ exn_msg e)), Return tt))
  /\ (forall ms ms2 e,
        (bool_decide ("pdal" ∈ tools) && HAS_PDAL)%bool = true ->
        run (benchmark_pdal_read (a_file args) (a_warmup args) (a_iterations args))
          (logged ms (Print "Benchmarking pdal...")) = (ms2, Raise e) ->
        is_Exception e = true ->
        pdal_section args tools true do_write ms
        = (logged ms2 (PrintErr ("WARNING: PDAL benchmark failed: " ++ exn_msg e)),
           Return tt))
  /\ (forall ms ms2 e,
        (bool_decide ("lazrs" ∈ tools) && HAS_LAZRS)%bool = true ->
        run (benchmark_lazrs_read (a_file args) (a_warmup args) (a_iterations args))
          (logged ms (Print "Benchmarking lazrs (direct)...")) = (ms2, Raise e) ->
        is_Exception e = true ->
        lazrs_section args tools true ms
        = (logged ms2 (PrintErr ("WARNING: lazrs benchmark failed: " ++ exn_msg e)),
           Return tt))
  /\ (forall ms ms1 ms2 e,
        (bool_decide ("pdal" ∈ tools) && HAS_PDAL)%bool = true ->
        when do_read
          (bind (run (benchmark_pdal_read (a_file args) (a_warmup args) (a_iterations args)))
                extend)
          (logged ms (Print "Benchmarking pdal...")) = (ms1, Return tt) ->
        run (benchmark_pdal_write (a_file args) (a_warmup args) (a_iterations args)) ms1
        = (ms2, Raise e) ->
        is_Exception e = true ->
        pdal_section args tools do_read true ms
        = (logged ms2 (PrintErr ("WARNING: PDAL benchmark failed: " ++ exn_msg e)),
           Return tt)
        /\ keeps_results ms ms2)
  /\ (forall ms ms4,
        measure_all args tools thread_counts do_read do_write ms = (ms4, Return tt)
        <-> exists ms1 ms2 ms3,
              cpp_section args tools thread_counts do_write ms = (ms1, Return tt)
              /\ laspy_section args tools thread_counts do_read do_write ms1
                 = (ms2, Return tt)
              /\ lazrs_section args tools do_read ms2 = (ms3, Return tt)
              /\ pdal_section args tools do_read do_write ms3 = (ms4, Return tt))
  /\ (forall laspy_backends b,
        contained (laspy_backend args laspy_backends thread_counts do_read do_write b)
        /\ preserves keeps_results
             (laspy_backend args laspy_backends thread_counts do_read do_write b))
  /\ (forall ms ms0 laspy_backends ms',
        (bool_decide ("laspy" ∈ tools) && HAS_LASPY)%bool = true ->
        run detect_laspy_backends ms = (ms0, Return laspy_backends) ->
        laspy_section args tools thread_counts do_read do_write ms = (ms', Return tt)
        <-> exists ms1,
              laspy_backend args laspy_backends thread_counts do_read do_write
                ("laspy_lazrs_parallel", LazrsParallel, "laspy (lazrs-parallel)") ms0
              = (ms1, Return tt)
              /\ laspy_backend args laspy_backends thread_counts do_read do_write
                   ("laspy_laszip", Laszip, "laspy (laszip)") ms1
                 = (ms', Return tt))
  /\ contained (measure_all args tools thread_counts do_read do_write)
  /\ preserves keeps_results (measure_all args tools thread_counts do_read do_write)
  /\ (forall ms counts,
        path_exists (a_file args) (world (harness ms)) = true ->
        parse_ints (py_split comma (a_threads args)) = Return counts ->
        main args ms
        = andthen (measure_all args (tools_of args) counts (reads args) (writes_too args))
            (report_section args)
            (mkMainState (harness ms) []
               {| md_file := a_file args; md_num_points := 0;
                  md_file_size_bytes := stat_size (a_file args) (world (harness ms));
                  md_has_thread_control := false |})).
Proof.
  repeat match goal with |- _ /\ _ => split end.
  - intros block [<-|[<-|[<-|[<-|[]]]]].
    + split; [apply contained_cpp_section|apply keeps_results_cpp_section].
    + split; [apply contained_laspy_section|apply keeps_results_laspy_section].
    + split; [apply contained_lazrs_section|apply keeps_results_lazrs_section].
    + split; [apply contained_pdal_section|apply keeps_results_pdal_section].
  - intros. eapply laspy_backend_first_failure; eassumption.
  - intros. eapply cpp_section_failure; eassumption.
  - intros. eapply pdal_section_read_failure; eassumption.
  - intros. eapply lazrs_section_failure; eassumption.
  - intros ms ms1 ms2 e Hp Hread Hwrite He.
    split; [eapply pdal_section_write_failure; eassumption|].
    transitivity ms1.
    + transitivity (logged ms (Print "Benchmarking pdal...")).
      * exists []. cbn. now rewrite app_nil_r.
      * revert Hread. unfold when. destruct do_read.
        -- apply preserves_bind; try exact _;
             [apply keeps_results_run|intros; apply keeps_results_extend].
        -- intros Heq. inversion Heq. reflexivity.
    + eapply keeps_results_run. exact Hwrite.
  - intros ms ms4. apply measure_all_runs_every_block.
  - intros laspy_backends b.
    split; [apply contained_laspy_backend|apply keeps_results_laspy_backend].
  - intros ms ms0 laspy_backends ms'. apply laspy_section_runs_both_backends.
  - apply contained_measure_all.
  - apply keeps_results_measure_all.
  - intros ms counts. apply main_measures_then_reports.
Qed.

End Containment.

(** ** The text protocol between the child and the driver *)

Lemma string_cons_app c (a b : string) : (String c a ++ b)%string = String c (a ++ b).
Proof. reflexivity. Qed.

Lemma string_nil_app (b : string) : ("" ++ b)%string = b.
Proof. reflexivity. Qed.

Lemma chars_app a b : list_ascii_of_string (a ++ b)
  = list_ascii_of_string a ++ list_ascii_of_string b.
Proof.
  induction a as [|c a IH]; [reflexivity|].
  rewrite string_cons_app. cbn. f_equal. exact IH.
Qed.

Lemma string_of_chars_app l1 l2 :
  string_of_list_ascii (l1 ++ l2) = (string_of_list_ascii l1 ++ string_of_list_ascii l2)%string.
Proof.
  induction l1 as [|c l1 IH]; [reflexivity|].
  cbn [app string_of_list_ascii]. rewrite string_cons_app. f_equal. exact IH.
Qed.

Lemma string_app_assoc (a b c : string) : ((a ++ b) ++ c = a ++ (b ++ c))%string.
Proof.
  induction a as [|x a IH]; [reflexivity|].
  rewrite !string_cons_app. f_equal. exact IH.
Qed.

Lemma string_app_nil_r (a : string) : (a ++ "")%string = a.
Proof.
  induction a as [|x a IH]; [reflexivity|].
  rewrite !string_cons_app. f_equal. exact IH.
Qed.

Lemma string_rev_app a b : string_rev (a ++ b) = (string_rev b ++ string_rev a)%string.
Proof.
  unfold string_rev.
  now rewrite chars_app, rev_app_distr, string_of_chars_app.
Qed.

Lemma string_rev_involutive a : string_rev (string_rev a) = a.
Proof.
  unfold string_rev. rewrite list_ascii_of_string_of_list_ascii, rev_involutive.
  apply string_of_list_ascii_of_string.
Qed.

Lemma char_in_chars c s : char_in c s = false <-> Forall (fun d => d <> c) (list_ascii_of_string s).
Proof.
  unfold char_in. induction (list_ascii_of_string s) as [|d l IH]; cbn.
  - split; [constructor|reflexivity].
  - rewrite orb_false_iff, IH, Forall_cons, bool_decide_eq_false. reflexivity.
Qed.

Lemma char_in_app c a b : char_in c (a ++ b) = (char_in c a || char_in c b)%bool.
Proof. unfold char_in. now rewrite chars_app, existsb_app. Qed.

Lemma py_split_nonempty sep s : py_split sep s <> [].
Proof.
  induction s as [|c r IH]; cbn; [discriminate|].
  destruct (bool_decide (c = sep)); [discriminate|].
  destruct (py_split sep r); discriminate.
Qed.

Lemma py_split_none sep a : char_in sep a = false -> py_split sep a = [a].
Proof.
  induction a as [|c r IH]; [reflexivity|]. intros Hin.
  unfold char_in in Hin. cbn in Hin. apply orb_false_iff in Hin as [Hc Hr].
  cbn. rewrite Hc. now rewrite (IH Hr).
Qed.

Lemma py_split_app sep a b :
  char_in sep a = false ->
  py_split sep (a ++ String sep b) = a :: py_split sep b.
Proof.
  induction a as [|c r IH]; intros Hin.
  - rewrite string_nil_app. cbn [py_split]. now rewrite bool_decide_eq_true_2.
  - unfold char_in in Hin. cbn in Hin. apply orb_false_iff in Hin as [Hc Hr].
    rewrite string_cons_app. cbn [py_split]. rewrite Hc. now rewrite (IH Hr).
Qed.

Lemma token_head s : token s -> exists c r, s = String c r /\ is_space c = false.
Proof.
  intros [Hne Hall]. destruct s as [|c r]; [congruence|]. exists c, r.
  split; [reflexivity|]. cbn in Hall. apply Forall_cons in Hall as [[Hc _] _]. exact Hc.
Qed.

Lemma token_last s : token s -> exists c r, string_rev s = String c r /\ is_space c = false.
Proof.
  intros [Hne Hall]. unfold string_rev.
  assert (Hl : list_ascii_of_string s <> []) by (destruct s; [congruence|discriminate]).
  destruct (rev (list_ascii_of_string s)) as [|c l] eqn:Hrev.
  - apply (f_equal (@rev ascii)) in Hrev. rewrite rev_involutive in Hrev. contradiction.
  - exists c, (string_of_list_ascii l). split; [reflexivity|].
    rewrite List.Forall_forall in Hall. apply Hall. apply in_rev. rewrite Hrev. now left.
Qed.

Lemma token_no_comma s : token s -> char_in comma s = false.
Proof.
  intros [_ Hall]. apply char_in_chars. eapply List.Forall_impl; [|exact Hall]. cbn. tauto.
Qed.

Lemma token_no_newline s : token s -> char_in newline s = false.
Proof.
  intros [_ Hall]. apply char_in_chars. eapply List.Forall_impl; [|exact Hall].
  cbn. intros c [Hc _] ->. discriminate Hc.
Qed.

Lemma lstrip_head c r : is_space c = false -> lstrip (String c r) = String c r.
Proof. intros Hc. cbn. now rewrite Hc. Qed.

(** [strip] removes the newline that ends the output, and nothing else,
    when the output starts and ends with the characters of tokens. *)
Lemma py_strip_trailing_newline x :
  (exists c r, x = String c r /\ is_space c = false) ->
  (exists c r, string_rev x = String c r /\ is_space c = false) ->
  py_strip (x ++ nl) = x.
Proof.
  intros (c & r & -> & Hc) (c' & r' & Hrev & Hc'). unfold py_strip.
  change ((String c r ++ nl)%string) with (String c (r ++ nl)).
  rewrite (lstrip_head _ _ Hc).
  change (String c (r ++ nl)) with ((String c r ++ nl)%string).
  rewrite string_rev_app. change (string_rev nl) with nl. unfold nl at 1.
  change ((String newline "" ++ string_rev (String c r))%string)
    with (String newline (string_rev (String c r))).
  cbn [lstrip]. change (is_space newline) with true. cbv iota.
  rewrite Hrev, (lstrip_head _ _ Hc'), <- Hrev. apply string_rev_involutive.
Qed.

Section Protocol.
Context `{H : Host}.

Lemma script_warmup_returns T w env :
  returns_within T w ->
  forall k wd, exists wd', script_warmup k w env wd = (wd', None).
Proof.
  intros Hw. induction k as [|k IH]; intros wd; cbn [script_warmup].
  - now exists wd.
  - destruct (Hw env wd) as (wd1 & t & -> & _). apply IH.
Qed.

Lemma script_timed_output T w env :
  returns_within T w ->
  forall k it out wd, exists wd' ts,
    length ts = k /\ Forall T ts
    /\ script_timed k it w env out wd
       = (wd', (out ++ printed (zip (seqZ it (Z.of_nat k)) ts))%string, None).
Proof.
  intros Hw. induction k as [|k IH]; intros it out wd; cbn [script_timed].
  - exists wd, []. repeat split; [constructor|]. cbn. now rewrite string_app_nil_r.
  - destruct (Hw env wd) as (wd1 & t & -> & Ht).
    destruct (IH (it + 1) (out ++ str_of_int it ++ "," ++ repr_float t ++ nl)%string wd1)
      as (wd' & ts & Hlen & HT & ->).
    exists wd', (t :: ts). split; [cbn; congruence|]. split; [now constructor|].
    rewrite (seqZ_cons it (Z.of_nat (S k))) by lia.
    replace (Z.pred (Z.of_nat (S k))) with (Z.of_nat k) by lia.
    replace (Z.succ it) with (it + 1) by lia.
    cbn [zip zip_with printed]. unfold printed_line. cbn [fst snd].
    now rewrite !string_app_assoc.
Qed.

Lemma read_printed_line p : readable p -> read_line (printed_line p) = Sample (fst p) (snd p).
Proof.
  intros (Hi & Ht & Hri & Hrt). unfold read_line, printed_line.
  rewrite char_in_app, (token_no_comma _ Hi).
  change (("," ++ repr_float (snd p))%string) with (String comma (repr_float (snd p))).
  assert (Hc : char_in comma (String comma (repr_float (snd p))) = true) by reflexivity.
  rewrite Hc. cbn [orb].
  rewrite (py_split_app comma _ _ (token_no_comma _ Hi)).
  rewrite (py_split_none comma _ (token_no_comma _ Ht)).
  now rewrite Hri, Hrt.
Qed.

Lemma printed_line_no_newline p : readable p -> char_in newline (printed_line p) = false.
Proof.
  intros (Hi & Ht & _). unfold printed_line.
  rewrite char_in_app, (token_no_newline _ Hi).
  change (("," ++ repr_float (snd p))%string) with (String comma (repr_float (snd p))).
  unfold char_in. cbn [list_ascii_of_string existsb]. fold (char_in newline (repr_float (snd p))).
  now rewrite (token_no_newline _ Ht).
Qed.

Lemma printed_line_head p :
  readable p -> exists c r, printed_line p = String c r /\ is_space c = false.
Proof.
  intros (Hi & _). destruct (token_head _ Hi) as (c & r & Heq & Hc).
  unfold printed_line. rewrite Heq. eexists c, _. split; [apply string_cons_app|exact Hc].
Qed.

Lemma printed_line_last p :
  readable p -> exists c r, string_rev (printed_line p) = String c r /\ is_space c = false.
Proof.
  intros (_ & Ht & _). destruct (token_last _ Ht) as (c & r & Heq & Hc).
  unfold printed_line. rewrite !string_rev_app, Heq.
  eexists c, _. split; [apply string_cons_app|exact Hc].
Qed.

Lemma printed_joined p rest : printed (p :: rest) = (joined p rest ++ nl)%string.
Proof.
  revert p. induction rest as [|q rest IH]; intros p.
  - cbn [printed joined]. now rewrite string_app_nil_r.
  - cbn [joined]. change (printed (p :: q :: rest))
      with ((printed_line p ++ nl ++ printed (q :: rest))%string).
    now rewrite IH, !string_app_assoc.
Qed.

Lemma joined_head p rest :
  readable p -> exists c r, joined p rest = String c r /\ is_space c = false.
Proof.
  intros Hp. destruct (printed_line_head p Hp) as (c & r & Heq & Hc).
  destruct rest; cbn [joined]; rewrite Heq; eexists c, _;
    (split; [try apply string_cons_app; reflexivity|exact Hc]).
Qed.

Lemma joined_last p rest :
  Forall readable (p :: rest) ->
  exists c r, string_rev (joined p rest) = String c r /\ is_space c = false.
Proof.
  revert p. induction rest as [|q rest IH]; intros p Hall;
    apply Forall_cons in Hall as [Hp Hrest]; cbn [joined].
  - now apply printed_line_last.
  - destruct (IH q Hrest) as (c & r & Heq & Hc).
    rewrite !string_rev_app, Heq. eexists c, _.
    split; [rewrite !string_cons_app; reflexivity|exact Hc].
Qed.

Lemma py_split_joined p rest :
  Forall readable (p :: rest) ->
  py_split newline (joined p rest) = map printed_line (p :: rest).
Proof.
  revert p. induction rest as [|q rest IH]; intros p Hall;
    apply Forall_cons in Hall as [Hp Hrest]; cbn [joined].
  - apply py_split_none. now apply printed_line_no_newline.
  - change ((nl ++ joined q rest)%string) with (String newline (joined q rest)).
    rewrite py_split_app by now apply printed_line_no_newline.
    rewrite (IH q Hrest). reflexivity.
Qed.

Lemma parse_printed_lines backend_name nt ps : forall acc,
  Forall readable ps ->
  parse_lines backend_name nt (map printed_line ps) acc
  = Return (acc ++ map (fun p => mkBenchResult backend_name "read" nt (fst p) (snd p)) ps).
Proof.
  induction ps as [|p ps IH]; intros acc Hall.
  - cbn. now rewrite app_nil_r.
  - apply Forall_cons in Hall as [Hp Hall]. cbn [map].
    pose proof (parse_lines_cons backend_name nt (printed_line p) (map printed_line ps) acc) as Hc.
    rewrite (read_printed_line p Hp) in Hc. rewrite Hc, (IH _ Hall).
    now rewrite <- app_assoc.
Qed.

Lemma parse_printed backend_name nt ps :
  Forall readable ps ->
  parse_child_output backend_name nt (printed ps)
  = Return (map (fun p => mkBenchResult backend_name "read" nt (fst p) (snd p)) ps).
Proof.
  intros Hall. destruct ps as [|p rest]; [reflexivity|].
  unfold parse_child_output. rewrite printed_joined.
  rewrite py_strip_trailing_newline.
  - rewrite (py_split_joined _ _ Hall). now apply parse_printed_lines.
  - apply joined_head. now apply Forall_cons in Hall as [Hp _].
  - now apply joined_last.
Qed.

End Protocol.

Section EndToEnd.
Context `{H : Host}.

Lemma zip_seqZ_complete backend_name nt it k (ts : list float) :
  length ts = k ->
  let rs := map (fun p : Z * float => mkBenchResult backend_name "read" nt (fst p) (snd p))
                (zip (seqZ it (Z.of_nat k)) ts) in
  length rs = k /\ map iteration rs = seqZ it (Z.of_nat k)
  /\ Forall (fun r => tool r = backend_name /\ operation r = "read" /\ threads r = nt) rs.
Proof.
  intros Hlen. cbn zeta. revert it k Hlen. induction ts as [|t ts IH]; intros it k Hlen.
  - cbn in Hlen. subst k. cbn. repeat split; constructor.
  - destruct k as [|k]; [discriminate|]. cbn in Hlen. injection Hlen as Hlen.
    rewrite (seqZ_cons it (Z.of_nat (S k))) by lia.
    replace (Z.pred (Z.of_nat (S k))) with (Z.of_nat k) by lia.
    cbn [zip zip_with map length fst snd iteration].
    destruct (IH (Z.succ it) k Hlen) as (H1 & H2 & H3).
    split; [now f_equal|]. split; [now f_equal|]. constructor; [cbn; tauto|exact H3].
Qed.

Lemma zip_seqZ_readable T iterations (ts : list float) :
  round_trips T iterations ->
  Forall T ts ->
  Forall readable (zip (seqZ 0 (Z.of_nat (range_len iterations))) ts).
Proof.
  intros [Hint Hfloat] HT. apply List.Forall_forall. intros [i t] Hin.
  apply list_elem_of_In in Hin. apply elem_of_zip_with in Hin as (i' & t' & Heq & Hi & Ht).
  injection Heq as -> ->.
  apply elem_of_seqZ in Hi. unfold range_len in Hi.
  rewrite List.Forall_forall in HT. apply list_elem_of_In in Ht. specialize (HT _ Ht).
  destruct (Hint i') as [Hti Hri]; [lia|]. destruct (Hfloat t' HT) as [Htt Hrt].
  exact (conj Hti (conj Htt (conj Hri Hrt))).
Qed.

(** With a child that runs the script, a path that is pasted verbatim and a
    workload that never fails, the subprocess-isolated driver also returns a
    complete run. *)
Lemma subprocess_complete T file backend_name warmup iterations nt :
  child_runs_script ->
  pastes_verbatim file = true ->
  returns_within T (LaspyRead file LazrsParallel) ->
  round_trips T iterations ->
  returns (complete_run backend_name "read" nt iterations)
    (benchmark_laspy_read file LazrsParallel backend_name warmup iterations (Some nt)).
Proof.
  intros Hchild Hfile Hw Hrt s.
  rewrite benchmark_laspy_read_subprocess, laspy_read_subprocess_run. cbn zeta.
  rewrite Hchild by exact Hfile. unfold laspy_read_script. rewrite child_environ_idem.
  destruct (script_warmup_returns T _ (child_environ s nt) Hw (range_len warmup) (world s))
    as (wd1 & ->).
  destruct (script_timed_output T _ (child_environ s nt) Hw (range_len iterations) 0 "" wd1)
    as (wd2 & ts & Hlen & HT & ->).
  cbn [returncode stdout Z.eqb negb]. rewrite string_nil_app.
  rewrite parse_printed by now apply (zip_seqZ_readable T).
  eexists _, _. split; [reflexivity|].
  destruct (zip_seqZ_complete backend_name nt 0 _ ts Hlen) as (H1 & H2 & H3).
  unfold complete_run. split; [exact H1|]. split; [|exact H3].
  rewrite H2. unfold range_len, seqZ. now rewrite Nat2Z.id.
Qed.

End EndToEnd.

Section DriverTheorems.
Context `{H : Host}.

(** A call of the subprocess-isolated driver (laspy read, lazrs-parallel
    backend, a thread count given) leaves the environment of the harness
    process as it was and adds a single event to the trace, the start of the
    child; so it never sets or removes a variable of the harness process.
    The child's environment is the harness's with [RAYON_NUM_THREADS] bound
    to the thread count. *)
Lemma subprocess_driver_leaves_environ (file backend_name : string)
    (warmup iterations nt : Z) (s : state) :
  let final :=
    fst (benchmark_laspy_read file LazrsParallel backend_name warmup iterations (Some nt) s) in
  environ final = environ s
  /\ trace final
     = trace s ++ [Spawn (LaspyReadScript nt file warmup iterations) (child_environ s nt)]
  /\ child_environ s nt !! RAYON_NUM_THREADS = Some (str_of_int nt)
  /\ forall k, k <> RAYON_NUM_THREADS -> child_environ s nt !! k = environ s !! k.
Proof.
  cbn zeta. rewrite benchmark_laspy_read_subprocess, laspy_read_subprocess_run. cbn zeta.
  destruct (subprocess_run _ _ _) as [wd [proc|e]]; cbn [fst after_spawn environ trace];
    (repeat split; [apply lookup_insert_eq|intros k Hk; now apply lookup_insert_ne]).
Qed.

(** The lazrs driver when its first call, the probe, raises: an
    [Exception] other than [AttributeError] gives the empty list; an
    [AttributeError] leads to the fallback reader, whose [Exception] gives
    the empty list too; an exception outside [Exception] passes. *)
Lemma lazrs_probe_fails file warmup iterations s s1 e0 :
  HAS_LAZRS = true ->
  call (LazrsRead file) s = (s1, Raise e0) ->
  (is_Exception e0 = true -> is_AttributeError e0 = false ->
     benchmark_lazrs_read file warmup iterations s = (s1, Return []))
  /\ (is_Exception e0 = false ->
      benchmark_lazrs_read file warmup iterations s = (s1, Raise e0))
  /\ (forall s2 e1,
        is_AttributeError e0 = true ->
        call (LazrsReadFallback file) s1 = (s2, Raise e1) ->
        benchmark_lazrs_read file warmup iterations s
        = (s2, if is_Exception e1 then Return [] else Raise e1)).
Proof.
  intros Hhas Hp.
  assert (Hstart : forall k : option workload -> M state (list BenchResult),
            bind (try_except
                    (bind (call (LazrsRead file)) (fun _ => ret (Some (LazrsRead file))))
                    is_Exception
                    (fun e =>
                       if is_AttributeError e then
                         try_except
                           (bind (call (LazrsReadFallback file))
                                 (fun _ => ret (Some (LazrsReadFallback file))))
                           is_Exception
                           (fun _ => ret None)
                       else ret None)) k s
            = if is_Exception e0 then
                bind (if is_AttributeError e0 then
                        try_except
                          (bind (call (LazrsReadFallback file))
                                (fun _ => ret (Some (LazrsReadFallback file))))
                          is_Exception
                          (fun _ => ret None)
                      else ret None) k s1
              else (s1, Raise e0)).
  { intros k. unfold bind at 1, try_except at 1, bind at 1. rewrite Hp. cbv beta iota.
    destruct (is_Exception e0); reflexivity. }
  unfold benchmark_lazrs_read. rewrite Hhas. cbn [negb]. rewrite Hstart.
  split; [|split].
  - intros He Ha. now rewrite He, Ha.
  - intros He. now rewrite He.
  - intros s2 e1 Ha Hf.
    assert (He : is_Exception e0 = true).
    { unfold is_AttributeError in Ha. unfold is_Exception. now destruct (exn_cls e0). }
    rewrite He, Ha. unfold bind at 1, try_except, bind at 1. rewrite Hf. cbv beta iota.
    now destruct (is_Exception e1).
Qed.

(** C7 (amended): in every driver, an exception raised by a call of the
    warmup loop ends the driver call with that exception, and so with no
    sample; in the subprocess-isolated driver the exception ends the child,
    and the driver raises a [RuntimeError] that carries the child's
    traceback.  The result differs from the empty list that the lazrs and
    PDAL drivers return when their tool is not available.  The first call
    of the lazrs driver is not one of the warmup loop: it probes which
    reader to use, and when it raises an [Exception] (for an
    [AttributeError], when the fallback reader raises one too) the driver
    returns the empty list, as it does when lazrs is not available. *)
Theorem warmup_failure_is_raised :
  (forall file backend backend_name warmup iterations nt s e,
     backend <> LazrsParallel \/ nt = None ->
     warmup_fails (LaspyRead file backend) warmup s e ->
     fails_with (benchmark_laspy_read file backend backend_name warmup iterations nt) s e)
  /\ (forall file backend_name warmup iterations nt s wd e,
     child_runs_script ->
     pastes_verbatim file = true ->
     script_warmup (range_len warmup) (LaspyRead file LazrsParallel)
       (child_environ s nt) (world s) = (wd, Some e) ->
     fails_with
       (benchmark_laspy_read file LazrsParallel backend_name warmup iterations (Some nt)) s
       (mkExn RuntimeError ("laspy subprocess failed: " ++ traceback e)))
  /\ (forall file backend backend_name warmup iterations chunk_size nt s s1 s2 t0 tmp e,
     call (LaspyRead file backend) s = (s1, Return t0) ->
     host_op (named_temporary_file ".laz") s1 = (s2, Return tmp) ->
     warmup_fails (LaspyWrite file tmp backend chunk_size) warmup (with_rayon nt s2) e ->
     fails_with
       (benchmark_laspy_write file backend backend_name warmup iterations chunk_size nt) s e)
  /\ (forall file warmup iterations s s1 t0 e,
     HAS_LAZRS = true ->
     call (LazrsRead file) s = (s1, Return t0) ->
     warmup_fails (LazrsRead file) warmup s1 e ->
     fails_with (benchmark_lazrs_read file warmup iterations) s e)
  /\ (forall file warmup iterations s s1 s2 e0 t0 e,
     HAS_LAZRS = true ->
     call (LazrsRead file) s = (s1, Raise e0) ->
     is_AttributeError e0 = true ->
     call (LazrsReadFallback file) s1 = (s2, Return t0) ->
     warmup_fails (LazrsReadFallback file) warmup s2 e ->
     fails_with (benchmark_lazrs_read file warmup iterations) s e)
  /\ (forall file warmup iterations s s1 out e,
     HAS_PDAL = true ->
     (host_op (named_temporary_file ".las") s = (s1, Return out) ->
      warmup_fails (PdalTranslate file out) warmup s1 e ->
      fails_with (benchmark_pdal_read file warmup iterations) s e)
     /\ (host_op (named_temporary_file ".laz") s = (s1, Return out) ->
         warmup_fails (PdalTranslate file out) warmup s1 e ->
         fails_with (benchmark_pdal_write file warmup iterations) s e))
  /\ (forall file warmup iterations s,
     (HAS_LAZRS = false -> benchmark_lazrs_read file warmup iterations s = (s, Return []))
     /\ (HAS_PDAL = false ->
         benchmark_pdal_read file warmup iterations s = (s, Return [])
         /\ benchmark_pdal_write file warmup iterations s = (s, Return [])))
  /\ (forall file warmup iterations s s1 e0,
     HAS_LAZRS = true ->
     call (LazrsRead file) s = (s1, Raise e0) ->
     (is_Exception e0 = true -> is_AttributeError e0 = false ->
        benchmark_lazrs_read file warmup iterations s = (s1, Return []))
     /\ (is_Exception e0 = false ->
         benchmark_lazrs_read file warmup iterations s = (s1, Raise e0))
     /\ (forall s2 e1,
           is_AttributeError e0 = true ->
           call (LazrsReadFallback file) s1 = (s2, Raise e1) ->
           benchmark_lazrs_read file warmup iterations s
           = (s2, if is_Exception e1 then Return [] else Raise e1))).
Proof.
  split; [|split; [|split; [|split; [|split; [|split; [|split]]]]]].
  - intros. now apply laspy_read_warmup_fails.
  - intros. eapply subprocess_warmup_fails; eassumption.
  - intros. eapply laspy_write_warmup_fails; eassumption.
  - intros. eapply lazrs_warmup_fails; eassumption.
  - intros. eapply lazrs_fallback_warmup_fails; eassumption.
  - intros file warmup iterations s s1 out e Hhas.
    split; intros; eapply pdal_warmup_fails; eassumption.
  - intros file warmup iterations s. split.
    + intros Hno. unfold benchmark_lazrs_read. now rewrite Hno.
    + intros Hno. unfold benchmark_pdal_read, benchmark_pdal_write, benchmark_pdal.
      now rewrite Hno.
  - intros file warmup iterations s s1 e0. apply lazrs_probe_fails.
Qed.

(** The lazrs driver on a version of lazrs that has the second reader
    only. *)
Lemma lazrs_fallback_complete file warmup iterations :
  HAS_LAZRS = true ->
  (forall env wd, exists wd' e,
     call_workload (LazrsRead file) env wd = (wd', Raise e) /\ is_AttributeError e = true) ->
  never_fails (LazrsReadFallback file) ->
  returns (complete_run "lazrs" "read" 0 iterations)
    (benchmark_lazrs_read file warmup iterations).
Proof.
  intros Hhas Hold Hw s. unfold benchmark_lazrs_read. rewrite Hhas. cbn [negb].
  unfold bind at 1, try_except at 1, bind at 1, call at 1.
  destruct (Hold (environ s) (world s)) as (wd1 & e & -> & Ha).
  assert (He : is_Exception e = true).
  { unfold is_AttributeError in Ha. unfold is_Exception. now destruct (exn_cls e). }
  cbv beta iota. rewrite He, Ha. unfold try_except, bind at 1, call at 1. cbn [environ world].
  destruct (Hw (environ s) wd1) as (wd2 & t & ->). cbv beta iota. unfold ret at 1.
  apply (returns_loops (LazrsReadFallback file) "lazrs" "read" 0 warmup iterations Hw).
Qed.

(** C2 (amended): a driver that runs in the harness process or through an
    external command returns exactly [iterations] samples, numbered 0, 1,
    ... in this order, when the operation it benchmarks never fails (for
    the write driver, the read made before the loops too) and, where the
    driver makes one, its temporary file can be created; the lazrs and PDAL
    drivers need their tool.  The subprocess-isolated driver raises a
    [RuntimeError] carrying the child's standard error when the child's
    exit code is not zero, and a [ValueError] when a line of the child's
    output contains a comma without being [int,float]; a line without a
    comma is skipped, and the driver returns the samples of the other
    lines, however many.  When the child runs the script of the driver, the
    path is pasted verbatim into it, the read never fails and the printed
    numbers read back, that driver returns a complete run too. *)
Theorem drivers_return_every_iteration :
  (forall file backend backend_name warmup iterations nt,
     backend <> LazrsParallel \/ nt = None ->
     never_fails (LaspyRead file backend) ->
     returns (complete_run backend_name "read" (or_zero nt) iterations)
       (benchmark_laspy_read file backend backend_name warmup iterations nt))
  /\ (forall file backend backend_name warmup iterations chunk_size nt,
     never_fails (LaspyRead file backend) ->
     (forall tmp, never_fails (LaspyWrite file tmp backend chunk_size)) ->
     temp_file_available ".laz" ->
     returns (complete_run backend_name "write" (or_zero nt) iterations)
       (benchmark_laspy_write file backend backend_name warmup iterations chunk_size nt))
  /\ (forall file warmup iterations,
     HAS_LAZRS = true ->
     (never_fails (LazrsRead file) ->
      returns (complete_run "lazrs" "read" 0 iterations)
        (benchmark_lazrs_read file warmup iterations))
     /\ ((forall env wd, exists wd' e,
            call_workload (LazrsRead file) env wd = (wd', Raise e)
            /\ is_AttributeError e = true) ->
         never_fails (LazrsReadFallback file) ->
         returns (complete_run "lazrs" "read" 0 iterations)
           (benchmark_lazrs_read file warmup iterations)))
  /\ (forall file warmup iterations,
     HAS_PDAL = true ->
     (forall out, never_fails (PdalTranslate file out)) ->
     (temp_file_available ".las" ->
      returns (complete_run "pdal" "read" 0 iterations)
        (benchmark_pdal_read file warmup iterations))
     /\ (temp_file_available ".laz" ->
         returns (complete_run "pdal" "write" 0 iterations)
           (benchmark_pdal_write file warmup iterations)))
  /\ (forall file backend_name warmup iterations nt s wd proc,
     let c := LaspyReadScript nt file warmup iterations in
     let lines := py_split newline (py_strip (stdout proc)) in
     let driver :=
       benchmark_laspy_read file LazrsParallel backend_name warmup iterations (Some nt) in
     subprocess_run c (child_environ s nt) (world s) = (wd, Return proc) ->
     (returncode proc <> 0 ->
        driver s = (after_spawn s c (child_environ s nt) wd,
                    Raise (mkExn RuntimeError ("laspy subprocess failed: " ++ stderr proc))))
     /\ (returncode proc = 0 ->
         Exists (fun line => read_line line = Malformed) lines ->
         exists e, driver s = (after_spawn s c (child_environ s nt) wd, Raise e)
                   /\ exn_cls e = ValueError)
     /\ (returncode proc = 0 ->
         Forall (fun line => read_line line <> Malformed) lines ->
         driver s = (after_spawn s c (child_environ s nt) wd,
                     Return (samples_of_lines backend_name nt lines))))
  /\ (forall (T : float -> Prop) file backend_name warmup iterations nt,
     child_runs_script ->
     pastes_verbatim file = true ->
     returns_within T (LaspyRead file LazrsParallel) ->
     round_trips T iterations ->
     returns (complete_run backend_name "read" nt iterations)
       (benchmark_laspy_read file LazrsParallel backend_name warmup iterations (Some nt))).
Proof.
  split; [|split; [|split; [|split; [|split]]]].
  - intros file backend backend_name warmup iterations nt Hb Hw.
    rewrite benchmark_laspy_read_in_process by assumption.
    now apply laspy_read_in_process_complete.
  - intros. now apply laspy_write_complete.
  - intros file warmup iterations Hhas. split.
    + intros Hw. now apply lazrs_read_complete.
    + intros Hold Hw. now apply lazrs_fallback_complete.
  - intros file warmup iterations Hhas Hw. split; intros Ht; now apply pdal_complete.
  - intros file backend_name warmup iterations nt s wd proc. cbn zeta. intros Hrun.
    rewrite benchmark_laspy_read_subprocess, laspy_read_subprocess_run. cbn zeta.
    rewrite Hrun. unfold parse_child_output. repeat apply conj.
    + intros Hneq. apply Z.eqb_neq in Hneq. now rewrite Hneq.
    + intros Hz Hex. rewrite Hz. cbn [Z.eqb negb].
      destruct (proj1 (parse_lines_spec backend_name nt _ []) Hex) as (e & -> & Hcls).
      now exists e.
    + intros Hz Hall. rewrite Hz. cbn [Z.eqb negb].
      now rewrite (proj2 (parse_lines_spec backend_name nt _ []) Hall).
  - intros T file backend_name warmup iterations nt. apply subprocess_complete.
Qed.

End DriverTheorems.

(** ** The claims on concrete hosts *)

(** C2, as stated, fails: the child exits with 0 after printing the single
    line [1 0.25]; for one timed iteration the driver returns the empty
    list, and raises nothing. *)
Lemma malformed_line_is_dropped :
  @subprocess_run garbled_host (LaspyReadScript 4 "cloud.laz" 1 1)
      (<["RAYON_NUM_THREADS" := "4"]> ∅) 0%nat
    = (1%nat, Return (mkCompletedProcess 0 ("1 0.25" ++ nl) ""))
  /\ snd (@benchmark_laspy_read garbled_host "cloud.laz" LazrsParallel
            "laspy (lazrs-parallel)" 1 1 (Some 4) (@initial_state garbled_host 0%nat))
     = Return [].
Proof. split; reflexivity. Qed.

Lemma steady_never_fails w : @never_fails steady_host w.
Proof. intros env wd. eexists _, _. reflexivity. Qed.

Lemma steady_temp_files : @temp_files_available steady_host.
Proof. intros suffix wd. eexists _, _. reflexivity. Qed.

Lemma steady_child_runs_script : @child_runs_script steady_host.
Proof. intros nt file warmup iterations env wd _. reflexivity. Qed.

Lemma steady_round_trips : @round_trips steady_host (fun t => t = f0_25) 2.
Proof.
  split.
  - intros i Hi. assert (Hcases : i = 0 \/ i = 1) by lia.
    destruct Hcases as [->| ->]; (split; [split; [discriminate|]|reflexivity]);
      repeat constructor; discriminate.
  - intros t ->. split; [split; [discriminate|]|reflexivity].
    repeat constructor; discriminate.
Qed.

(** C2 (amended) on the steady host: the lazrs driver and the
    subprocess-isolated driver return two samples for two iterations. *)
Lemma drivers_return_every_iteration_witness :
  @never_fails steady_host (LazrsRead "cloud.laz")
  /\ pastes_verbatim "cloud.laz" = true
  /\ @returns _ _ (complete_run "lazrs" "read" 0 2)
       (@benchmark_lazrs_read steady_host "cloud.laz" 1 2)
  /\ @returns _ _ (complete_run "laspy (lazrs-parallel)" "read" 4 2)
       (@benchmark_laspy_read steady_host "cloud.laz" LazrsParallel
          "laspy (lazrs-parallel)" 1 2 (Some 4)).
Proof.
  pose proof (@drivers_return_every_iteration steady_host) as (_ & _ & Hlazrs & _ & _ & Hsub).
  split; [apply steady_never_fails|]. split; [reflexivity|]. split.
  - destruct (Hlazrs "cloud.laz" 1 2 eq_refl) as [Hplain _].
    apply Hplain. apply steady_never_fails.
  - apply (Hsub (fun t => t = f0_25)).
    + exact steady_child_runs_script.
    + reflexivity.
    + intros env wd. eexists _, _. split; reflexivity.
    + exact steady_round_trips.
Defined.

(** C3 (amended) on the four samples of [spread] and their reversal. *)
Lemma aggregate_permutation_witness :
  Permutation spread spread_reversed
  /\ all_positive (map time_s spread)
  /\ length (aggregate sum_plain spread_reversed 0 0) = length (aggregate sum_plain spread 0 0)
  /\ forall s, In s (aggregate sum_plain spread 0 0) ->
       exists s', In s' (aggregate sum_plain spread_reversed 0 0)
         /\ summary_key s' = summary_key s
         /\ n s' = n s /\ min_s s' = min_s s /\ max_s s' = max_s s.
Proof.
  assert (Hp : Permutation spread spread_reversed).
  { change spread_reversed with (rev spread). apply Permutation_rev. }
  assert (Hpos : all_positive (map time_s spread)).
  { repeat constructor. }
  split; [exact Hp|]. split; [exact Hpos|].
  destruct (aggregate_permutation sum_plain spread spread_reversed 0 0 Hp Hpos) as [Hlen Hall].
  split; [exact Hlen|]. intros s Hs.
  destruct (Hall s Hs) as (s' & Hin & Hk & Hn & Hmin & Hmax & _).
  exists s'. repeat split; assumption.
Defined.

(** C5, as stated, fails: with thread counts 1 and 4 and a codec that fails
    only under one thread, the failure of the cell of thread count 1 ends
    the lazrs-parallel backend: the warning is printed, no child is started
    for thread count 4, and the only samples are those of the laszip
    backend; alone, the cell of thread count 4 gives its two samples. *)
Lemma later_thread_counts_are_not_run :
  snd run_1_4 = Return 0
  /\ spawned_threads (trace (harness (fst run_1_4))) = [1]
  /\ stderr_lines (trace (harness (fst run_1_4)))
     = [("WARNING: laspy (lazrs-parallel) benchmark failed: laspy subprocess failed: "
         ++ "Traceback (most recent call last): lazrs: cannot build the thread pool")%string]
  /\ cells (all_results (fst run_1_4)) = [("laspy (laszip)", 1, 0); ("laspy (laszip)", 1, 1)]
  /\ cells (all_results (fst run_4))
     = [("laspy (lazrs-parallel)", 4, 0); ("laspy (lazrs-parallel)", 4, 1);
        ("laspy (laszip)", 1, 0); ("laspy (laszip)", 1, 1)].
Proof.
  repeat split; vm_compute; reflexivity.
Qed.

(** A warmup call that fails, in the lazrs driver and in the child of the
    subprocess-isolated driver, and a probing call that fails. *)
Example warmup_failure_example :
  snd (@benchmark_lazrs_read second_call_fails_host "cloud.laz" 1 2
         (@initial_state second_call_fails_host 0%nat))
  = Raise (mkExn OtherException "read error")
  /\ snd (@benchmark_laspy_read one_thread_breaks_host "cloud.laz" LazrsParallel
            "laspy (lazrs-parallel)" 1 2 (Some 1) (@initial_state one_thread_breaks_host 0%nat))
     = Raise (mkExn RuntimeError
                ("laspy subprocess failed: Traceback (most recent call last): "
                 ++ "lazrs: cannot build the thread pool")%string)
  /\ snd (@benchmark_lazrs_read second_call_fails_host "cloud.laz" 1 2
            (@initial_state second_call_fails_host 1%nat))
     = Return [].
Proof. repeat split; vm_compute; reflexivity. Qed.

(** The three exits of [main]: a missing file, no sample, and a normal run
    that writes its JSON file. *)
Example main_exit_example :
  snd (@main steady_host
         (mkArgs "missing.laz" "1" 2 1 "read" 50000 None "laspy" false None (Some "out.json"))
         (@initial_main_state steady_host 0%nat)) = Return 1
  /\ (let r := @main steady_host
         (mkArgs "cloud.laz" "1" 2 1 "read" 50000 None "laspp" false None (Some "out.json"))
         (@initial_main_state steady_host 0%nat) in
      snd r = Return 1 /\ writes (trace (harness (fst r))) = [])
  /\ (let r := @main steady_host example_args (@initial_main_state steady_host 0%nat) in
      snd r = Return 0 /\ writes (trace (harness (fst r))) = ["out.json"]).
Proof. repeat split; vm_compute; reflexivity. Qed.

(** A small aggregation, evaluated. *)
Example ex_agg :
  map (fun s => (summary_key s, n s, mean_s s))
      (aggregate sum_plain
         [mkBenchResult "a" "read" 1 0 f0_1; mkBenchResult "b" "read" 1 0 f1;
          mkBenchResult "a" "read" 1 1 f0_1; mkBenchResult "a" "read" 1 2 f0_1] 0 0)
  = [(("a", "read", 1), 3, f0_1_next); (("b", "read", 1), 1, f1)].
Proof. vm_compute. reflexivity. Qed.

(** ** The laspy drivers that run in the harness process and the environment *)

Section InProcessEnviron.
Context `{H : Host}.

Lemma same_environ_loops w tl op thr warmup iterations :
  preserves same_environ
    (andthen (repeat_call (range_len warmup) (call w))
       (timed_iterations (range_len iterations) 0 (timed w)
          (fun it t => mkBenchResult tl op thr it t) [])).
Proof. unfold timed. frame. Qed.

Lemma restore_rayon_environ old s :
  environ (fst (restore_rayon old s))
  = match old with
    | Some v => <[RAYON_NUM_THREADS := v]> (environ s)
    | None => delete RAYON_NUM_THREADS (environ s)
    end.
Proof. now destruct old. Qed.

(** Setting the variable, running a body that leaves the environment alone
    and restoring the saved value gives back the initial environment. *)
Lemma set_run_restore {A} (set : bool) (v : string) (body : M state A) (final : M state unit) s :
  preserves same_environ body ->
  (forall s2, environ (fst (final s2))
              = environ (fst (restore_rayon (environ s !! RAYON_NUM_THREADS) s2))) ->
  environ (fst (try_finally
                  (andthen (if set then environ_set RAYON_NUM_THREADS v else ret tt) body)
                  final s))
  = environ s.
Proof.
  intros Hbody Hfinal. unfold try_finally, andthen at 1, bind at 1.
  set (s1 := fst ((if set then environ_set RAYON_NUM_THREADS v else ret tt) s)).
  assert (Hs1 : (if set then environ_set RAYON_NUM_THREADS v else ret tt) s = (s1, Return tt))
    by (subst s1; now destruct set).
  rewrite Hs1. destruct (body s1) as [s2 r] eqn:Hb.
  apply Hbody in Hb. unfold same_environ in Hb.
  specialize (Hfinal s2). rewrite restore_rayon_environ in Hfinal.
  assert (Henv1 : environ s1
                  = if set then <[RAYON_NUM_THREADS := v]> (environ s) else environ s)
    by (subst s1; now destruct set).
  assert (Hs3 : environ (fst (final s2)) = environ s).
  { rewrite Hfinal, Hb, Henv1. unfold environment in *.
    match goal with |- match ?o with _ => _ end = _ => destruct o as [v0|] eqn:Hold end;
      destruct set.
    - rewrite insert_insert_eq. now apply insert_id.
    - now apply insert_id.
    - rewrite delete_insert_eq. now apply delete_id.
    - now apply delete_id. }
  destruct (final s2) as [s3 [[]|e]]; exact Hs3.
Qed.

End InProcessEnviron.

Section InProcessClaims.
Context `{H : Host}.

Global Instance trace_extends_refl : Reflexive trace_extends.
Proof. intros s. exists []. now rewrite app_nil_r. Qed.
Global Instance trace_extends_trans : Transitive trace_extends.
Proof. intros s1 s2 s3 [e1 H1] [e2 H2]. exists (e1 ++ e2). now rewrite H2, H1, app_assoc. Qed.

Lemma trace_extends_call w : preserves trace_extends (call w).
Proof.
  intros s s' r. unfold call. destruct (call_workload _ _ _). intros Heq.
  inversion Heq; subst. now eexists.
Qed.

Lemma trace_extends_emit ev : preserves trace_extends (emit ev).
Proof. intros s s' r Heq. inversion Heq; subst. now eexists. Qed.

Lemma trace_extends_restore_rayon old : preserves trace_extends (restore_rayon old).
Proof. intros s s' r Heq. destruct old; inversion Heq; subst; now eexists. Qed.

Lemma trace_extends_loops w tl op thr warmup iterations :
  preserves trace_extends
    (andthen (repeat_call (range_len warmup) (call w))
       (timed_iterations (range_len iterations) 0 (timed w)
          (fun it t => mkBenchResult tl op thr it t) [])).
Proof.
  unfold timed.
  repeat first [ apply preserves_andthen | apply preserves_repeat_call
               | apply preserves_timed_iterations | apply trace_extends_call | exact _ ].
Qed.

(** X2: the in-process laspy drivers put the environment of the harness process
    back as it was, on every exit path; the write driver, given a thread
    count, does set [RAYON_NUM_THREADS] in the harness process itself before
    it runs its loops. *)
Theorem laspy_write_sets_and_restores_environ
    (file : string) (backend : LazBackend) (backend_name : string)
    (warmup iterations chunk_size : Z) (nt : option Z) (s : state) :
  environ (fst (benchmark_laspy_write file backend backend_name warmup iterations
                  chunk_size nt s)) = environ s
  /\ environ (fst (laspy_read_in_process file backend backend_name warmup iterations nt s))
     = environ s
  /\ forall k s1 s2 t0 tmp,
       nt = Some k ->
       call (LaspyRead file backend) s = (s1, Return t0) ->
       host_op (named_temporary_file ".laz") s1 = (s2, Return tmp) ->
       exists evs,
         trace (fst (benchmark_laspy_write file backend backend_name warmup iterations
                       chunk_size nt s))
         = trace s2 ++ EnvSet RAYON_NUM_THREADS (str_of_int k) :: evs.
Proof.
  split; [|split].
  - unfold benchmark_laspy_write, bind at 1.
    destruct (call (LaspyRead file backend) s) as [s1 [t0|e]] eqn:Hc;
      apply same_environ_call in Hc; unfold same_environ in Hc; [|exact Hc].
    unfold bind at 1.
    destruct (host_op (named_temporary_file ".laz") s1) as [s2 [tmp|e]] eqn:Ht;
      apply same_environ_host_op in Ht; unfold same_environ in Ht; [|cbn; congruence].
    unfold bind at 1, environ_get. rewrite <- Hc, <- Ht.
    pose proof (set_run_restore (match nt with Some _ => true | None => false end)
                  (match nt with Some k => str_of_int k | None => "" end)
                  (andthen (repeat_call (range_len warmup)
                              (call (LaspyWrite file tmp backend chunk_size)))
                     (timed_iterations (range_len iterations) 0
                        (timed (LaspyWrite file tmp backend chunk_size))
                        (fun it t => mkBenchResult backend_name "write" (or_zero nt) it t) []))
                  (andthen (restore_rayon (environ s2 !! RAYON_NUM_THREADS))
                     (emit (Unlink tmp))) s2
                  (same_environ_loops _ _ _ _ _ _)) as Hres.
    destruct nt; apply Hres; intros s3;
      destruct (environ s2 !! RAYON_NUM_THREADS); reflexivity.
  - unfold laspy_read_in_process, bind at 1, environ_get.
    pose proof (set_run_restore
                  (match nt with Some _ => bool_decide (backend = LazrsParallel) | None => false end)
                  (match nt with Some k => str_of_int k | None => "" end)
                  (andthen (repeat_call (range_len warmup) (call (LaspyRead file backend)))
                     (timed_iterations (range_len iterations) 0
                        (timed (LaspyRead file backend))
                        (fun it t => mkBenchResult backend_name "read" (or_zero nt) it t) []))
                  (restore_rayon (environ s !! RAYON_NUM_THREADS)) s
                  (same_environ_loops _ _ _ _ _ _) (fun _ => eq_refl)) as Hres.
    destruct nt as [k|]; [destruct (bool_decide (backend = LazrsParallel))|]; exact Hres.
  - intros k s1 s2 t0 tmp -> Hc Ht. unfold benchmark_laspy_write, bind at 1. rewrite Hc.
    unfold bind at 1. rewrite Ht. unfold bind at 1, environ_get, try_finally.
    unfold andthen at 1, bind at 1. cbn [environ_set].
    set (s3 := mkState (world s2) (<[RAYON_NUM_THREADS:=str_of_int k]> (environ s2))
                 (trace s2 ++ [EnvSet RAYON_NUM_THREADS (str_of_int k)])).
    match goal with |- context [let '(_, _) := ?body s3 in _] =>
      destruct (body s3) as [s4 r4] eqn:Hb end.
    apply trace_extends_loops in Hb as [evs1 Hb].
    match goal with |- context [match ?fin s4 with _ => _ end] =>
      destruct (fin s4) as [s5 r5] eqn:Hf end.
    assert (Hf' : trace_extends s4 s5).
    { revert Hf. apply preserves_andthen; try exact _;
        [apply trace_extends_restore_rayon|apply trace_extends_emit]. }
    destruct Hf' as [evs2 Hf'].
    exists (evs1 ++ evs2).
    assert (Htr : trace s5 = trace s2 ++ EnvSet RAYON_NUM_THREADS (str_of_int k) :: evs1 ++ evs2).
    { rewrite Hf', Hb. subst s3. cbn [trace]. now rewrite <- !app_assoc. }
    destruct r5 as [[]|e]; exact Htr.
Qed.

(** X1: when the probing call of the lazrs driver raises an [Exception] other
    than [AttributeError], the driver returns the empty list, as it does
    when lazrs is not installed. *)
Theorem lazrs_probe_failure_returns_empty (file : string) (warmup iterations : Z)
    (s s1 : state) (e0 : exn) :
  HAS_LAZRS = true ->
  call (LazrsRead file) s = (s1, Raise e0) ->
  is_Exception e0 = true ->
  is_AttributeError e0 = false ->
  benchmark_lazrs_read file warmup iterations s = (s1, Return []).
Proof.
  intros Hhas Hp He Ha. unfold benchmark_lazrs_read. rewrite Hhas. cbn [negb].
  unfold bind at 1, try_except, bind at 1. now rewrite Hp, He, Ha.
Qed.

End InProcessClaims.

(** The write driver on the steady host: the variable is set in the harness
    process right after the pre-read. *)
Lemma laspy_write_sets_and_restores_environ_witness :
  exists evs,
    trace (fst (@benchmark_laspy_write steady_host "cloud.laz" LazrsParallel
                  "laspy (lazrs-parallel)" 1 2 50000 (Some 4)
                  (@initial_state steady_host 0%nat)))
    = [Called (LaspyRead "cloud.laz" LazrsParallel) ∅;
       EnvSet "RAYON_NUM_THREADS" "4"] ++ evs.
Proof.
  destruct (@laspy_write_sets_and_restores_environ steady_host "cloud.laz" LazrsParallel
              "laspy (lazrs-parallel)" 1 2 50000 (Some 4) (@initial_state steady_host 0%nat))
    as (_ & _ & Hset).
  destruct (Hset 4 _ _ _ _ eq_refl eq_refl eq_refl) as [evs Hevs].
  exists evs. exact Hevs.
Defined.

(** A probing call that fails on a host where lazrs is installed. *)
Lemma lazrs_probe_failure_returns_empty_witness :
  @benchmark_lazrs_read second_call_fails_host "cloud.laz" 1 2
    (@initial_state second_call_fails_host 1%nat)
  = (@mkState second_call_fails_host 2%nat ∅ [Called (LazrsRead "cloud.laz") ∅],
     Return []).
Proof.
  apply (@lazrs_probe_failure_returns_empty second_call_fails_host "cloud.laz" 1 2
           (@initial_state second_call_fails_host 1%nat) _
           (mkExn OtherException "read error")); reflexivity.
Defined.

(** * Further properties *)

(** ** The order of the summaries *)

Lemma first_occurrences_snoc ks k :
  first_occurrences (ks ++ [k])
  = if decide (k ∈ first_occurrences ks) then first_occurrences ks
    else first_occurrences ks ++ [k].
Proof. unfold first_occurrences. now rewrite fold_left_app. Qed.

Lemma first_occurrences_elem ks k : k ∈ first_occurrences ks <-> k ∈ ks.
Proof.
  induction ks as [|k0 ks IH] using rev_ind.
  - reflexivity.
  - rewrite first_occurrences_snoc, elem_of_app, list_elem_of_singleton.
    case_decide as Hin.
    + rewrite IH. split; [tauto|]. intros [Hk| ->]; [exact Hk|]. now apply IH.
    + rewrite elem_of_app, list_elem_of_singleton, IH. tauto.
Qed.

Lemma first_occurrences_NoDup ks : NoDup (first_occurrences ks).
Proof.
  induction ks as [|k0 ks IH] using rev_ind.
  - constructor.
  - rewrite first_occurrences_snoc. case_decide as Hin; [exact IH|].
    apply NoDup_app. split; [exact IH|]. split; [|apply NoDup_singleton].
    intros x Hx Hx'. apply list_elem_of_singleton in Hx'. congruence.
Qed.

Lemma group_keys_first_occurrences raw :
  map fst (group_samples raw) = first_occurrences (map key_of raw).
Proof.
  induction raw as [|r raw IH] using rev_ind; [reflexivity|].
  rewrite group_samples_snoc, setdefault_append_keys, map_app. cbn [map].
  now rewrite first_occurrences_snoc, IH.
Qed.

Lemma group_samples_by_key raw :
  group_samples raw = map (fun k => (k, times_of k raw)) (map fst (group_samples raw)).
Proof.
  assert (Hall : Forall (fun g => snd g = times_of (fst g) raw) (group_samples raw)).
  { apply List.Forall_forall. intros [k ts] Hin. now apply group_samples_spec in Hin as [-> _]. }
  induction Hall as [|[k ts] l Hg _ IH]; [reflexivity|].
  cbn [map fst snd] in *. now rewrite <- IH, Hg.
Qed.

Lemma first_occurrences_app ks ks' :
  (forall k, k ∈ ks -> k ∉ ks') ->
  first_occurrences (ks ++ ks') = first_occurrences ks ++ first_occurrences ks'.
Proof.
  intros Hdis. induction ks' as [|k ks' IH] using rev_ind.
  - now rewrite !app_nil_r.
  - rewrite app_assoc, !first_occurrences_snoc.
    assert (IH' : first_occurrences (ks ++ ks') = first_occurrences ks ++ first_occurrences ks').
    { apply IH. intros k0 Hk0 Hin. apply (Hdis k0 Hk0). apply elem_of_app. now left. }
    rewrite IH'. destruct (decide (k ∈ first_occurrences ks')) as [Hin|Hnin].
    + rewrite decide_True; [reflexivity|]. apply elem_of_app. now right.
    + rewrite decide_False; [now rewrite app_assoc|].
      intros Hin. apply elem_of_app in Hin as [Hin|Hin]; [|contradiction].
      apply (proj1 (first_occurrences_elem _ _)) in Hin. apply (Hdis k Hin).
      apply elem_of_app. right. now apply list_elem_of_singleton.
Qed.

Lemma times_of_none k raw : k ∉ map key_of raw -> times_of k raw = [].
Proof.
  intros Hk. unfold times_of. induction raw as [|r raw IH]; [reflexivity|].
  rewrite filter_cons. case_decide as Heq.
  - exfalso. apply Hk. cbn [map]. rewrite <- Heq. apply list_elem_of_here.
  - apply IH. intros Hin. apply Hk. cbn [map]. now apply list_elem_of_further.
Qed.

Lemma times_of_app k raw raw' : times_of k (raw ++ raw') = times_of k raw ++ times_of k raw'.
Proof. unfold times_of. now rewrite filter_app, map_app. Qed.

(** X3: the summaries come in the order in which their keys first appear in
    the input, each computed from all the times of its key; they all carry
    the point count and the file size handed to [aggregate]; and there is no
    summary exactly when there is no sample. *)
Theorem aggregate_first_occurrence_order (py_sum : list float -> float)
    (raw : list BenchResult) (np fs : Z) :
  aggregate py_sum raw np fs
  = map (fun k => summarise py_sum np fs (k, times_of k raw))
        (first_occurrences (map key_of raw))
  /\ map summary_key (aggregate py_sum raw np fs) = first_occurrences (map key_of raw)
  /\ Forall (fun s => num_points s = np /\ file_size_bytes s = fs) (aggregate py_sum raw np fs)
  /\ (aggregate py_sum raw np fs = [] <-> raw = []).
Proof.
  split; [|split; [|split]].
  - unfold aggregate. rewrite group_samples_by_key at 1.
    now rewrite map_map, group_keys_first_occurrences.
  - now rewrite aggregate_keys, group_keys_first_occurrences.
  - apply List.Forall_forall. intros s Hs. apply in_aggregate in Hs as ([[tl op] th] & ts & _ & ->).
    now split.
  - split.
    + intros Hnil. destruct raw as [|r raw]; [reflexivity|]. exfalso.
      pose proof (summary_of_sample py_sum (r :: raw) np fs r (or_introl eq_refl)) as Hin.
      rewrite Hnil in Hin. exact Hin.
    + now intros ->.
Qed.

(** X4: aggregating the samples of two runs that share no configuration
    gives the summaries of the first run followed by those of the second. *)
Theorem aggregate_app_disjoint (py_sum : list float -> float)
    (raw raw' : list BenchResult) (np fs : Z) :
  (forall r r', In r raw -> In r' raw' -> key_of r <> key_of r') ->
  aggregate py_sum (raw ++ raw') np fs
  = aggregate py_sum raw np fs ++ aggregate py_sum raw' np fs.
Proof.
  intros Hdis.
  assert (Hks : forall k, k ∈ map key_of raw -> k ∉ map key_of raw').
  { intros k Hk Hk'. apply list_elem_of_fmap in Hk as (r & -> & Hr).
    apply list_elem_of_fmap in Hk' as (r' & Heq & Hr').
    apply list_elem_of_In in Hr, Hr'. exact (Hdis r r' Hr Hr' Heq). }
  unfold aggregate. rewrite <- map_app. f_equal.
  rewrite (group_samples_by_key (raw ++ raw')), (group_samples_by_key raw),
    (group_samples_by_key raw'), !group_keys_first_occurrences, map_app,
    first_occurrences_app, map_app by exact Hks.
  f_equal; apply map_ext_in; intros k Hk; f_equal; rewrite times_of_app;
    apply list_elem_of_In in Hk; apply (proj1 (first_occurrences_elem _ _)) in Hk.
  - rewrite (times_of_none k raw'); [apply app_nil_r|]. now apply Hks.
  - rewrite (times_of_none k raw); [reflexivity|]. intros Hin. now apply (Hks k Hin).
Qed.

(** Three samples of laspp followed by one of laszip. *)
Lemma aggregate_app_disjoint_witness :
  aggregate sum_plain (three_tenths ++ [mkBenchResult "laszip" "read" 1 0 f1]) 7 9
  = aggregate sum_plain three_tenths 7 9
    ++ aggregate sum_plain [mkBenchResult "laszip" "read" 1 0 f1] 7 9.
Proof.
  apply aggregate_app_disjoint. intros r r' Hr [<-|[]].
  destruct Hr as [<-|[<-|[<-|[]]]]; discriminate.
Defined.

(** ** The environment of the harness process across [main] *)

Section Lifting.
Context `{H : Host}.
Context (R : state -> state -> Prop) `{!Reflexive R, !Transitive R}.

Global Instance on_harness_refl : Reflexive (on_harness R).
Proof. intros ms. unfold on_harness. reflexivity. Qed.
Global Instance on_harness_trans : Transitive (on_harness R).
Proof. intros m1 m2 m3. unfold on_harness. intros H1 H2. now transitivity (harness m2). Qed.

Lemma on_harness_run {A} (m : M state A) : preserves R m -> preserves (on_harness R) (run m).
Proof.
  intros Hm ms ms' r. unfold run. destruct (m (harness ms)) as [s' r'] eqn:Heq.
  intros Hr. inversion Hr; subst. unfold on_harness. cbn. eapply Hm. exact Heq.
Qed.

Lemma on_harness_extend res : preserves (on_harness R) (extend res).
Proof. intros ms ms' r Heq. inversion Heq; subst. unfold on_harness. reflexivity. Qed.

Lemma on_harness_metadata_update meta : preserves (on_harness R) (metadata_update meta).
Proof. intros ms ms' r Heq. inversion Heq; subst. unfold on_harness. reflexivity. Qed.

Lemma on_harness_set_locals results md : preserves (on_harness R) (set_locals results md).
Proof. intros ms ms' r Heq. inversion Heq; subst. unfold on_harness. reflexivity. Qed.

Lemma on_harness_get_results : preserves (on_harness R) get_results.
Proof. intros ms ms' r Heq. inversion Heq; subst. unfold on_harness. reflexivity. Qed.

Lemma on_harness_get_metadata : preserves (on_harness R) get_metadata.
Proof. intros ms ms' r Heq. inversion Heq; subst. unfold on_harness. reflexivity. Qed.

Lemma preserves_host_query {A} (q : World -> A) : preserves R (host_query q).
Proof. intros s s' r Heq. inversion Heq. reflexivity. Qed.

Lemma preserves_environ_get k : preserves R (environ_get k).
Proof. intros s s' r Heq. inversion Heq. reflexivity. Qed.

Lemma preserves_environ_copy : preserves R environ_copy.
Proof. intros s s' r Heq. inversion Heq. reflexivity. Qed.

End Lifting.

(** A loop keeps what each of its turns keeps. *)
Lemma preserves_for_each_in {St A} (R : St -> St -> Prop) `{!Reflexive R, !Transitive R}
    (xs : list A) (body : A -> M St unit) :
  (forall x, In x xs -> preserves R (body x)) -> preserves R (for_each xs body).
Proof.
  induction xs as [|x xs IH]; intros Hb; cbn [for_each].
  - now apply preserves_ret.
  - apply preserves_andthen; try assumption.
    + apply Hb. now left.
    + apply IH. intros y Hy. apply Hb. now right.
Qed.

(** Decomposes a goal [preserves R m] along the program; [leaf] closes the
    goals on the operations that are specific to [R]. *)
Ltac frame_along leaf :=
  repeat first
    [ apply preserves_ret | apply preserves_raise | apply preserves_lift
    | apply preserves_host_query | apply preserves_environ_get | apply preserves_environ_copy
    | apply on_harness_extend | apply on_harness_metadata_update
    | apply on_harness_set_locals | apply on_harness_get_results
    | apply on_harness_get_metadata
    | progress leaf
    | apply on_harness_run
    | apply preserves_bind | apply preserves_andthen
    | apply preserves_try_except | apply preserves_try_finally
    | apply preserves_repeat_call | apply preserves_for_each_in
    | apply preserves_timed_iterations
    | exact _
    | match goal with
      | |- forall _, _ => intro
      | |- preserves _ (if ?b then _ else _) => destruct b eqn:?
      | |- preserves _ (match ?x with _ => _ end) => destruct x eqn:?
      | |- preserves _ (let '(_, _) := ?x in _) => destruct x eqn:?
      end ].

Section Environ.
Context `{H : Host}.

Lemma same_environ_run_process c env : preserves same_environ (run_process c env).
Proof.
  intros s s' r. unfold run_process. destruct (subprocess_run _ _ _). intros Heq.
  now inversion Heq.
Qed.

Lemma same_environ_from_fst {A} (m : M state A) :
  (forall s, environ (fst (m s)) = environ s) -> preserves same_environ m.
Proof. intros Hm s s' r Heq. unfold same_environ. now rewrite <- (Hm s), Heq. Qed.

Lemma same_environ_in_process file backend backend_name warmup iterations nt :
  preserves same_environ
    (laspy_read_in_process file backend backend_name warmup iterations nt).
Proof.
  apply same_environ_from_fst. intros s.
  unfold laspy_read_in_process, bind at 1, environ_get.
  pose proof (set_run_restore
                (match nt with Some _ => bool_decide (backend = LazrsParallel) | None => false end)
                (match nt with Some k => str_of_int k | None => "" end)
                (andthen (repeat_call (range_len warmup) (call (LaspyRead file backend)))
                   (timed_iterations (range_len iterations) 0
                      (timed (LaspyRead file backend))
                      (fun it t => mkBenchResult backend_name "read" (or_zero nt) it t) []))
                (restore_rayon (environ s !! RAYON_NUM_THREADS)) s
                (same_environ_loops _ _ _ _ _ _) (fun _ => eq_refl)) as Hres.
  destruct nt as [k|]; [destruct (bool_decide (backend = LazrsParallel))|]; exact Hres.
Qed.

Lemma same_environ_laspy_read file backend backend_name warmup iterations nt :
  preserves same_environ
    (benchmark_laspy_read file backend backend_name warmup iterations nt).
Proof.
  unfold benchmark_laspy_read.
  destruct nt as [k|]; [destruct (bool_decide (backend = LazrsParallel))|];
    try apply same_environ_in_process.
  unfold laspy_read_subprocess.
  frame_along ltac:(first [apply same_environ_run_process]).
Qed.

Lemma same_environ_laspy_write file backend backend_name warmup iterations chunk_size nt :
  preserves same_environ
    (benchmark_laspy_write file backend backend_name warmup iterations chunk_size nt).
Proof.
  apply same_environ_from_fst. intros s.
  unfold benchmark_laspy_write, bind at 1.
  destruct (call (LaspyRead file backend) s) as [s1 [t0|e]] eqn:Hc;
    apply same_environ_call in Hc; unfold same_environ in Hc; [|exact Hc].
  unfold bind at 1.
  destruct (host_op (named_temporary_file ".laz") s1) as [s2 [tmp|e]] eqn:Ht;
    apply same_environ_host_op in Ht; unfold same_environ in Ht; [|cbn; congruence].
  unfold bind at 1, environ_get. rewrite <- Hc, <- Ht.
  pose proof (set_run_restore (match nt with Some _ => true | None => false end)
                (match nt with Some k => str_of_int k | None => "" end)
                (andthen (repeat_call (range_len warmup)
                            (call (LaspyWrite file tmp backend chunk_size)))
                   (timed_iterations (range_len iterations) 0
                      (timed (LaspyWrite file tmp backend chunk_size))
                      (fun it t => mkBenchResult backend_name "write" (or_zero nt) it t) []))
                (andthen (restore_rayon (environ s2 !! RAYON_NUM_THREADS))
                   (emit (Unlink tmp))) s2
                (same_environ_loops _ _ _ _ _ _)) as Hres.
  destruct nt; apply Hres; intros s3;
    destruct (environ s2 !! RAYON_NUM_THREADS); reflexivity.
Qed.

Ltac environ_leaf :=
  first [ apply same_environ_laspy_read | apply same_environ_laspy_write
        | apply same_environ_call | apply same_environ_emit | apply same_environ_host_op
        | apply same_environ_run_process ].

Lemma same_environ_main args : preserves (on_harness same_environ) (main args).
Proof.
  unfold main, measure_all, report_section, report_tail, cpp_section, laspy_section,
    laspy_backend, laspy_cell, lazrs_section, pdal_section, run_cpp_benchmark,
    find_benchmark_binary, detect_laspy_backends, benchmark_lazrs_read,
    benchmark_pdal_read, benchmark_pdal_write, benchmark_pdal, when, warn_failed, timed.
  frame_along environ_leaf.
Qed.

End Environ.

Section Events.
Context `{H : Host}.
Context (P : event -> Prop).

Global Instance adds_only_refl : Reflexive (adds_only P).
Proof. intros s. exists []. split; [now rewrite app_nil_r|constructor]. Qed.
Global Instance adds_only_trans : Transitive (adds_only P).
Proof.
  intros s1 s2 s3 (e1 & H1 & F1) (e2 & H2 & F2). exists (e1 ++ e2).
  split; [now rewrite H2, H1, app_assoc|now apply Forall_app].
Qed.

Lemma adds_only_emit ev : P ev -> preserves (adds_only P) (emit ev).
Proof.
  intros Hev s s' r Heq. inversion Heq; subst. exists [ev]. split; [reflexivity|].
  now constructor.
Qed.

Lemma adds_only_call w : (forall env, P (Called w env)) -> preserves (adds_only P) (call w).
Proof.
  intros Hev s s' r. unfold call. destruct (call_workload _ _ _). intros Heq.
  inversion Heq; subst. eexists. split; [reflexivity|]. constructor; [apply Hev|constructor].
Qed.

Lemma adds_only_run_process c env :
  P (Spawn c env) -> preserves (adds_only P) (run_process c env).
Proof.
  intros Hev s s' r. unfold run_process. destruct (subprocess_run _ _ _). intros Heq.
  inversion Heq; subst. eexists. split; [reflexivity|]. now constructor.
Qed.

Lemma adds_only_environ_set k v :
  P (EnvSet k v) -> preserves (adds_only P) (environ_set k v).
Proof.
  intros Hev s s' r Heq. inversion Heq; subst. eexists. split; [reflexivity|]. now constructor.
Qed.

Lemma adds_only_environ_pop k : P (EnvPop k) -> preserves (adds_only P) (environ_pop k).
Proof.
  intros Hev s s' r Heq. inversion Heq; subst. eexists. split; [reflexivity|]. now constructor.
Qed.

Lemma adds_only_host_op {A} (op : World -> World * pyres A) :
  preserves (adds_only P) (host_op op).
Proof.
  intros s s' r. unfold host_op. destruct (op _). intros Heq. inversion Heq; subst.
  exists []. split; [cbn; now rewrite app_nil_r|constructor].
Qed.

End Events.

Ltac events_leaf side :=
  first [ apply adds_only_host_op
        | apply adds_only_emit; side
        | apply adds_only_call; side
        | apply adds_only_run_process; side
        | apply adds_only_environ_set; side
        | apply adds_only_environ_pop; side ].

Ltac unfold_main :=
  unfold main, measure_all, report_section, report_tail, cpp_section, laspy_section,
    laspy_backend, laspy_cell, lazrs_section, pdal_section, run_cpp_benchmark,
    find_benchmark_binary, detect_laspy_backends,
    benchmark_pdal_read, benchmark_pdal_write, benchmark_pdal, benchmark_laspy_read,
    benchmark_laspy_write, laspy_read_subprocess, laspy_read_in_process, restore_rayon,
    when, warn_failed, timed.

(** A sequence keeps [R] when its second part keeps it for the values the
    first part can return. *)
Lemma preserves_bind_post {St A B} (R : St -> St -> Prop) `{!Reflexive R, !Transitive R}
    (Q : A -> Prop) (m : M St A) (f : A -> M St B) :
  preserves R m ->
  (forall s s' a, m s = (s', Return a) -> Q a) ->
  (forall a, Q a -> preserves R (f a)) ->
  preserves R (bind m f).
Proof.
  intros Hm HQ Hf s s' r. unfold bind. destruct (m s) as [s1 [a|e]] eqn:Hms; intros Heq.
  - transitivity s1; [eapply Hm; exact Hms|]. eapply Hf; [eapply HQ; exact Hms|exact Heq].
  - inversion Heq; subst. eapply Hm; exact Hms.
Qed.

Section LazrsEvents.
Context `{H : Host}.
Context (P : event -> Prop).

(** The lazrs driver calls nothing but its two readers. *)
Lemma adds_only_lazrs_read file warmup iterations :
  (forall env, P (Called (LazrsRead file) env)) ->
  (forall env, P (Called (LazrsReadFallback file) env)) ->
  preserves (adds_only P) (benchmark_lazrs_read file warmup iterations).
Proof.
  intros H1 H2. unfold benchmark_lazrs_read.
  destruct (negb HAS_LAZRS); [apply preserves_ret; exact _|].
  apply (preserves_bind_post _
           (fun probed => probed = None \/ probed = Some (LazrsRead file)
                          \/ probed = Some (LazrsReadFallback file))).
  - frame_along ltac:(first [apply adds_only_call; assumption]).
  - intros s s' a. unfold try_except, bind, ret.
    destruct (call (LazrsRead file) s) as [s1 [t|e]]; [intros Heq; inversion Heq; tauto|].
    destruct (is_Exception e); [|discriminate].
    destruct (is_AttributeError e); [|intros Heq; inversion Heq; tauto].
    destruct (call (LazrsReadFallback file) s1) as [s2 [t|e']];
      [intros Heq; inversion Heq; tauto|].
    destruct (is_Exception e'); [intros Heq; inversion Heq; tauto|discriminate].
  - intros probed [->|[->| ->]]; unfold timed;
      frame_along ltac:(first [apply adds_only_call; assumption]).
Qed.

End LazrsEvents.

Section MainEvents.
Context `{H : Host}.

(** X5: whatever [main] does and however it ends, the environment of the
    harness process is at the end what it was at the start, and on the way
    no variable other than [RAYON_NUM_THREADS] is set or removed. *)
Theorem main_restores_environ (args : Args) (ms : main_state) :
  environ (harness (fst (main args ms))) = environ (harness ms)
  /\ adds_only touches_only_rayon (harness ms) (harness (fst (main args ms))).
Proof.
  split.
  - destruct (main args ms) as [ms' r] eqn:Hm. now apply same_environ_main in Hm.
  - destruct (main args ms) as [ms' r] eqn:Hm. revert Hm.
    assert (Hp : preserves (on_harness (adds_only touches_only_rayon)) (main args)).
    { unfold_main.
      frame_along ltac:(first [ apply adds_only_lazrs_read; intros; exact I
                              | events_leaf ltac:(intros; exact I || reflexivity) ]). }
    apply Hp.
Qed.

End MainEvents.

Ltac asked :=
  intros; cbn [asked_for];
  repeat match goal with
         | Hb : (_ && _)%bool = true |- _ => apply andb_prop in Hb as [? ?]
         | Hb : bool_decide _ = true |- _ => apply bool_decide_eq_true in Hb
         | Hb : negb _ = false |- _ => apply negb_false_iff in Hb
         | Hb : (_ || _)%bool = true |- _ => apply orb_prop in Hb
         | Hin : In _ (_ :: _) |- _ => destruct Hin as [Hin|Hin]
         | Hin : In _ [] |- _ => destruct Hin
         | Hor : _ \/ _ |- _ => destruct Hor
         end;
  simplify_eq;
  repeat split; try assumption; try discriminate; try tauto.

Section Asked.
Context `{H : Host}.

(** X6: a run calls the workloads of a tool, and starts children for it,
    only if the tool is named in [--tools] and is installed; laspy is only
    run with its lazrs-parallel and laszip backends; a write workload is
    only run when the operation is [write] or [both], and the lazrs package
    and a subprocess-isolated read only when it is [read] or [both]. *)
Theorem main_runs_only_what_was_asked (args : Args) (ms : main_state) :
  adds_only (asked_for (tools_of args) (reads args) (writes_too args))
    (harness ms) (harness (fst (main args ms))).
Proof.
  destruct (main args ms) as [ms' r] eqn:Hm. revert Hm.
  assert (Hp : preserves
                 (on_harness (adds_only (asked_for (tools_of args) (reads args)
                                           (writes_too args))))
                 (main args)); [|apply Hp].
  unfold tools_of, reads, writes_too. unfold_main.
  frame_along ltac:(first [apply adds_only_lazrs_read; asked | events_leaf asked]).
Qed.

End Asked.

(** ** Temporary files *)

Section TempFiles.
Context `{H : Host}.

Lemma trace_extends_try_finally_last {A} (body : M state A) (final : M state unit) ev s :
  preserves trace_extends body ->
  (forall s1, exists evs, trace (fst (final s1)) = trace s1 ++ evs ++ [ev]) ->
  exists evs, trace (fst (try_finally body final s)) = trace s ++ evs ++ [ev].
Proof.
  intros Hb Hf. unfold try_finally. destruct (body s) as [s1 r] eqn:Hbs.
  apply Hb in Hbs as [evs1 Hbs]. destruct (Hf s1) as [evs2 Hfs].
  exists (evs1 ++ evs2).
  assert (Htr : trace (fst (final s1)) = trace s ++ (evs1 ++ evs2) ++ [ev])
    by (rewrite Hfs, Hbs; now rewrite <- !app_assoc).
  destruct (final s1) as [s2 [[]|e]]; exact Htr.
Qed.

Lemma trace_extends_environ_set k v : preserves trace_extends (environ_set k v).
Proof. intros s s' r Heq. inversion Heq; subst. now eexists. Qed.

(** X7: a driver that creates a temporary file removes it before it ends,
    whether it returns or raises: the removal is the last thing the driver
    does. *)
Theorem temporary_file_is_unlinked :
  (forall file backend backend_name warmup iterations chunk_size nt s s1 s2 t0 tmp,
     call (LaspyRead file backend) s = (s1, Return t0) ->
     host_op (named_temporary_file ".laz") s1 = (s2, Return tmp) ->
     exists evs,
       trace (fst (benchmark_laspy_write file backend backend_name warmup iterations
                     chunk_size nt s))
       = trace s2 ++ evs ++ [Unlink tmp])
  /\ (forall file warmup iterations s s2 out,
     HAS_PDAL = true ->
     host_op (named_temporary_file ".las") s = (s2, Return out) ->
     exists evs,
       trace (fst (benchmark_pdal_read file warmup iterations s))
       = trace s2 ++ evs ++ [Unlink out])
  /\ (forall file warmup iterations s s2 out,
     HAS_PDAL = true ->
     host_op (named_temporary_file ".laz") s = (s2, Return out) ->
     exists evs,
       trace (fst (benchmark_pdal_write file warmup iterations s))
       = trace s2 ++ evs ++ [Unlink out]).
Proof.
  split; [|split].
  - intros file backend backend_name warmup iterations chunk_size nt s s1 s2 t0 tmp Hc Ht.
    unfold benchmark_laspy_write, bind at 1. rewrite Hc. unfold bind at 1. rewrite Ht.
    unfold bind at 1, environ_get.
    apply trace_extends_try_finally_last.
    + apply preserves_andthen; try exact _; [|apply trace_extends_loops].
      destruct nt; [apply trace_extends_environ_set|apply preserves_ret; exact _].
    + intros s3. destruct (environ s2 !! RAYON_NUM_THREADS) as [v|].
      * exists [EnvSet RAYON_NUM_THREADS v]. cbn. now rewrite <- app_assoc.
      * exists [EnvPop RAYON_NUM_THREADS]. cbn. now rewrite <- app_assoc.
  - intros file warmup iterations s s2 out Hp Ht.
    unfold benchmark_pdal_read, benchmark_pdal. rewrite Hp. cbn [negb].
    unfold bind at 1. rewrite Ht.
    apply trace_extends_try_finally_last; [apply trace_extends_loops|].
    intros s3. now exists [].
  - intros file warmup iterations s s2 out Hp Ht.
    unfold benchmark_pdal_write, benchmark_pdal. rewrite Hp. cbn [negb].
    unfold bind at 1. rewrite Ht.
    apply trace_extends_try_finally_last; [apply trace_extends_loops|].
    intros s3. now exists [].
Qed.

End TempFiles.

(** ** Tool discovery *)

Lemma find_app_first {A} (f : A -> bool) (l1 l2 : list A) :
  find f (l1 ++ l2) = match find f l1 with Some x => Some x | None => find f l2 end.
Proof.
  induction l1 as [|x l1 IH]; [reflexivity|]. cbn [app find]. now destruct (f x).
Qed.

Section Discovery.
Context `{H : Host}.

Lemma find_benchmark_binary_run hint s :
  find_benchmark_binary hint s
  = (s, Return (List.find (fun p => usable p (world s))
                  ((if truthy hint then option_list hint else [])
                   ++ build_tree_places
                   ++ option_list (which "benchmark" (world s))))).
Proof.
  unfold find_benchmark_binary, host_query. do 3 f_equal.
  destruct hint as [h|]; [destruct (truthy (Some h))|]; reflexivity.
Qed.

(** X8: [find_benchmark_binary] changes nothing and always returns; a path
    it returns exists and is executable; a non-empty hint that is usable is
    the answer, before the build tree and the search path; a usable place of
    the build tree is preferred to the search path; and the answer is [None]
    only when neither the hint, nor a place of the build tree, nor the
    [benchmark] of the search path is usable. *)
Theorem find_benchmark_binary_finds_usable (hint : option string) (s : state) :
  exists found,
    find_benchmark_binary hint s = (s, Return found)
    /\ (forall p, found = Some p -> usable p (world s) = true)
    /\ (forall h, hint = Some h -> h <> EmptyString -> usable h (world s) = true ->
          found = Some h)
    /\ (forall p, found = Some p -> which "benchmark" (world s) = Some p ->
          p ∈ build_tree_places \/ hint = Some p
          \/ Forall (fun q => usable q (world s) = false) build_tree_places)
    /\ (found = None <->
          (forall h, hint = Some h -> h <> EmptyString -> usable h (world s) = false)
          /\ Forall (fun q => usable q (world s) = false) build_tree_places
          /\ (forall p, which "benchmark" (world s) = Some p -> usable p (world s) = false)).
Proof.
  eexists. split; [apply find_benchmark_binary_run|].
  set (cands := (if truthy hint then option_list hint else [])
                ++ build_tree_places ++ option_list (which "benchmark" (world s))).
  split; [|split; [|split]].
  - intros p Hf. now apply find_some in Hf as [_ Hf].
  - intros h -> Hne Hu. subst cands. cbn [truthy].
    rewrite bool_decide_eq_false_2 by exact Hne. cbn [negb].
    change (option_list (Some h)) with [h]. cbn [app find]. now rewrite Hu.
  - intros p Hf Hw.
    destruct (decide (p ∈ build_tree_places)) as [|Hnb]; [now left|right].
    destruct (decide (hint = Some p)) as [|Hnh]; [now left|right].
    apply List.Forall_forall. intros q Hq.
    destruct (usable q (world s)) eqn:Hu; [exfalso|reflexivity].
    subst cands. rewrite find_app_first in Hf.
    destruct (find _ (if truthy hint then option_list hint else [])) as [p0|] eqn:Hh.
    + inversion Hf; subst p0. apply find_some in Hh as [Hin _].
      destruct hint as [h|]; [destruct (truthy (Some h))|]; try destruct Hin as [->|[]];
        try destruct Hin. now apply Hnh.
    + rewrite find_app_first in Hf. destruct (find _ build_tree_places) as [p1|] eqn:Hb.
      * inversion Hf; subst p1. apply find_some in Hb as [Hin _].
        apply Hnb. now apply list_elem_of_In.
      * eapply find_none in Hb; [|exact Hq]. cbn beta in Hb. congruence.
  - split.
    + intros Hnone. subst cands. split; [|split].
      * intros h -> Hne. apply (find_none _ _ Hnone h). cbn [truthy].
        rewrite bool_decide_eq_false_2 by exact Hne. now left.
      * apply List.Forall_forall. intros q Hq. apply (find_none _ _ Hnone q).
        apply in_or_app. right. apply in_or_app. now left.
      * intros p Hw. apply (find_none _ _ Hnone p).
        apply in_or_app. right. apply in_or_app. right. rewrite Hw. now left.
    + intros (Hh & Hb & Hw). destruct (find _ cands) as [p|] eqn:Hf; [exfalso|reflexivity].
      apply find_some in Hf as [Hin Hu]. subst cands.
      apply in_app_or in Hin as [Hin|Hin]; [|apply in_app_or in Hin as [Hin|Hin]].
      * destruct hint as [h|]; [|destruct Hin]. cbn [truthy] in Hin.
        destruct (decide (h = EmptyString)) as [->|Hne].
        -- rewrite bool_decide_eq_true_2 in Hin by reflexivity. destruct Hin.
        -- rewrite bool_decide_eq_false_2 in Hin by exact Hne. destruct Hin as [->|[]].
           rewrite (Hh p eq_refl Hne) in Hu. discriminate.
      * rewrite List.Forall_forall in Hb. rewrite (Hb p Hin) in Hu. discriminate.
      * destruct (which "benchmark" (world s)) as [w|]; [|destruct Hin].
        destruct Hin as [->|[]]. rewrite (Hw p eq_refl) in Hu. discriminate.
Qed.

End Discovery.

Section Detect.
Context `{H : Host}.

(** X9: [detect_laspy_backends] never ends with an [Exception]: without
    laspy it returns the empty dict; with laspy it answers for the three
    backends, in this order, and a probe that raises counts as "not
    available". *)
Theorem detect_laspy_backends_never_raises :
  (HAS_LASPY = false -> forall s, detect_laspy_backends s = (s, Return []))
  /\ contained detect_laspy_backends
  /\ (forall s s' l,
        HAS_LASPY = true -> detect_laspy_backends s = (s', Return l) ->
        map fst l = ["laspy_lazrs_parallel"; "laspy_lazrs"; "laspy_laszip"])
  /\ (forall avail s,
        HAS_LASPY = true ->
        (forall wd, laz_detect_available wd = (wd, Return avail)) ->
        detect_laspy_backends s
        = (s, Return [("laspy_lazrs_parallel", bool_decide (LazrsParallel ∈ avail));
                      ("laspy_lazrs", bool_decide (Lazrs ∈ avail));
                      ("laspy_laszip", bool_decide (Laszip ∈ avail))]))
  /\ (forall e s,
        HAS_LASPY = true -> is_Exception e = true ->
        (forall wd, laz_detect_available wd = (wd, Raise e)) ->
        detect_laspy_backends s
        = (s, Return [("laspy_lazrs_parallel", false); ("laspy_lazrs", false);
                      ("laspy_laszip", false)])).
Proof.
  split; [|split; [apply contained_detect|split; [|split]]].
  - intros Hno s. unfold detect_laspy_backends. now rewrite Hno.
  - intros s s' l Hyes. unfold detect_laspy_backends. rewrite Hyes. cbn [negb].
    unfold bind, try_except, host_op, ret.
    repeat match goal with
           | |- context [laz_detect_available ?w] =>
               destruct (laz_detect_available w) as [? [?|?]]
           | |- context [is_Exception ?e] => destruct (is_Exception e)
           end; intros Heq; inversion Heq; reflexivity.
  - intros avail s Hyes Hav. unfold detect_laspy_backends. rewrite Hyes. cbn [negb].
    unfold bind, try_except, host_op, ret.
    repeat first [rewrite Hav | progress cbn [world]]. now destruct s.
  - intros e s Hyes He Hav. unfold detect_laspy_backends. rewrite Hyes. cbn [negb].
    unfold bind, try_except, host_op, ret.
    repeat first [rewrite Hav | rewrite He | progress cbn [world]]. now destruct s.
Qed.

End Detect.

(** On the host of the examples, which has the lazrs-parallel and the laszip
    backend. *)
Lemma detect_laspy_backends_never_raises_witness :
  @detect_laspy_backends steady_host (@initial_state steady_host 0%nat)
  = (@initial_state steady_host 0%nat,
     Return [("laspy_lazrs_parallel", true); ("laspy_lazrs", false); ("laspy_laszip", true)]).
Proof.
  destruct (@detect_laspy_backends_never_raises steady_host) as (_ & _ & _ & Hav & _).
  exact (Hav [LazrsParallel; Laszip] (@initial_state steady_host 0%nat) eq_refl
           (fun _ => eq_refl)).
Defined.

(** ** The default thread counts *)

Lemma sorted_ints_elem s t : t ∈ sorted_ints s <-> t ∈ s.
Proof. unfold sorted_ints. now rewrite merge_sort_Permutation, elem_of_elements. Qed.

Lemma StronglySorted_lt_of_le (l : list Z) :
  StronglySorted Z.le l -> NoDup l -> StronglySorted Z.lt l.
Proof.
  induction 1 as [|x l Hs IH Hall]; intros Hnd; constructor.
  - apply IH. now apply NoDup_cons in Hnd as [_ Hnd].
  - apply NoDup_cons in Hnd as [Hx _]. rewrite List.Forall_forall in *.
    intros y Hy. specialize (Hall y Hy).
    assert (x <> y) by (intros ->; now apply Hx, list_elem_of_In). lia.
Qed.

Lemma sorted_ints_increasing s : StronglySorted Z.lt (sorted_ints s).
Proof.
  apply StronglySorted_lt_of_le.
  - apply StronglySorted_merge_sort; apply _.
  - unfold sorted_ints. rewrite merge_sort_Permutation. apply NoDup_elements.
Qed.

Lemma StronglySorted_filter {A} (R : A -> A -> Prop) (P : A -> Prop)
    `{!forall x, Decision (P x)} (l : list A) :
  StronglySorted R l -> StronglySorted R (filter P l).
Proof.
  induction 1 as [|x l Hs IH Hall]; [constructor|].
  rewrite filter_cons. case_decide; [|exact IH]. constructor; [exact IH|].
  rewrite List.Forall_forall in *. intros y Hy. apply Hall.
  apply list_elem_of_In in Hy. apply list_elem_of_filter in Hy as [_ Hy].
  now apply list_elem_of_In.
Qed.

Lemma increasing_last (l : list Z) (x : Z) :
  StronglySorted Z.lt l -> x ∈ l -> (forall y, y ∈ l -> y <= x) -> last l = Some x.
Proof.
  intros Hs Hx Hmax. destruct l as [|z l] using rev_ind; [now apply elem_of_nil in Hx|].
  clear IHl. rewrite last_snoc. f_equal.
  apply elem_of_app in Hx as [Hx|Hx]; [|apply list_elem_of_singleton in Hx; congruence].
  assert (x < z).
  { eapply StronglySorted_app_1_elem_of; [exact Hs|exact Hx|]. apply list_elem_of_here. }
  assert (z <= x) by (apply Hmax, elem_of_app; right; apply list_elem_of_here). lia.
Qed.

Lemma increasing_head (l : list Z) (x : Z) :
  StronglySorted Z.lt l -> x ∈ l -> (forall y, y ∈ l -> x <= y) -> head l = Some x.
Proof.
  intros Hs Hx Hmin. destruct l as [|z l]; [now apply elem_of_nil in Hx|].
  cbn. f_equal. apply elem_of_cons in Hx as [->|Hx]; [reflexivity|].
  apply StronglySorted_inv in Hs as [_ Hall]. rewrite List.Forall_forall in Hall.
  assert (z < x) by (apply Hall; now apply list_elem_of_In).
  assert (x <= z) by (apply Hmin, list_elem_of_here). lia.
Qed.

Lemma default_thread_counts_elem hw lg t :
  1 <= hw ->
  t ∈ default_thread_counts hw lg
  <-> t = 1 \/ t = 2 \/ t = 4 \/ t = hw \/ exists k, 0 <= k <= lg /\ t = 2 ^ k /\ t <= hw.
Proof.
  intros Hhw. unfold default_thread_counts.
  rewrite list_elem_of_filter, sorted_ints_elem, elem_of_union, !elem_of_union,
    !elem_of_singleton, elem_of_list_to_set, list_elem_of_filter, list_elem_of_fmap.
  split.
  - intros [_ [[[[?|?]|?]|?]|[Hle (k & -> & Hk)]]]; try tauto.
    apply elem_of_seqZ in Hk. do 4 right. exists k. split; [lia|]. now split.
  - intros Ht. split.
    + destruct Ht as [->|[->|[->|[->|(k & Hk & -> & _)]]]]; try lia.
      all: assert (0 < 2 ^ k) by (apply Z.pow_pos_nonneg; lia); lia.
    + destruct Ht as [->|[->|[->|[->|(k & Hk & -> & Hle)]]]]; try tauto.
      right. split; [exact Hle|]. exists k. split; [reflexivity|].
      apply elem_of_seqZ. lia.
Qed.

(** X10: the default thread counts are strictly increasing; they are 1, 2,
    4, the number of hardware threads and the powers of two up to it that
    the logarithm reaches, so they start at 1, always contain 2 and 4, even
    on a machine with fewer hardware threads, and end at the larger of 4 and
    the number of hardware threads; when the logarithm is not below the
    exact one, every power of two up to the number of hardware threads is
    among them. *)
Theorem default_thread_counts_spec (hw lg : Z) :
  1 <= hw ->
  let l := default_thread_counts hw lg in
  StronglySorted Z.lt l
  /\ (forall t, t ∈ l <->
        t = 1 \/ t = 2 \/ t = 4 \/ t = hw \/ exists k, 0 <= k <= lg /\ t = 2 ^ k /\ t <= hw)
  /\ head l = Some 1
  /\ last l = Some (Z.max 4 hw)
  /\ (Z.log2 hw <= lg -> forall k, 0 <= k -> 2 ^ k <= hw -> 2 ^ k ∈ l).
Proof.
  intros Hhw l.
  assert (Hs : StronglySorted Z.lt l)
    by (apply StronglySorted_filter, sorted_ints_increasing).
  assert (Hin : forall t, t ∈ l <->
            t = 1 \/ t = 2 \/ t = 4 \/ t = hw
            \/ exists k, 0 <= k <= lg /\ t = 2 ^ k /\ t <= hw)
    by (intros t; now apply default_thread_counts_elem).
  split; [exact Hs|]. split; [exact Hin|]. split; [|split].
  - apply increasing_head; [exact Hs|apply Hin; tauto|].
    intros y Hy. apply Hin in Hy as [->|[->|[->|[->|(k & Hk & -> & _)]]]]; try lia.
    all: assert (0 < 2 ^ k) by (apply Z.pow_pos_nonneg; lia); lia.
  - apply increasing_last; [exact Hs| |].
    + apply Hin. destruct (Z.max_spec 4 hw) as [[_ ->]|[_ ->]]; tauto.
    + intros y Hy. apply Hin in Hy as [->|[->|[->|[->|(k & Hk & -> & Hle)]]]]; lia.
  - intros Hlg k Hk Hle. apply Hin. do 4 right. exists k. split; [|now split].
    split; [exact Hk|]. apply Z.log2_le_pow2 in Hle; lia.
Qed.

(** A machine with six hardware threads: 1, 2, 4 and 6. *)
Lemma default_thread_counts_spec_witness :
  StronglySorted Z.lt (default_thread_counts 6 2)
  /\ head (default_thread_counts 6 2) = Some 1
  /\ last (default_thread_counts 6 2) = Some 6.
Proof.
  destruct (default_thread_counts_spec 6 2 ltac:(lia)) as (Hs & _ & Hh & Hl & _).
  split; [exact Hs|]. split; [exact Hh|exact Hl].
Defined.

Section ThreadsOption.
Context `{H : Host}.

Lemma py_join_cons (p : string) (q : string) (rest : list string) :
  py_join "," (p :: q :: rest) = (p ++ String comma (py_join "," (q :: rest)))%string.
Proof. reflexivity. Qed.

Lemma parse_joined_ints (l : list Z) :
  l <> [] -> ints_round_trip l ->
  parse_ints (py_split comma (py_join "," (map str_of_int l))) = Return l.
Proof.
  induction l as [|k l IH]; [congruence|]. intros _ Hrt.
  destruct (Hrt k (list_elem_of_here _ _)) as [Hc Hi].
  destruct l as [|k' l].
  - cbn [map py_join]. rewrite py_split_none by exact Hc. cbn [parse_ints]. now rewrite Hi.
  - cbn [map]. rewrite py_join_cons, py_split_app by exact Hc.
    cbn [parse_ints]. rewrite Hi. cbn [map] in IH. rewrite IH; [reflexivity|discriminate|].
    intros j Hj. apply Hrt. now apply list_elem_of_further.
Qed.

(** X11: what [main] reads from the default of [--threads] is the list of
    thread counts that [parse_args] put into it, provided [str] and [int]
    are inverse on these counts; the same holds of every non-empty list of
    counts joined with commas. *)
Theorem default_threads_read_back (hw lg : Z) :
  1 <= hw ->
  ints_round_trip (default_thread_counts hw lg) ->
  parse_ints (py_split comma (default_threads hw lg)) = Return (default_thread_counts hw lg)
  /\ forall l, l <> [] -> ints_round_trip l ->
       parse_ints (py_split comma (py_join "," (map str_of_int l))) = Return l.
Proof.
  intros Hhw Hrt. split; [|apply parse_joined_ints].
  apply parse_joined_ints; [|exact Hrt].
  intros Hnil. assert (Hin : 1 ∈ default_thread_counts hw lg)
    by (apply default_thread_counts_elem; tauto).
  rewrite Hnil in Hin. now apply elem_of_nil in Hin.
Qed.

(** X12: a [--threads] value with an item that is not an integer makes
    [main] raise the [ValueError] of [int] before it prints or runs
    anything, file size and tools untouched; it is the missing input file
    that is checked first. *)
Theorem main_rejects_malformed_threads (args : Args) (ms : main_state) (e : exn) :
  path_exists (a_file args) (world (harness ms)) = true ->
  parse_ints (py_split comma (a_threads args)) = Raise e ->
  main args ms = (ms, Raise e) /\ exn_cls e = ValueError.
Proof.
  intros Hfile Hparse. split.
  - unfold main, bind at 1, run at 1, host_query. cbn [harness]. rewrite Hfile. cbn [negb].
    unfold bind at 1, lift. rewrite Hparse. now destruct ms as [[] ? ?].
  - revert e Hparse. induction (py_split comma (a_threads args)) as [|p rest IH];
      intros e; cbn [parse_ints]; [discriminate|].
    destruct (int_of_str p); [|intros Heq; now inversion Heq].
    destruct (parse_ints rest) as [ks|e']; [discriminate|].
    intros Heq. inversion Heq; subst. now apply IH.
Qed.

End ThreadsOption.

(** ** Sorting *)

Section Sorted.
Context {A K : Type} (ltb : K -> K -> bool) (key : A -> K).

Lemma insert_by_Permutation x l : insert_by ltb key x l ≡ₚ x :: l.
Proof.
  induction l as [|y l IH]; [reflexivity|]. cbn [insert_by].
  destruct (ltb (key y) (key x)); [|reflexivity].
  rewrite IH. apply Permutation_swap.
Qed.

Lemma py_sorted_Permutation l : py_sorted ltb key l ≡ₚ l.
Proof.
  induction l as [|x l IH]; [reflexivity|].
  unfold py_sorted. cbn [foldr]. rewrite insert_by_Permutation. now constructor.
Qed.

(** The order [<] of the keys is a strict total order. *)
Hypothesis ltb_asym : forall a b, ltb a b = true -> ltb b a = false.
Hypothesis le_trans : forall a b c, ltb b a = false -> ltb c b = false -> ltb c a = false.

Let le (x y : A) : Prop := ltb (key y) (key x) = false.

Lemma insert_by_sorted x l :
  StronglySorted le l -> StronglySorted le (insert_by ltb key x l).
Proof.
  induction 1 as [|y l Hs IH Hall]; [repeat constructor|].
  cbn [insert_by]. destruct (ltb (key y) (key x)) eqn:Hyx.
  - constructor; [exact IH|]. rewrite (insert_by_Permutation x l).
    constructor; [|exact Hall]. unfold le. now apply ltb_asym.
  - constructor; [now constructor|]. constructor; [exact Hyx|].
    eapply List.Forall_impl; [|exact Hall]. intros z Hz. unfold le in *.
    eapply le_trans; [exact Hyx|exact Hz].
Qed.

Lemma py_sorted_sorted l : StronglySorted le (py_sorted ltb key l).
Proof.
  induction l as [|x l IH]; [constructor|]. unfold py_sorted. cbn [foldr].
  now apply insert_by_sorted.
Qed.

(** Elements with the same key keep the order they had. *)
Lemma insert_by_stable (P : A -> Prop) `{!forall x, Decision (P x)} x l :
  (forall y, P y -> ltb (key y) (key x) = false) ->
  filter P (insert_by ltb key x l) = filter P (x :: l).
Proof.
  intros HP. induction l as [|y l IH]; [reflexivity|]. cbn [insert_by].
  destruct (ltb (key y) (key x)) eqn:Hyx; [|reflexivity].
  rewrite filter_cons, IH, !filter_cons.
  destruct (decide (P y)) as [Hy|Hy]; [|reflexivity].
  rewrite (HP y Hy) in Hyx. discriminate.
Qed.

Lemma insert_by_filter_other (P : A -> Prop) `{!forall x, Decision (P x)} x l :
  ~ P x -> filter P (insert_by ltb key x l) = filter P l.
Proof.
  intros Hx. induction l as [|y l IH]; cbn [insert_by].
  - now rewrite filter_cons, decide_False.
  - destruct (ltb (key y) (key x)).
    + now rewrite !filter_cons, IH.
    + now rewrite filter_cons, decide_False.
Qed.

Lemma py_sorted_stable `{!EqDecision K} (k : K) l :
  filter (fun x => key x = k) (py_sorted ltb key l) = filter (fun x => key x = k) l.
Proof.
  assert (Hirr : forall a, ltb a a = false).
  { intros a. destruct (ltb a a) eqn:Ha; [|reflexivity]. now rewrite (ltb_asym _ _ Ha) in Ha. }
  induction l as [|x l IH]; [reflexivity|]. unfold py_sorted in *. cbn [foldr].
  destruct (decide (key x = k)) as [Hx|Hx].
  - rewrite insert_by_stable; [now rewrite !filter_cons, IH|].
    intros y Hy. rewrite Hy, Hx. apply Hirr.
  - rewrite insert_by_filter_other by exact Hx. now rewrite filter_cons, decide_False.
Qed.

End Sorted.

Section KeyOrder.

Lemma string_compare_refl s : String.compare s s = Eq.
Proof.
  induction s as [|c s IH]; [reflexivity|]. cbn [String.compare].
  unfold Ascii.compare. now rewrite N.compare_refl.
Qed.

Lemma string_compare_lt_trans a b c :
  String.compare a b = Lt -> String.compare b c = Lt -> String.compare a c = Lt.
Proof.
  revert b c. induction a as [|x a IH]; intros [|y b] [|z c]; cbn [String.compare];
    try congruence.
  unfold Ascii.compare.
  destruct (N.compare_spec (N_of_ascii x) (N_of_ascii y)) as [Hxy|Hxy|Hxy];
    destruct (N.compare_spec (N_of_ascii y) (N_of_ascii z)) as [Hyz|Hyz|Hyz];
    try congruence; intros H1 H2.
  - rewrite Hxy, Hyz, N.compare_refl. now apply (IH b c).
  - rewrite Hxy. now apply N.compare_lt_iff in Hyz as ->.
  - rewrite <- Hyz. now apply N.compare_lt_iff in Hxy as ->.
  - assert (Hxz : (N_of_ascii x < N_of_ascii z)%N) by lia.
    now apply N.compare_lt_iff in Hxz as ->.
Qed.

Lemma string_ltb_irrefl s : String.ltb s s = false.
Proof. unfold String.ltb. now rewrite string_compare_refl. Qed.

Lemma string_ltb_trans a b c :
  String.ltb a b = true -> String.ltb b c = true -> String.ltb a c = true.
Proof.
  unfold String.ltb. destruct (String.compare a b) eqn:H1; try discriminate.
  destruct (String.compare b c) eqn:H2; try discriminate.
  now rewrite (string_compare_lt_trans _ _ _ H1 H2).
Qed.

Lemma string_ltb_total a b : a <> b -> String.ltb a b = false -> String.ltb b a = true.
Proof.
  unfold String.ltb. intros Hne. rewrite (String.compare_antisym b a).
  destruct (String.compare a b) eqn:Hc; cbn; try congruence.
  apply String.compare_eq_iff in Hc. congruence.
Qed.

End KeyOrder.

Lemma sort_key_ltb_spec a b : sort_key_ltb a b = true <-> key_lt a b.
Proof.
  destruct a as [[a1 a2] a3], b as [[b1 b2] b3]. unfold sort_key_ltb, key_lt. cbn [fst snd].
  destruct (Z.eqb_spec a1 b1) as [->|Hne]; cbn [negb].
  - destruct (String.eqb_spec a2 b2) as [->|Hne2]; cbn [negb].
    + rewrite Z.ltb_lt, string_ltb_irrefl. split; [intros; right; tauto|].
      intros [?|[_ [?|[_ ?]]]]; [lia|discriminate|assumption].
    + split; [intros; right; tauto|]. intros [?|[_ [?|[? _]]]]; [lia|assumption|congruence].
  - rewrite Z.ltb_lt. split; [tauto|]. intros [?|[? _]]; [assumption|congruence].
Qed.

Lemma key_lt_asym a b : key_lt a b -> ~ key_lt b a.
Proof.
  unfold key_lt. intros [H1|[E1 [H2|[E2 H3]]]] [G1|[F1 [G2|[F2 G3]]]]; try lia.
  - pose proof (string_ltb_trans _ _ _ H2 G2) as Hc. rewrite string_ltb_irrefl in Hc.
    discriminate.
  - rewrite F2, string_ltb_irrefl in H2. discriminate.
  - rewrite E2, string_ltb_irrefl in G2. discriminate.
Qed.

Lemma key_lt_trans a b c : key_lt a b -> key_lt b c -> key_lt a c.
Proof.
  unfold key_lt. intros [H1|[E1 [H2|[E2 H3]]]] [G1|[F1 [G2|[F2 G3]]]];
    try (left; lia); right; (split; [congruence|]).
  - left. eapply string_ltb_trans; eassumption.
  - left. now rewrite <- F2.
  - left. now rewrite E2.
  - right. split; [congruence|lia].
Qed.

Lemma key_lt_total a b : a = b \/ key_lt a b \/ key_lt b a.
Proof.
  destruct a as [[a1 a2] a3], b as [[b1 b2] b3]. unfold key_lt. cbn [fst snd].
  destruct (Z.lt_trichotomy a1 b1) as [?|[->|?]]; [tauto| |tauto].
  destruct (decide (a2 = b2)) as [->|Hne].
  - destruct (Z.lt_trichotomy a3 b3) as [?|[->|?]]; tauto.
  - destruct (String.ltb a2 b2) eqn:Hlt; [tauto|].
    right. right. right. split; [reflexivity|]. left. now apply string_ltb_total.
Qed.

Lemma sort_key_ltb_asym a b : sort_key_ltb a b = true -> sort_key_ltb b a = false.
Proof.
  intros Hab. apply sort_key_ltb_spec in Hab.
  destruct (sort_key_ltb b a) eqn:Hba; [|reflexivity].
  apply sort_key_ltb_spec in Hba. now destruct (key_lt_asym _ _ Hab Hba).
Qed.

Lemma sort_key_le_trans a b c :
  sort_key_ltb b a = false -> sort_key_ltb c b = false -> sort_key_ltb c a = false.
Proof.
  intros Hba Hcb. destruct (sort_key_ltb c a) eqn:Hca; [|reflexivity].
  apply sort_key_ltb_spec in Hca.
  assert (Hnba : ~ key_lt b a) by (rewrite <- sort_key_ltb_spec; congruence).
  assert (Hncb : ~ key_lt c b) by (rewrite <- sort_key_ltb_spec; congruence).
  destruct (key_lt_total a b) as [->|[Hab|Hab]]; [contradiction| |contradiction].
  destruct Hncb. eapply key_lt_trans; eassumption.
Qed.

(** X13: the table of an operation shows the summaries of that operation,
    each once, and no other; the laspp rows come first, by ascending thread
    count; the rows of the other tools follow, by tool name and, within a
    tool, by ascending thread count; rows with the same tool and thread
    count keep the order of the summaries. *)
Theorem table_rows_order (op : string) (summaries : list BenchSummary) :
  let rows := table_rows op summaries in
  rows ≡ₚ op_results op summaries
  /\ (forall s, s ∈ rows <-> s ∈ summaries /\ s_operation s = op)
  /\ StronglySorted row_le rows
  /\ (forall i j a b,
        rows !! i = Some a -> rows !! j = Some b -> (i < j)%nat ->
        (s_tool b = "laspp" -> s_tool a = "laspp")
        /\ (s_tool a = "laspp" -> s_tool b = "laspp" -> s_threads a <= s_threads b)
        /\ (s_tool a <> "laspp" -> String.ltb (s_tool b) (s_tool a) = false)
        /\ (s_tool a = s_tool b -> s_threads a <= s_threads b))
  /\ (forall k, filter (fun s => sort_key s = k) rows
                = filter (fun s => sort_key s = k) (op_results op summaries)).
Proof.
  intros rows.
  assert (Hperm : rows ≡ₚ op_results op summaries) by apply py_sorted_Permutation.
  assert (Hsorted : StronglySorted row_le rows)
    by (apply py_sorted_sorted; [apply sort_key_ltb_asym|apply sort_key_le_trans]).
  split; [exact Hperm|]. split; [|split; [exact Hsorted|split]].
  - intros s. rewrite Hperm. unfold op_results. rewrite list_elem_of_filter. tauto.
  - intros i j a b Hi Hj Hij.
    assert (Hle : row_le a b).
    { pose proof Hsorted as Hs. rewrite <- (take_drop_middle _ _ _ Hi) in Hs.
      apply StronglySorted_app_1_r, StronglySorted_inv in Hs as [_ Hall].
      rewrite List.Forall_forall in Hall. apply Hall. apply list_elem_of_In.
      apply list_elem_of_lookup. exists (j - S i)%nat.
      rewrite lookup_drop. rewrite <- Hj. f_equal. lia. }
    unfold row_le in Hle.
    assert (Hn : ~ key_lt (sort_key b) (sort_key a))
      by (rewrite <- sort_key_ltb_spec; congruence).
    unfold key_lt, sort_key in Hn. cbn [fst snd] in Hn.
    repeat split.
    + intros Hb. destruct (decide (s_tool a = "laspp")) as [|Ha]; [assumption|].
      exfalso. apply Hn. left.
      rewrite (bool_decide_eq_true_2 _ Hb), (bool_decide_eq_false_2 _ Ha). lia.
    + intros Ha Hb. destruct (Z_lt_le_dec (s_threads b) (s_threads a)) as [Hlt|]; [|lia].
      exfalso. apply Hn. right.
      rewrite (bool_decide_eq_true_2 _ Hb), (bool_decide_eq_true_2 _ Ha).
      split; [reflexivity|]. right. split; [congruence|exact Hlt].
    + intros Ha. destruct (String.ltb (s_tool b) (s_tool a)) eqn:Hlt; [|reflexivity].
      exfalso. apply Hn.
      destruct (decide (s_tool b = "laspp")) as [Hb|Hb].
      * left. rewrite (bool_decide_eq_true_2 _ Hb), (bool_decide_eq_false_2 _ Ha). lia.
      * right. rewrite (bool_decide_eq_false_2 _ Hb), (bool_decide_eq_false_2 _ Ha).
        split; [reflexivity|]. now left.
    + intros Hab. destruct (Z_lt_le_dec (s_threads b) (s_threads a)) as [Hlt|]; [|lia].
      exfalso. apply Hn. right. rewrite Hab. split; [reflexivity|]. right. now split.
  - intros k. apply py_sorted_stable. apply sort_key_ltb_asym.
Qed.

(** ** What [plot_results] draws *)

Lemma scaling_pairs_spec tool ops pairs :
  scaling_pairs tool ops = Return pairs ->
  map fst pairs = map s_threads (filter (fun s => s_tool s = tool /\ 0 < s_threads s) ops)
  /\ Forall (fun p => exists s, s ∈ ops /\ s_tool s = tool /\ p.1 = s_threads s
                                /\ 0 < p.1 /\ mb_per_s s = Return p.2) pairs.
Proof.
  revert pairs. induction ops as [|s ops IH]; intros pairs; cbn [scaling_pairs].
  - intros Heq. inversion Heq. split; [reflexivity|constructor].
  - rewrite filter_cons.
    destruct (bool_decide (s_tool s = tool) && (0 <? s_threads s))%bool eqn:Hb.
    + apply andb_prop in Hb as [Ht Hp]. apply bool_decide_eq_true in Ht.
      apply Z.ltb_lt in Hp. rewrite decide_True by tauto.
      destruct (mb_per_s s) as [y|e] eqn:Hy; [|discriminate].
      destruct (scaling_pairs tool ops) as [pts|e]; [|discriminate].
      intros Heq. inversion Heq; subst. destruct (IH pts eq_refl) as [IH1 IH2].
      split; [cbn [map fst]; now rewrite IH1|]. constructor.
      * exists s. cbn [fst snd]. repeat split; try assumption. apply list_elem_of_here.
      * eapply List.Forall_impl; [|exact IH2]. intros p (s' & Hin & Hrest).
        exists s'. split; [now apply list_elem_of_further|exact Hrest].
    + rewrite decide_False.
      * intros Heq. destruct (IH pairs Heq) as [IH1 IH2]. split; [exact IH1|].
        eapply List.Forall_impl; [|exact IH2]. intros p (s' & Hin & Hrest).
        exists s'. split; [now apply list_elem_of_further|exact Hrest].
      * intros [Ht Hp]. apply andb_false_iff in Hb as [Hb|Hb].
        -- now apply bool_decide_eq_false in Hb.
        -- apply Z.ltb_ge in Hb. lia.
Qed.

Lemma Z_ltb_asym a b : (a <? b) = true -> (b <? a) = false.
Proof. rewrite Z.ltb_lt, Z.ltb_ge. lia. Qed.

Lemma Z_le_trans_ltb a b c : (b <? a) = false -> (c <? b) = false -> (c <? a) = false.
Proof. rewrite !Z.ltb_ge. lia. Qed.

Lemma StronglySorted_weaken {A} (R R' : A -> A -> Prop) (l : list A) :
  (forall x y, R x y -> R' x y) -> StronglySorted R l -> StronglySorted R' l.
Proof.
  intros HR. induction 1 as [|x l Hs IH Hall]; constructor; [exact IH|].
  eapply List.Forall_impl; [|exact Hall]. intros y. apply HR.
Qed.

Lemma StronglySorted_strict (l : list (Z * float)) :
  StronglySorted (fun p q => p.1 <= q.1) l -> NoDup (map fst l) ->
  StronglySorted (fun p q => p.1 < q.1) l.
Proof.
  induction 1 as [|x l Hs IH Hall]; intros Hnd; constructor.
  - apply IH. cbn [map] in Hnd. now apply NoDup_cons in Hnd as [_ Hnd].
  - cbn [map] in Hnd. apply NoDup_cons in Hnd as [Hx _]. rewrite List.Forall_forall in *.
    intros y Hy. specialize (Hall y Hy).
    assert (x.1 <> y.1).
    { intros Heq. apply Hx. rewrite Heq. apply list_elem_of_fmap. exists y.
      split; [reflexivity|now apply list_elem_of_In]. }
    lia.
Qed.

Lemma NoDup_map_finer {A B C} (f : A -> B) (g : A -> C) (l : list A) :
  NoDup (map f l) ->
  (forall x y, x ∈ l -> y ∈ l -> g x = g y -> f x = f y) ->
  NoDup (map g l).
Proof.
  induction l as [|a l IH]; intros Hnd Hfg; [constructor|].
  cbn [map] in *. apply NoDup_cons in Hnd as [Ha Hnd]. apply NoDup_cons. split.
  - intros Hin. apply list_elem_of_fmap in Hin as (y & Hgy & Hy). apply Ha.
    apply list_elem_of_fmap. exists y. split; [|exact Hy].
    apply Hfg; [apply list_elem_of_here|now apply list_elem_of_further|exact Hgy].
  - apply IH; [exact Hnd|]. intros x y Hx Hy. apply Hfg; now apply list_elem_of_further.
Qed.

Lemma NoDup_map_filter {A B} (f : A -> B) (P : A -> Prop) `{!forall x, Decision (P x)}
    (l : list A) :
  NoDup (map f l) -> NoDup (map f (filter P l)).
Proof.
  induction l as [|a l IH]; intros Hnd; [constructor|].
  cbn [map] in Hnd. apply NoDup_cons in Hnd as [Ha Hnd]. rewrite filter_cons.
  case_decide; [|now apply IH]. cbn [map]. apply NoDup_cons. split; [|now apply IH].
  intros Hin. apply Ha. apply list_elem_of_fmap in Hin as (y & Hy & Hin).
  apply list_elem_of_fmap. exists y. split; [exact Hy|].
  now apply list_elem_of_filter in Hin as [_ Hin].
Qed.

Lemma find_first {A} (f : A -> bool) (l : list A) (x : A) :
  find f l = Some x ->
  f x = true /\ exists pre post, l = pre ++ x :: post /\ Forall (fun y => f y = false) pre.
Proof.
  induction l as [|a l IH]; [discriminate|]. cbn [find]. destruct (f a) eqn:Ha.
  - intros Heq. inversion Heq; subst. split; [exact Ha|]. now exists [], l.
  - intros Hf. destruct (IH Hf) as (Hx & pre & post & -> & Hpre). split; [exact Hx|].
    exists (a :: pre), post. split; [reflexivity|]. now constructor.
Qed.

(** X14: the points of a scaling line are those of the summaries of the
    tool that have a positive thread count, by ascending thread count, each
    with the [mb_per_s] of its summary; summaries with thread count 0 are
    not drawn.  When the summaries have distinct (tool, operation, threads)
    keys and one operation, as those of [aggregate] filtered by operation
    have, no two points share a thread count.  The dashed line of a
    single-threaded tool is taken from the first of its summaries that has
    at most one thread, and from its first summary when there is none. *)
Theorem plot_results_selection (tool : string) (ops : list BenchSummary) :
  (forall pts, tool_pts tool ops = Return pts ->
     StronglySorted (fun p q => p.1 <= q.1) pts
     /\ map fst pts ≡ₚ map s_threads (filter (fun s => s_tool s = tool /\ 0 < s_threads s) ops)
     /\ Forall (fun p => exists s, s ∈ ops /\ s_tool s = tool /\ p.1 = s_threads s
                                   /\ 0 < p.1 /\ mb_per_s s = Return p.2) pts
     /\ (NoDup (map summary_key ops) ->
         (forall s s', s ∈ ops -> s' ∈ ops -> s_operation s = s_operation s') ->
         StronglySorted (fun p q => p.1 < q.1) pts))
  /\ (single_thread_result (tool_results tool ops) = None <-> tool_results tool ops = [])
  /\ (forall s, single_thread_result (tool_results tool ops) = Some s ->
        s ∈ ops /\ s_tool s = tool
        /\ ((s_threads s <= 1
             /\ exists pre post, tool_results tool ops = pre ++ s :: post
                                 /\ Forall (fun s' => 1 < s_threads s') pre)
            \/ (Forall (fun s' => 1 < s_threads s') (tool_results tool ops)
                /\ head (tool_results tool ops) = Some s))).
Proof.
  split; [|split].
  - intros pts. unfold tool_pts.
    destruct (scaling_pairs tool ops) as [pairs|e] eqn:Hp; [|discriminate].
    intros Heq. inversion Heq; subst pts. clear Heq.
    destruct (scaling_pairs_spec _ _ _ Hp) as [Hfst Hall].
    assert (Hperm : py_sorted Z.ltb fst pairs ≡ₚ pairs) by apply py_sorted_Permutation.
    assert (Hs : StronglySorted (fun p q => p.1 <= q.1) (py_sorted Z.ltb fst pairs)).
    { eapply StronglySorted_weaken;
        [|apply (py_sorted_sorted Z.ltb fst Z_ltb_asym Z_le_trans_ltb)].
      intros p q Hpq. cbn beta in Hpq. apply Z.ltb_ge in Hpq. exact Hpq. }
    split; [exact Hs|]. split; [now rewrite Hperm, Hfst|]. split.
    + rewrite List.Forall_forall in *. intros p Hin. apply Hall.
      apply list_elem_of_In. rewrite <- Hperm. now apply list_elem_of_In.
    + intros Hnd Hop. apply StronglySorted_strict; [exact Hs|].
      rewrite Hperm, Hfst.
      apply (NoDup_map_finer summary_key); [now apply NoDup_map_filter|].
      intros x y Hx Hy Hth.
      apply list_elem_of_filter in Hx as [[Hx1 _] Hx].
      apply list_elem_of_filter in Hy as [[Hy1 _] Hy].
      unfold summary_key. now rewrite Hx1, Hy1, Hth, (Hop x y Hx Hy).
  - unfold single_thread_result. destruct (tool_results tool ops); split; congruence.
  - intros s. unfold single_thread_result.
    destruct (tool_results tool ops) as [|first rest] eqn:Htr; [discriminate|].
    assert (Hin : forall x, x ∈ first :: rest -> x ∈ ops /\ s_tool x = tool).
    { intros x Hx. rewrite <- Htr in Hx. unfold tool_results in Hx.
      apply list_elem_of_filter in Hx. tauto. }
    destruct (find _ (first :: rest)) as [x|] eqn:Hf; cbn [default]; intros Heq;
      inversion Heq; subst.
    + destruct (find_first _ _ _ Hf) as (Hx & pre & post & Hl & Hpre).
      apply Z.leb_le in Hx.
      destruct (Hin s) as [H1 H2]; [rewrite Hl; apply elem_of_app; right; apply list_elem_of_here|].
      split; [exact H1|]. split; [exact H2|]. left. split; [exact Hx|].
      exists pre, post. split; [exact Hl|].
      eapply List.Forall_impl; [|exact Hpre]. intros y Hy. cbn beta in Hy.
      apply Z.leb_gt in Hy. exact Hy.
    + destruct (Hin s (list_elem_of_here _ _)) as [H1 H2].
      split; [exact H1|]. split; [exact H2|]. right. split; [|reflexivity].
      apply List.Forall_forall. intros y Hy.
      pose proof (find_none _ _ Hf y Hy) as Hy'. cbn beta in Hy'.
      apply Z.leb_gt in Hy'. exact Hy'.
Qed.

(** ** The metadata of a run without the benchmark binary *)

Section Metadata.
Context `{H : Host}.

Global Instance same_metadata_refl : Reflexive same_metadata.
Proof. intros ms. reflexivity. Qed.
Global Instance same_metadata_trans : Transitive same_metadata.
Proof. intros m1 m2 m3. unfold same_metadata. congruence. Qed.

Lemma same_metadata_run {A} (m : M state A) : preserves same_metadata (run m).
Proof.
  intros ms ms' r. unfold run. destruct (m (harness ms)). intros Heq. now inversion Heq.
Qed.

Lemma same_metadata_extend res : preserves same_metadata (extend res).
Proof. intros ms ms' r Heq. now inversion Heq. Qed.

Lemma same_metadata_get_results : preserves same_metadata get_results.
Proof. intros ms ms' r Heq. now inversion Heq. Qed.

Lemma same_metadata_get_metadata : preserves same_metadata get_metadata.
Proof. intros ms ms' r Heq. now inversion Heq. Qed.

Ltac metadata_leaf :=
  first [ apply same_metadata_run | apply same_metadata_extend
        | apply same_metadata_get_results | apply same_metadata_get_metadata ].

Lemma same_metadata_without_binary args tools thread_counts do_read do_write :
  "laspp" ∉ tools -> "laszip" ∉ tools ->
  preserves same_metadata
    (andthen (measure_all args tools thread_counts do_read do_write) (report_section args)).
Proof.
  intros Hpp Hzip.
  unfold measure_all, cpp_section, laspy_section, laspy_backend, laspy_cell, lazrs_section,
    pdal_section, report_section, report_tail, warn_failed.
  rewrite (bool_decide_eq_false_2 _ Hpp), (bool_decide_eq_false_2 _ Hzip).
  cbn [orb]. unfold when.
  frame_along metadata_leaf.
Qed.

Lemma pts_per_s_no_points s : num_points s = 0 -> pts_per_s s = Return zero.
Proof.
  intros Hnp. unfold pts_per_s. destruct (ltb zero (mean_s s)) eqn:Hpos; [|reflexivity].
  rewrite Hnp. unfold int_truediv_float.
  change (int_to_float 0) with (Return (A:=float) zero). cbv beta iota.
  rewrite float_truediv_positive by exact Hpos. now rewrite div_zero_positive.
Qed.

(** X15: only the benchmark binary tells the number of points.  In a run
    that asks for neither laspp nor laszip the metadata stay what [main]
    set them to at the start: zero points, the size of the file on disk and
    no thread control; and every summary made with zero points has a
    [pts_per_s] of 0.0. *)
Theorem run_without_binary_has_no_points (args : Args) (ms ms' : main_state)
    (thread_counts : list Z) (r : pyres Z) :
  path_exists (a_file args) (world (harness ms)) = true ->
  parse_ints (py_split comma (a_threads args)) = Return thread_counts ->
  "laspp" ∉ tools_of args -> "laszip" ∉ tools_of args ->
  main args ms = (ms', r) ->
  metadata ms'
  = {| md_file := a_file args; md_num_points := 0;
       md_file_size_bytes := stat_size (a_file args) (world (harness ms));
       md_has_thread_control := false |}
  /\ forall results fs s,
       In s (aggregate host_sum results (md_num_points (metadata ms')) fs) ->
       pts_per_s s = Return zero.
Proof.
  intros Hfile Hparse Hpp Hzip Hmain.
  assert (Hmd : metadata ms'
                = {| md_file := a_file args; md_num_points := 0;
                     md_file_size_bytes := stat_size (a_file args) (world (harness ms));
                     md_has_thread_control := false |}).
  { assert (Hrun : main args ms
                   = andthen (measure_all args (tools_of args) thread_counts (reads args)
                                (writes_too args))
                       (report_section args)
                       (mkMainState (harness ms) []
                          {| md_file := a_file args; md_num_points := 0;
                             md_file_size_bytes :=
                               stat_size (a_file args) (world (harness ms));
                             md_has_thread_control := false |})).
    { unfold main, bind at 1, run at 1, host_query. cbn [harness]. rewrite Hfile.
      cbn [negb]. unfold bind at 1, lift. rewrite Hparse. reflexivity. }
    rewrite Hrun in Hmain.
    apply (same_metadata_without_binary _ _ _ _ _ Hpp Hzip) in Hmain. exact Hmain. }
  split; [exact Hmd|]. intros results fs s Hs. apply pts_per_s_no_points.
  rewrite Hmd in Hs. cbn [md_num_points] in Hs.
  apply in_aggregate in Hs as ([[tl op] th] & ts & _ & ->). reflexivity.
Qed.

End Metadata.

(** A read of laspy alone on the host of the examples. *)
Lemma run_without_binary_has_no_points_witness :
  md_num_points
    (metadata (fst (@main steady_host laspy_only_args (@initial_main_state steady_host 0%nat))))
  = 0.
Proof.
  destruct (@main steady_host laspy_only_args (@initial_main_state steady_host 0%nat))
    as [ms' r] eqn:Hm.
  destruct (@run_without_binary_has_no_points steady_host laspy_only_args
              (@initial_main_state steady_host 0%nat) ms' [2] r) as [Hmd _].
  - reflexivity.
  - reflexivity.
  - vm_compute. intros Hin. repeat (apply elem_of_cons in Hin as [Hin|Hin]; [discriminate|]).
    now apply elem_of_nil in Hin.
  - vm_compute. intros Hin. repeat (apply elem_of_cons in Hin as [Hin|Hin]; [discriminate|]).
    now apply elem_of_nil in Hin.
  - exact Hm.
  - cbn [fst]. now rewrite Hmd.
Defined.

(** ** Reading the document of the benchmark binary *)

Lemma metadata_of_elem data k v :
  (k, v) ∈ metadata_of data <-> k ∈ metadata_keys /\ dict_get k data = Some v.
Proof.
  unfold metadata_of. rewrite list_elem_of_omap. split.
  - intros (k' & Hk' & Hv). destruct (dict_get k' data) as [v'|] eqn:Hg; [|discriminate].
    inversion Hv; subst. now split.
  - intros [Hk Hv]. exists k. split; [exact Hk|]. now rewrite Hv.
Qed.

Lemma metadata_of_keys data :
  map fst (metadata_of data)
  = filter (fun k => dict_get k data <> None) metadata_keys.
Proof.
  unfold metadata_of. induction metadata_keys as [|k ks IH]; [reflexivity|].
  cbn [omap list_omap]. rewrite filter_cons.
  destruct (dict_get k data) as [v|].
  - rewrite decide_True by discriminate. cbn [map fst]. now rewrite IH.
  - rewrite decide_False by (intros Hn; now apply Hn). exact IH.
Qed.

Lemma result_of_complete r :
  complete_entry r ->
  exists x, result_of r = inr x
            /\ subscript r "tool" = inr (raw_tool x)
            /\ subscript r "operation" = inr (raw_operation x)
            /\ subscript r "threads" = inr (raw_threads x)
            /\ subscript r "iteration" = inr (raw_iteration x)
            /\ subscript r "time_s" = inr (raw_time_s x).
Proof.
  intros (items & -> & Hall). unfold result_keys in Hall.
  repeat match goal with
         | Hf : Forall _ (_ :: _) |- _ => apply Forall_cons in Hf as [? Hf]
         end.
  unfold result_of, subscript.
  destruct (dict_get "tool" items) as [tl|]; [|congruence].
  destruct (dict_get "operation" items) as [op|]; [|congruence].
  destruct (dict_get "threads" items) as [th|]; [|congruence].
  destruct (dict_get "iteration" items) as [it|]; [|congruence].
  destruct (dict_get "time_s" items) as [t|]; [|congruence].
  eexists. repeat split.
Qed.

Lemma result_of_missing items k :
  first_missing items = Some k -> result_of (JDict items) = inl (KeyError k).
Proof.
  unfold first_missing, result_keys, result_of, subscript. cbn [find].
  repeat match goal with
         | |- context [bool_decide (dict_get ?key items = None)] =>
             destruct (dict_get key items);
             [rewrite bool_decide_eq_false_2 by discriminate
             |rewrite bool_decide_eq_true_2 by reflexivity; intros Heq; now inversion Heq]
         end.
  discriminate.
Qed.

Lemma results_of_items_complete entries :
  Forall complete_entry entries ->
  exists rs, results_of_items entries = inr rs
             /\ Forall2 (fun r x => result_of r = inr x) entries rs.
Proof.
  induction 1 as [|r entries Hr _ (rs & IH & Hall)].
  - exists []. split; [reflexivity|constructor].
  - destruct (result_of_complete r Hr) as (x & Hx & _). exists (x :: rs).
    cbn [results_of_items]. rewrite Hx, IH. split; [reflexivity|now constructor].
Qed.

Lemma results_of_items_fails pre r post e :
  Forall complete_entry pre -> result_of r = inl e ->
  results_of_items (pre ++ r :: post) = inl e.
Proof.
  induction 1 as [|r0 pre Hr0 _ IH]; intros Hr; cbn [app results_of_items].
  - now rewrite Hr.
  - destruct (result_of_complete r0 Hr0) as (x & Hx & _). now rewrite Hx, (IH Hr).
Qed.

(** X16: from the document of the benchmark binary, [run_cpp_benchmark]
    copies into the metadata the entries of the eight known keys that are
    present, and nothing else; a document without [results] gives no sample
    and no error; when every entry of [results] is a dict with the five keys
    there is one sample per entry, in order, with the values of that entry;
    and the first entry that lacks one of the five keys, or is not a dict,
    ends the call with a [KeyError] of the first missing key, or a
    [TypeError], and no sample at all. *)
Theorem decode_document_spec (data : list (string * json)) :
  (forall k v, (k, v) ∈ metadata_of data <-> k ∈ metadata_keys /\ dict_get k data = Some v)
  /\ map fst (metadata_of data) = filter (fun k => dict_get k data <> None) metadata_keys
  /\ (dict_get "results" data = None -> decode_document data = inr (metadata_of data, []))
  /\ (forall entries,
        dict_get "results" data = Some (JList entries) ->
        Forall complete_entry entries ->
        exists rs, decode_document data = inr (metadata_of data, rs)
                   /\ length rs = length entries
                   /\ Forall2 (fun r x =>
                                 subscript r "tool" = inr (raw_tool x)
                                 /\ subscript r "operation" = inr (raw_operation x)
                                 /\ subscript r "threads" = inr (raw_threads x)
                                 /\ subscript r "iteration" = inr (raw_iteration x)
                                 /\ subscript r "time_s" = inr (raw_time_s x)) entries rs)
  /\ (forall pre r post,
        dict_get "results" data = Some (JList (pre ++ r :: post)) ->
        Forall complete_entry pre ->
        (forall items k, r = JDict items -> first_missing items = Some k ->
           decode_document data = inl (KeyError k))
        /\ ((forall items, r <> JDict items) -> decode_document data = inl TypeError)).
Proof.
  split; [apply metadata_of_elem|]. split; [apply metadata_of_keys|]. split; [|split].
  - intros Hno. unfold decode_document. now rewrite Hno.
  - intros entries Hres Hall. unfold decode_document. rewrite Hres.
    change (default (JList []) (Some (JList entries))) with (JList entries).
    cbn [results_of].
    destruct (results_of_items_complete entries Hall) as (rs & Hrs & Hf2).
    exists rs. rewrite Hrs. split; [reflexivity|]. split.
    + symmetry. eapply Forall2_length. exact Hf2.
    + clear Hrs Hres. induction Hf2 as [|r x entries rs Hrx _ IH]; [constructor|].
      apply Forall_cons in Hall as [Hr Hall]. constructor; [|now apply IH].
      destruct (result_of_complete r Hr) as (x' & Hx' & Hfields).
      rewrite Hx' in Hrx. inversion Hrx; subst. exact Hfields.
  - intros pre r post Hres Hpre. unfold decode_document. rewrite Hres.
    change (default (JList []) (Some (JList (pre ++ r :: post))))
      with (JList (pre ++ r :: post)).
    cbn [results_of]. split.
    + intros items k -> Hk.
      now rewrite (results_of_items_fails pre _ post _ Hpre (result_of_missing _ _ Hk)).
    + intros Hnd. rewrite (results_of_items_fails pre r post TypeError Hpre); [reflexivity|].
      destruct r; try reflexivity. now destruct (Hnd items).
Qed.

(** ** What the drivers do when nothing fails *)

Section DriverTraces.
Context `{H : Host}.

Lemma call_trace w s :
  never_fails w ->
  exists s' t, call w s = (s', Return t) /\ environ s' = environ s
               /\ trace s' = trace s ++ [Called w (environ s)].
Proof.
  intros Hw. unfold call. destruct (Hw (environ s) (world s)) as (wd & t & ->).
  now eexists _, t.
Qed.

Lemma repeat_call_trace k w s :
  never_fails w ->
  exists s', repeat_call k (call w) s = (s', Return tt) /\ environ s' = environ s
             /\ trace s' = trace s ++ calls_of k w (environ s).
Proof.
  intros Hw. revert s. induction k as [|k IH]; intros s; cbn [repeat_call].
  - exists s. unfold calls_of. cbn. now rewrite app_nil_r.
  - destruct (call_trace w s Hw) as (s1 & t & Hc & He & Ht).
    destruct (IH s1) as (s2 & Hr & He2 & Ht2).
    exists s2. unfold bind. rewrite Hc, Hr. split; [reflexivity|]. split; [congruence|].
    rewrite Ht2, Ht, He. unfold calls_of. cbn [replicate]. now rewrite <- app_assoc.
Qed.

Lemma timed_iterations_trace k it w mk acc s :
  never_fails w ->
  exists s' rs, timed_iterations k it (timed w) mk acc s = (s', Return rs)
                /\ environ s' = environ s
                /\ trace s' = trace s ++ calls_of k w (environ s).
Proof.
  intros Hw. revert it acc s. induction k as [|k IH]; intros it acc s; cbn [timed_iterations].
  - exists s, acc. unfold calls_of. cbn. now rewrite app_nil_r.
  - unfold timed, bind. destruct (call_trace w s Hw) as (s1 & t & Hc & He & Ht).
    rewrite Hc. destruct (IH (it + 1) (acc ++ [mk it t]) s1) as (s2 & rs & Hr & He2 & Ht2).
    unfold timed in Hr. exists s2, rs. rewrite Hr. split; [reflexivity|].
    split; [congruence|]. rewrite Ht2, Ht, He. unfold calls_of. cbn [replicate].
    now rewrite <- app_assoc.
Qed.

Lemma loops_trace w tl op thr warmup iterations s :
  never_fails w ->
  exists s' rs,
    andthen (repeat_call (range_len warmup) (call w))
      (timed_iterations (range_len iterations) 0 (timed w)
         (fun it t => mkBenchResult tl op thr it t) []) s = (s', Return rs)
    /\ environ s' = environ s
    /\ trace s' = trace s ++ calls_of (range_len warmup + range_len iterations) w (environ s).
Proof.
  intros Hw. destruct (repeat_call_trace (range_len warmup) w s Hw) as (s1 & Hr & He & Ht).
  destruct (timed_iterations_trace (range_len iterations) 0 w
              (fun it t => mkBenchResult tl op thr it t) [] s1 Hw) as (s2 & rs & Hr2 & He2 & Ht2).
  exists s2, rs. unfold andthen, bind. rewrite Hr, Hr2. split; [reflexivity|].
  split; [congruence|]. rewrite Ht2, Ht, He. unfold calls_of.
  now rewrite replicate_add, <- app_assoc.
Qed.

Lemma restore_rayon_trace old s :
  restore_rayon old s = (fst (restore_rayon old s), Return tt)
  /\ trace (fst (restore_rayon old s))
     = trace s ++ [match old with
                   | Some v => EnvSet RAYON_NUM_THREADS v
                   | None => EnvPop RAYON_NUM_THREADS
                   end].
Proof. now destruct old. Qed.

(** X17: when no workload fails and temporary files can be made, each
    driver that runs in the harness process does exactly this.  The laspy
    read driver calls the reader [warmup + iterations] times in the
    environment of the caller -- it sets no variable, whatever the thread
    count -- and then restores [RAYON_NUM_THREADS].  The laspy write driver
    reads the file once, sets [RAYON_NUM_THREADS] when a thread count is
    given, calls the writer [warmup + iterations] times in that environment,
    restores the variable and removes its temporary file.  The lazrs driver
    calls its reader [1 + warmup + iterations] times, the first call being
    the probe.  The PDAL drivers run the command [warmup + iterations] times
    and remove their output file. *)
Theorem driver_traces :
  (forall w, never_fails w) ->
  temp_files_available ->
  (forall file backend backend_name warmup iterations nt s,
     backend <> LazrsParallel \/ nt = None ->
     trace (fst (benchmark_laspy_read file backend backend_name warmup iterations nt s))
     = trace s
       ++ calls_of (range_len warmup + range_len iterations) (LaspyRead file backend) (environ s)
       ++ [restore_event (environ s)])
  /\ (forall file backend backend_name warmup iterations chunk_size nt s,
     exists tmp,
       trace (fst (benchmark_laspy_write file backend backend_name warmup iterations
                     chunk_size nt s))
       = trace s
         ++ [Called (LaspyRead file backend) (environ s)]
         ++ match nt with
            | Some k => [EnvSet RAYON_NUM_THREADS (str_of_int k)]
            | None => []
            end
         ++ calls_of (range_len warmup + range_len iterations)
              (LaspyWrite file tmp backend chunk_size) (write_environ nt (environ s))
         ++ [restore_event (environ s); Unlink tmp])
  /\ (forall file warmup iterations s,
     HAS_LAZRS = true ->
     trace (fst (benchmark_lazrs_read file warmup iterations s))
     = trace s
       ++ calls_of (1 + range_len warmup + range_len iterations) (LazrsRead file) (environ s))
  /\ (forall file warmup iterations s,
     HAS_PDAL = true ->
     (exists out,
        trace (fst (benchmark_pdal_read file warmup iterations s))
        = trace s
          ++ calls_of (range_len warmup + range_len iterations) (PdalTranslate file out)
               (environ s)
          ++ [Unlink out])
     /\ (exists out,
        trace (fst (benchmark_pdal_write file warmup iterations s))
        = trace s
          ++ calls_of (range_len warmup + range_len iterations) (PdalTranslate file out)
               (environ s)
          ++ [Unlink out])).
Proof.
  intros Hnf Htmp. split; [|split; [|split]].
  - intros file backend backend_name warmup iterations nt s Hsel.
    assert (Hin : benchmark_laspy_read file backend backend_name warmup iterations nt
                  = laspy_read_in_process file backend backend_name warmup iterations nt).
    { unfold benchmark_laspy_read. destruct nt as [k|]; [|reflexivity].
      destruct Hsel as [Hb|Hn]; [|discriminate]. now rewrite bool_decide_eq_false_2. }
    rewrite Hin. unfold laspy_read_in_process, bind at 1, environ_get, try_finally.
    assert (Hset : (match nt with
                    | Some k => if bool_decide (backend = LazrsParallel)
                                then environ_set RAYON_NUM_THREADS (str_of_int k) else ret tt
                    | None => ret tt
                    end) = ret tt).
    { destruct nt as [k|]; [|reflexivity]. destruct Hsel as [Hb|Hn]; [|discriminate].
      now rewrite bool_decide_eq_false_2. }
    rewrite Hset. unfold andthen at 1, bind at 1, ret at 1.
    destruct (loops_trace (LaspyRead file backend) backend_name "read" (or_zero nt) warmup
                iterations s (Hnf _)) as (s1 & rs & Hl & He & Ht).
    rewrite Hl. destruct (restore_rayon_trace (environ s !! RAYON_NUM_THREADS) s1) as [Hr Hrt]. rewrite Hr. cbn [fst].
    now rewrite Hrt, Ht, <- app_assoc.
  - intros file backend backend_name warmup iterations chunk_size nt s.
    unfold benchmark_laspy_write, bind at 1.
    destruct (call_trace (LaspyRead file backend) s (Hnf _)) as (s1 & t0 & Hc & He1 & Ht1).
    rewrite Hc. unfold bind at 1, host_op.
    destruct (Htmp ".laz"%string (world s1)) as (wd & tmp & Hmk). rewrite Hmk.
    exists tmp. unfold bind at 1, environ_get, try_finally. cbn [environ].
    set (s2 := mkState wd (environ s1) (trace s1)).
    set (s3 := fst ((match nt with
                     | Some k => environ_set RAYON_NUM_THREADS (str_of_int k)
                     | None => ret tt
                     end) s2)).
    assert (Hs3 : (match nt with
                   | Some k => environ_set RAYON_NUM_THREADS (str_of_int k)
                   | None => ret tt
                   end) s2 = (s3, Return tt)) by (subst s3; now destruct nt).
    assert (He3 : environ s3 = write_environ nt (environ s))
      by (subst s3 s2; destruct nt; cbn; now rewrite He1).
    assert (Ht3 : trace s3 = trace s1 ++ match nt with
                                         | Some k => [EnvSet RAYON_NUM_THREADS (str_of_int k)]
                                         | None => []
                                         end)
      by (subst s3 s2; destruct nt; cbn; [reflexivity|now rewrite app_nil_r]).
    unfold andthen at 1, bind at 1. rewrite Hs3.
    destruct (loops_trace (LaspyWrite file tmp backend chunk_size) backend_name "write"
                (or_zero nt) warmup iterations s3 (Hnf _)) as (s4 & rs & Hl & He4 & Ht4).
    rewrite Hl. unfold andthen, bind. rewrite He1.
    destruct (restore_rayon_trace (environ s !! RAYON_NUM_THREADS) s4) as [Hr Hrt]. rewrite Hr. cbn [fst emit trace].
    rewrite Hrt, Ht4, Ht3, Ht1, He3. now rewrite <- !app_assoc.
  - intros file warmup iterations s Hhas. unfold benchmark_lazrs_read. rewrite Hhas.
    cbn [negb]. unfold bind at 1, try_except, bind at 1.
    destruct (call_trace (LazrsRead file) s (Hnf _)) as (s1 & t0 & Hc & He1 & Ht1).
    rewrite Hc. unfold ret at 1.
    destruct (loops_trace (LazrsRead file) "lazrs" "read" 0 warmup iterations s1 (Hnf _))
      as (s2 & rs & Hl & He2 & Ht2).
    rewrite Hl. cbn [fst]. rewrite Ht2, Ht1, He1. unfold calls_of.
    now rewrite <- app_assoc.
  - intros file warmup iterations s Hhas.
    assert (Hp : forall op suffix, exists out,
               trace (fst (benchmark_pdal op suffix file warmup iterations s))
               = trace s
                 ++ calls_of (range_len warmup + range_len iterations)
                      (PdalTranslate file out) (environ s)
                 ++ [Unlink out]).
    { intros op suffix. unfold benchmark_pdal. rewrite Hhas. cbn [negb].
      unfold bind at 1, host_op. destruct (Htmp suffix (world s)) as (wd & out & Hmk).
      rewrite Hmk. exists out. unfold try_finally.
      destruct (loops_trace (PdalTranslate file out) "pdal" op 0 warmup iterations
                  (mkState wd (environ s) (trace s)) (Hnf _)) as (s2 & rs & Hl & He2 & Ht2).
      rewrite Hl. cbn [emit fst trace]. rewrite Ht2. cbn [trace environ].
      now rewrite <- app_assoc. }
    split; apply Hp.
Qed.

End DriverTraces.

(** ** The tables of the summaries of [aggregate] *)

Lemma sort_key_summary s : sort_key s = sort_key_of (summary_key s).
Proof. reflexivity. Qed.

Lemma map_filter_key op (l : list BenchSummary) :
  map summary_key (filter (fun s => s_operation s = op) l)
  = filter (fun k : group_key => k.1.2 = op) (map summary_key l).
Proof.
  induction l as [|s l IH]; [reflexivity|]. cbn [map]. rewrite !filter_cons.
  change ((summary_key s).1.2) with (s_operation s).
  destruct (decide (s_operation s = op)); cbn [map]; now rewrite IH.
Qed.

Lemma StronglySorted_map {A B} (R : B -> B -> Prop) (f : A -> B) (l : list A) :
  StronglySorted (fun a b => R (f a) (f b)) l -> StronglySorted R (map f l).
Proof.
  induction 1 as [|x l Hs IH Hall]; cbn [map]; constructor; [exact IH|].
  apply List.Forall_forall. intros y Hy. apply in_map_iff in Hy as (a & <- & Ha).
  rewrite List.Forall_forall in Hall. now apply Hall.
Qed.

Lemma sort_key_of_inj k k' :
  k.1.2 = k'.1.2 -> sort_key_of k = sort_key_of k' -> k = k'.
Proof.
  destruct k as [[tl op] th], k' as [[tl' op'] th']. unfold sort_key_of. cbn [fst snd].
  intros -> Heq. inversion Heq. reflexivity.
Qed.

(** X18: the rows of a table come in an order that does not depend on the
    order in which the samples were collected: for two orders of the same
    samples, the tables of an operation list the same configurations in the
    same order. *)
Theorem table_order_ignores_sample_order (py_sum : list float -> float)
    (raw raw' : list BenchResult) (np fs : Z) (op : string) :
  Permutation raw raw' ->
  map summary_key (table_rows op (aggregate py_sum raw np fs))
  = map summary_key (table_rows op (aggregate py_sum raw' np fs)).
Proof.
  intros Hp.
  set (Rk := fun k k' : group_key => sort_key_ltb (sort_key_of k') (sort_key_of k) = false).
  assert (Hkeys : forall r, map summary_key (table_rows op (aggregate py_sum r np fs))
                            ≡ₚ filter (fun k : group_key => k.1.2 = op)
                                 (map fst (group_samples r))).
  { intros r. unfold table_rows. rewrite py_sorted_Permutation. unfold op_results.
    now rewrite map_filter_key, aggregate_keys. }
  assert (Hsorted : forall r, StronglySorted Rk
                                (map summary_key (table_rows op (aggregate py_sum r np fs)))).
  { intros r. apply StronglySorted_map. unfold table_rows.
    apply (py_sorted_sorted sort_key_ltb sort_key sort_key_ltb_asym sort_key_le_trans). }
  apply (StronglySorted_unique_strong Rk); [|apply Hsorted|apply Hsorted|].
  - intros k k' Hk Hk' H1 H2. rewrite Hkeys in Hk, Hk'.
    apply list_elem_of_filter in Hk as [Hop _]. apply list_elem_of_filter in Hk' as [Hop' _].
    apply sort_key_of_inj; [congruence|].
    subst Rk. cbn beta in H1, H2.
    destruct (key_lt_total (sort_key_of k) (sort_key_of k')) as [Heq|[Hlt|Hlt]];
      [exact Heq| |]; apply sort_key_ltb_spec in Hlt; congruence.
  - rewrite !Hkeys. now rewrite (group_keys_Permutation _ _ Hp).
Qed.

(** The samples of two tools, as collected and in the opposite order. *)
Lemma table_order_ignores_sample_order_witness :
  map summary_key (table_rows "read" (aggregate sum_plain interleaved 0 0))
  = map summary_key (table_rows "read" (aggregate sum_plain (rev interleaved) 0 0)).
Proof. apply table_order_ignores_sample_order. apply Permutation_rev. Defined.

(** ** The properties on the host of the examples *)

(** The PDAL read driver on the host of the examples. *)
Lemma temporary_file_is_unlinked_witness :
  exists evs,
    trace (fst (@benchmark_pdal_read steady_host "cloud.laz" 1 2
                  (@initial_state steady_host 0%nat)))
    = [] ++ evs ++ [Unlink "/tmp/tmp.las"].
Proof.
  destruct (@temporary_file_is_unlinked steady_host) as (_ & Hread & _).
  exact (Hread "cloud.laz" 1 2 (@initial_state steady_host 0%nat) _ "/tmp/tmp.las"
           eq_refl eq_refl).
Defined.

Lemma default_thread_counts_six : default_thread_counts 6 2 = [1; 2; 4; 6].
Proof. vm_compute. reflexivity. Qed.

(** Six hardware threads, with the decimal numerals of the examples. *)
Lemma default_threads_read_back_witness :
  @parse_ints steady_host (py_split comma (@default_threads steady_host 6 2))
  = Return [1; 2; 4; 6].
Proof.
  destruct (@default_threads_read_back steady_host 6 2) as [Hback _]; [lia| |].
  - rewrite default_thread_counts_six. intros k Hk.
    repeat (apply elem_of_cons in Hk as [->|Hk]; [split; reflexivity|]).
    now apply elem_of_nil in Hk.
  - rewrite default_thread_counts_six in Hback. exact Hback.
Defined.

(** [--threads 1,x] on the host of the examples. *)
Lemma main_rejects_malformed_threads_witness :
  @main steady_host bad_threads_args (@initial_main_state steady_host 0%nat)
  = (@initial_main_state steady_host 0%nat,
     Raise (mkExn ValueError "invalid literal for int()")).
Proof.
  apply (@main_rejects_malformed_threads steady_host bad_threads_args
           (@initial_main_state steady_host 0%nat)); reflexivity.
Defined.

(** The lazrs driver with one warmup and two timed calls: four calls. *)
Lemma driver_traces_witness :
  trace (fst (@benchmark_lazrs_read steady_host "cloud.laz" 1 2
                (@initial_state steady_host 0%nat)))
  = calls_of 4 (LazrsRead "cloud.laz") ∅.
Proof.
  destruct (@driver_traces steady_host steady_never_fails steady_temp_files)
    as (_ & _ & Hlazrs & _).
  exact (Hlazrs "cloud.laz" 1 2 (@initial_state steady_host 0%nat) eq_refl).
Defined.

(** The first result is complete, the second lacks its time: no sample. *)
Example decode_short_document :
  decode_document short_document = inl (KeyError "time_s")
  /\ map fst (metadata_of short_document) = ["num_points"].
Proof. split; reflexivity. Qed.

(** * The thread count and the environment of the harness process *)

Section ThreadCount.
Context `{H : Host}.

Global Instance keeps_rayon_refl v : Reflexive (keeps_rayon v).
Proof. intros s Hv. split; [exact Hv|reflexivity]. Qed.
Global Instance keeps_rayon_trans v : Transitive (keeps_rayon v).
Proof.
  intros s1 s2 s3 H12 H23 Hv. destruct (H12 Hv) as [Hv2 Ha]. destruct (H23 Hv2) as [Hv3 Hb].
  split; [exact Hv3|]. now transitivity s2.
Qed.

Lemma keeps_rayon_call v w : preserves (keeps_rayon v) (call w).
Proof.
  intros s s' r. unfold call. destruct (call_workload _ _ _) as [wd r']. intros Heq.
  inversion Heq; subst. intros Hv. split; [exact Hv|].
  exists [Called w (environ s)]. split; [reflexivity|]. constructor; [exact Hv|constructor].
Qed.

Lemma keeps_rayon_loops v w tl op thr warmup iterations :
  preserves (keeps_rayon v)
    (andthen (repeat_call (range_len warmup) (call w))
       (timed_iterations (range_len iterations) 0 (timed w)
          (fun it t => mkBenchResult tl op thr it t) [])).
Proof.
  unfold timed.
  repeat first [ apply preserves_andthen | apply preserves_repeat_call
               | apply preserves_timed_iterations | apply keeps_rayon_call | exact _ ].
Qed.

Lemma laspy_write_sets_rayon file backend backend_name warmup iterations chunk_size k
    s s1 s2 t0 tmp :
  call (LaspyRead file backend) s = (s1, Return t0) ->
  host_op (named_temporary_file ".laz") s1 = (s2, Return tmp) ->
  exists evs,
    trace (fst (benchmark_laspy_write file backend backend_name warmup iterations
                  chunk_size (Some k) s))
    = trace s2 ++ EnvSet RAYON_NUM_THREADS (str_of_int k) :: evs
    /\ Forall (in_process_with (str_of_int k)) evs.
Proof.
  intros Hc Ht. unfold benchmark_laspy_write, bind at 1. rewrite Hc.
  unfold bind at 1. rewrite Ht. unfold bind at 1, environ_get, try_finally.
  unfold andthen at 1, bind at 1. cbn [environ_set].
  set (s3 := mkState (world s2) (<[RAYON_NUM_THREADS:=str_of_int k]> (environ s2))
               (trace s2 ++ [EnvSet RAYON_NUM_THREADS (str_of_int k)])).
  match goal with |- context [let '(_, _) := ?body s3 in _] =>
    destruct (body s3) as [s4 r4] eqn:Hb end.
  apply (keeps_rayon_loops (str_of_int k)) in Hb.
  destruct Hb as [_ (evs1 & Hb & Hall)]; [subst s3; apply lookup_insert_eq|].
  destruct (restore_rayon_trace (environ s2 !! RAYON_NUM_THREADS) s4) as [Hr Hrt].
  unfold andthen, bind. rewrite Hr. cbn [emit fst trace].
  exists (evs1 ++ [match environ s2 !! RAYON_NUM_THREADS with
                   | Some v => EnvSet RAYON_NUM_THREADS v
                   | None => EnvPop RAYON_NUM_THREADS
                   end; Unlink tmp]).
  split.
  - rewrite Hrt, Hb. subst s3. cbn [trace]. now rewrite <- !app_assoc.
  - apply Forall_app. split; [exact Hall|].
    constructor; [now destruct (environ s2 !! RAYON_NUM_THREADS)|]. now repeat constructor.
Qed.

(** How the two laspy drivers pass the thread count.  With the
    lazrs-parallel backend and a thread count, the read driver sets
    [RAYON_NUM_THREADS] only in the copy of the environment that it hands
    to the child it starts, and neither sets nor removes a variable of the
    harness process.  The write driver, given a thread count, sets
    [RAYON_NUM_THREADS] in the environment of the harness process itself,
    after the first read, calls its workloads while the variable has that
    value there, starts no child, and puts the saved value back at the end.
    After a call of either driver the environment of the harness process
    is what it was before. *)
Lemma laspy_drivers_and_thread_count :
  (forall file backend_name warmup iterations nt s,
     let final :=
       fst (benchmark_laspy_read file LazrsParallel backend_name warmup iterations
              (Some nt) s) in
     environ final = environ s
     /\ trace final
        = trace s ++ [Spawn (LaspyReadScript nt file warmup iterations) (child_environ s nt)]
     /\ child_environ s nt !! RAYON_NUM_THREADS = Some (str_of_int nt)
     /\ forall k, k <> RAYON_NUM_THREADS -> child_environ s nt !! k = environ s !! k)
  /\ (forall file backend backend_name warmup iterations chunk_size nt s,
     environ (fst (benchmark_laspy_read file backend backend_name warmup iterations nt s))
     = environ s
     /\ environ (fst (benchmark_laspy_write file backend backend_name warmup iterations
                        chunk_size nt s))
        = environ s)
  /\ (forall file backend backend_name warmup iterations chunk_size k s s1 s2 t0 tmp,
     call (LaspyRead file backend) s = (s1, Return t0) ->
     host_op (named_temporary_file ".laz") s1 = (s2, Return tmp) ->
     exists evs,
       trace (fst (benchmark_laspy_write file backend backend_name warmup iterations
                     chunk_size (Some k) s))
       = trace s2 ++ EnvSet RAYON_NUM_THREADS (str_of_int k) :: evs
       /\ Forall (in_process_with (str_of_int k)) evs).
Proof.
  split; [|split].
  - intros file backend_name warmup iterations nt s.
    apply subprocess_driver_leaves_environ.
  - intros file backend backend_name warmup iterations chunk_size nt s. split.
    + destruct (benchmark_laspy_read file backend backend_name warmup iterations nt s)
        as [s' r] eqn:Heq.
      now apply same_environ_laspy_read in Heq.
    + destruct (benchmark_laspy_write file backend backend_name warmup iterations
                  chunk_size nt s) as [s' r] eqn:Heq.
      now apply same_environ_laspy_write in Heq.
  - intros. eapply laspy_write_sets_rayon; eassumption.
Qed.

End ThreadCount.

(** C6: the write driver breaks the claim.  Called as [main] calls it for
    the lazrs-parallel backend with thread count 4, it starts no child: it
    sets [RAYON_NUM_THREADS] in the environment of the harness process
    after the first read, calls the three writes there, and removes the
    variable at the end.  The read driver, for the same backend and thread
    count, starts one child with the variable set in the child's
    environment, and sets no variable of the harness process.  In a write
    run of [main] with thread counts 1 and 4 every cell sets and removes
    the variable in the harness process, and no child is started. *)
Theorem write_driver_sets_harness_environ :
  trace (fst write_driver_run)
  = [Called (LaspyRead "cloud.laz" LazrsParallel) ∅;
     EnvSet "RAYON_NUM_THREADS" "4";
     Called (LaspyWrite "cloud.laz" "/tmp/tmp.laz" LazrsParallel 50000)
       (<["RAYON_NUM_THREADS" := "4"]> ∅);
     Called (LaspyWrite "cloud.laz" "/tmp/tmp.laz" LazrsParallel 50000)
       (<["RAYON_NUM_THREADS" := "4"]> ∅);
     Called (LaspyWrite "cloud.laz" "/tmp/tmp.laz" LazrsParallel 50000)
       (<["RAYON_NUM_THREADS" := "4"]> ∅);
     EnvPop "RAYON_NUM_THREADS";
     Unlink "/tmp/tmp.laz"]
  /\ trace (fst read_driver_run)
     = [Spawn (LaspyReadScript 4 "cloud.laz" 1 2) (<["RAYON_NUM_THREADS" := "4"]> ∅)]
  /\ snd write_run = Return 0
  /\ environ_events (trace (harness (fst write_run)))
     = [EnvSet "RAYON_NUM_THREADS" "1"; EnvPop "RAYON_NUM_THREADS";
        EnvSet "RAYON_NUM_THREADS" "4"; EnvPop "RAYON_NUM_THREADS";
        EnvSet "RAYON_NUM_THREADS" "1"; EnvPop "RAYON_NUM_THREADS"]
  /\ no_child (trace (harness (fst write_run))) = true.
Proof. repeat split; vm_compute; reflexivity. Qed.

(** C7, as stated, fails: on a host where every call of the codec fails,
    the first call of the lazrs driver fails and the driver returns the
    empty list, as it does on a host without lazrs; [main] prints a warning
    for PDAL and none for lazrs. *)
Lemma failed_probe_gives_empty_list :
  snd (@benchmark_lazrs_read every_call_fails_host "cloud.laz" 1 2
         (@initial_state every_call_fails_host 0%nat))
  = Return []
  /\ snd (@benchmark_lazrs_read without_lazrs_host "cloud.laz" 1 2
            (@initial_state without_lazrs_host 0%nat))
     = Return []
  /\ snd failing_run = Return 1
  /\ stderr_lines (trace (harness (fst failing_run)))
     = [("WARNING: PDAL benchmark failed: "
         ++ "pdal translate returned non-zero exit status 1")%string;
        "No benchmark results collected."].
Proof. repeat split; vm_compute; reflexivity. Qed.
